(** * Bitwalk pressure app: the fluctuation index and its tier

    A shallow embedding of [compute_bitwalk_index] and of the tier branch of
    the main script, as they appear in
    [bitwalk_pressure_ui_chat_20250622_v03.py] and
    [bitwalk_pressure_ui_chat_20250623_v04.py], followed by the rest of the
    two scripts ([App], [Common], [App03], [App04]): the functions around the
    index and one run of the top-level script, as the list of calls it makes.

    Numbers.  The function is embedded twice.

    - Over IEEE 754 binary64 ([IEEE]): every cell is a double
      ([SpecFloat.spec_float] at precision 53), every operation rounds as the
      hardware does, the sum behind [mean] is taken in numpy's order and
      [round(x, 2)] is numpy's [rint(x * 100) / 100].  This is the arithmetic
      the program runs; the statement of what the function returns and the
      behaviour under scaling are proved here, because a rounding tie
      ([0.075], [0.495]) is decided by the last bit of the doubles.

    - Over exact rationals ([Float64], [Pandas], [V03], [V04]): a cell is a
      rational or NaN and no operation rounds, except [round] itself.  This
      is the algorithm in exact arithmetic; it is used for what does not
      depend on the last bit: the frame the call leaves behind, NaN and
      missing readings, the tier branch, the sign of the index, and the
      script around the function.

    NaN is modelled explicitly in both, because the code depends on it:
    [Series.diff] puts NaN in the first row, [max] and [mean] skip NaN, and
    every comparison with NaN is false.

    Effects.  [compute_bitwalk_index] assigns two columns of the frame it is
    given, so it is embedded as a computation over the caller's frame that
    either returns a value or raises, and the frame it leaves behind is part
    of its result.

    The concrete series are also replayed on the machine's doubles
    ([Binary64], [binary64_replay]). *)

From Stdlib Require Import ZArith QArith Qabs Qminmax Qround Lqa Lia.
From Stdlib Require Import Bool Ascii String List.
From Stdlib Require PrimFloat.
From Stdlib Require Import SpecFloat.
Import ListNotations.

Local Open Scope Q_scope.

(** ** numpy float64 scalars *)

Module Float64.

Definition float64 : Type := option Q.
Definition NaN : float64 := None.
Definition num (q : Q) : float64 := Some q.

Definition lift2 (f : Q -> Q -> Q) (x y : float64) : float64 :=
  match x, y with
  | Some a, Some b => Some (f a b)
  | _, _ => NaN
  end.

Definition fadd : float64 -> float64 -> float64 := lift2 Qplus.
Definition fsub : float64 -> float64 -> float64 := lift2 Qminus.
Definition fabs (x : float64) : float64 := option_map Qabs x.

(** [x / n] for a positive integer literal [n] (the code divides by [2]). *)
Definition fdiv (x : float64) (n : positive) : float64 :=
  option_map (fun a => a / inject_Z (Zpos n)) x.

Definition Qlt_bool (a b : Q) : bool := negb (Qle_bool b a).

(** [x < y]; false as soon as one side is NaN. *)
Definition flt (x y : float64) : bool :=
  match x, y with
  | Some a, Some b => Qlt_bool a b
  | _, _ => false
  end.

(** Round to the nearest integer, ties to the even one ([numpy.rint]). *)
Definition rint (x : Q) : Z :=
  let f := Qfloor x in
  match Qcompare (x - inject_Z f) (1 # 2) with
  | Lt => f
  | Gt => (f + 1)%Z
  | Eq => if Z.even f then f else (f + 1)%Z
  end.

(** [round(x, ndigits)] on a float64 scalar: scale by [10^ndigits], [rint],
    scale back.  The result is kept in lowest terms, so that two equal
    indices are the same term.  NaN rounds to NaN. *)
Definition round_q (ndigits : nat) (x : Q) : Q :=
  let s := Z.pow 10 (Z.of_nat ndigits) in
  Qred (inject_Z (rint (x * inject_Z s)) / inject_Z s).

Definition round (x : float64) (ndigits : nat) : float64 :=
  option_map (round_q ndigits) x.

End Float64.
Import Float64.

(** ** pandas Series of float64 and the DataFrame *)

Module Pandas.

Definition Series : Type := list float64.

(** [s.diff()]: row [0] is NaN, row [i] is [s[i] - s[i-1]]. *)
Fixpoint diff_from (prev : float64) (s : Series) : Series :=
  match s with
  | [] => []
  | x :: s' => fsub x prev :: diff_from x s'
  end.

Definition diff (s : Series) : Series := diff_from NaN s.

(** [s.abs()]. *)
Definition abs (s : Series) : Series := map fabs s.

(** The non-NaN cells, in order ([skipna=True]). *)
Fixpoint dropna (s : Series) : list Q :=
  match s with
  | [] => []
  | Some q :: s' => q :: dropna s'
  | None :: s' => dropna s'
  end.

Definition Qsum (l : list Q) : Q := fold_left Qplus l 0.

(** [s.max()]: the largest non-NaN cell, NaN when there is none. *)
Definition max (s : Series) : float64 :=
  match dropna s with
  | [] => NaN
  | q :: l => num (fold_left Qmax l q)
  end.

(** [s.mean()]: sum of the non-NaN cells over their count, NaN when there
    is none. *)
Definition mean (s : Series) : float64 :=
  match dropna s with
  | [] => NaN
  | l => num (Qsum l / inject_Z (Z.of_nat (length l)))
  end.

(** A frame as [fetch_pressure_data] builds it: the datetime column
    ['time'] first, then float64 columns in insertion order. *)
Record DataFrame : Type := mkDataFrame {
  time : list Z;
  columns : list (string * Series)
}.

Fixpoint lookup (k : string) (cs : list (string * Series)) : option Series :=
  match cs with
  | [] => None
  | (k', s) :: cs' => if String.eqb k k' then Some s else lookup k cs'
  end.

(** Column assignment: an existing column is replaced in place, a new one
    is appended. *)
Fixpoint assign (k : string) (s : Series) (cs : list (string * Series))
  : list (string * Series) :=
  match cs with
  | [] => [(k, s)]
  | (k', s') :: cs' =>
      if String.eqb k k' then (k', s) :: cs' else (k', s') :: assign k s cs'
  end.

Inductive exn : Type :=
| KeyError (k : string).

Inductive outcome (A : Type) : Type :=
| Returned (a : A)
| Raised (e : exn).
Arguments Returned {A} a.
Arguments Raised {A} e.

(** Code running against the caller's frame: it may update the frame and
    either returns or raises; updates made before a raise stay. *)
Definition M (A : Type) : Type := DataFrame -> DataFrame * outcome A.

Definition ret {A} (a : A) : M A := fun df => (df, Returned a).

Definition bind {A B} (c : M A) (k : A -> M B) : M B :=
  fun df =>
    match c df with
    | (df', Returned a) => k a df'
    | (df', Raised e) => (df', Raised e)
    end.

(** [df[k]] *)
Definition getitem (k : string) : M Series :=
  fun df =>
    match lookup k (columns df) with
    | Some s => (df, Returned s)
    | None => (df, Raised (KeyError k))
    end.

(** [df[k] = s] *)
Definition setitem (k : string) (s : Series) : M unit :=
  fun df => (mkDataFrame (time df) (assign k s (columns df)), Returned tt).

End Pandas.
Import Pandas.

Declare Scope frame_scope.
Delimit Scope frame_scope with frame.
Notation "x <- c ;; k" := (bind c (fun x => k))
  (at level 61, c at next level, right associativity) : frame_scope.
Notation "c ;; k" := (bind c (fun _ => k))
  (at level 61, right associativity) : frame_scope.

Local Open Scope string_scope.

Inductive Tier : Type := STABLE | MODERATE | HIGH.

(** ** bitwalk_pressure_ui_chat_20250622_v03.py *)

Module V03.

(** Lines 53-56. *)
Definition compute_bitwalk_index : M float64 :=
  (p <- getitem "pressure" ;;
   setitem "diff" (abs (diff p)) ;;
   p' <- getitem "pressure" ;;
   setitem "dpdt" (diff p') ;;
   d <- getitem "diff" ;;
   d' <- getitem "diff" ;;
   ret (round (fdiv (fadd (max d) (mean d')) 2) 2))%frame.

(** Lines 99-104: [st.success] / [st.info] / [st.warning]. *)
Definition tier (index : float64) : Tier :=
  if flt index (num 0.5) then STABLE
  else if flt index (num 1.5) then MODERATE
  else HIGH.

End V03.

(** ** bitwalk_pressure_ui_chat_20250623_v04.py *)

Module V04.

(** Lines 56-59. *)
Definition compute_bitwalk_index : M float64 :=
  (p <- getitem "pressure" ;;
   setitem "diff" (abs (diff p)) ;;
   p' <- getitem "pressure" ;;
   setitem "dpdt" (diff p') ;;
   d <- getitem "diff" ;;
   d' <- getitem "diff" ;;
   ret (round (fdiv (fadd (max d) (mean d')) 2) 2))%frame.

(** Lines 117-122. *)
Definition tier (index : float64) : Tier :=
  if flt index (num 0.5) then STABLE
  else if flt index (num 1.5) then MODERATE
  else HIGH.

End V04.

(** A frame as [fetch_pressure_data] returns it: the ['time'] column and a
    float64 ['pressure'] column built from the [pressure_msl] values (a null
    among them is NaN). *)
Definition frame_of (ts : list Z) (ps : Series) : DataFrame :=
  mkDataFrame ts [("pressure", ps)].

(** The expression returned on line 56 (v03) / 59 (v04), as a function of
    the ['pressure'] column read on the way. *)
Definition index_expr (p : Series) : float64 :=
  round (fdiv (fadd (max (abs (diff p))) (mean (abs (diff p)))) 2) 2.

(** The columns of the caller's frame after the two assignments. *)
Definition columns_after (p : Series) (cs : list (string * Series))
  : list (string * Series) :=
  assign "dpdt" (diff p) (assign "diff" (abs (diff p)) cs).

(** ** The function in binary64

    The arithmetic the program runs.  A cell is a double of
    [SpecFloat] at precision 53 and maximal exponent 1024; [add], [sub],
    [mul] and [div] round to the nearest double, halves to the even one.
    What pandas and numpy do with a float64 column is written out:
    [Series.max] and [Series.mean] skip NaN; [mean] is [values.sum() / count]
    with the NaN cells counted as [0.0] in the sum, and [sum] is numpy's
    pairwise summation ([pairwise_sum]); [round(x, 2)] on a numpy scalar is
    [rint(x * 100) / 100]. *)

Module IEEE.

Definition double : Type := spec_float.
Definition prec : Z := 53.
Definition emax : Z := 1024.

Definition NaN : double := S754_nan.
Definition zero : double := S754_zero false.

Definition add : double -> double -> double := SFadd prec emax.
Definition sub : double -> double -> double := SFsub prec emax.
Definition mul : double -> double -> double := SFmul prec emax.
Definition div : double -> double -> double := SFdiv prec emax.
Definition fabs : double -> double := SFabs.

(** [x < y]; false as soon as one side is NaN. *)
Definition lt : double -> double -> bool := SFltb.

Definition is_nan (x : double) : bool :=
  match x with
  | S754_nan => true
  | _ => false
  end.

(** Neither NaN nor an infinity. *)
Definition is_finite (x : double) : bool :=
  match x with
  | S754_zero _ | S754_finite _ _ _ => true
  | _ => false
  end.

(** The double of an integer literal ([2], [100]) or of a count. *)
Definition of_Z (z : Z) : double := binary_normalize prec emax z 0 false.

(** The double nearest to [m / 10^k]: what a decimal literal ([0.5]) or a
    decimal number of the JSON reply ([1000.3]) is read as. *)
Definition decimal (m : Z) (k : nat) : double :=
  div (of_Z m) (of_Z (10 ^ Z.of_nat k)).

(** The integer nearest to [m / 2^k], halves to the even one. *)
Definition nearest_even (m : Z) (k : positive) : Z :=
  let q := (m / 2 ^ Zpos k)%Z in
  match (2 * (m mod 2 ^ Zpos k) ?= 2 ^ Zpos k)%Z with
  | Lt => q
  | Gt => (q + 1)%Z
  | Eq => if Z.even q then q else (q + 1)%Z
  end.

(** [numpy.rint]: a double with a negative exponent is [m / 2^k] and goes to
    the nearest integer (keeping its sign when that is zero); any other
    double is a whole number, an infinity or NaN already. *)
Definition rint (x : double) : double :=
  match x with
  | S754_finite s m (Zneg k) =>
      match nearest_even (cond_Zopp s (Zpos m)) k with
      | Z0 => S754_zero s
      | z => of_Z z
      end
  | _ => x
  end.

(** [round(x, ndigits)] on a numpy float64 scalar: multiply by
    [10^ndigits], [rint], divide; each step rounds to a double. *)
Definition round (x : double) (ndigits : nat) : double :=
  let s := of_Z (10 ^ Z.of_nat ndigits) in
  div (rint (mul x s)) s.

Definition Series : Type := list double.

(** [s.diff()]: row [0] is NaN, row [i] is [s[i] - s[i-1]]. *)
Fixpoint diff_from (prev : double) (s : Series) : Series :=
  match s with
  | [] => []
  | x :: s' => sub x prev :: diff_from x s'
  end.

Definition diff (s : Series) : Series := diff_from NaN s.

(** [s.abs()]. *)
Definition abs (s : Series) : Series := map fabs s.

(** The non-NaN cells, in order ([skipna=True]). *)
Definition dropna (s : Series) : Series :=
  filter (fun x => negb (is_nan x)) s.

(** The column with [v] in place of every NaN. *)
Definition fillna (s : Series) (v : double) : Series :=
  map (fun x => if is_nan x then v else x) s.

(** [s.max()]: the largest non-NaN cell, NaN when there is none. *)
Definition max (s : Series) : double :=
  match dropna s with
  | [] => NaN
  | x :: l => fold_left (fun a b => if lt a b then b else a) l x
  end.

(** numpy's pairwise summation of a contiguous array.  Fewer than 8 cells
    are added left to right.  Up to 128 cells go to eight running sums, cell
    [i] to sum [i mod 8], for as long as a whole block of eight is left; the
    eight sums are added as a balanced tree and the cells left over are added
    to that, left to right.  A longer array is split near its middle, at a
    multiple of eight, and the sums of the two parts are added. *)
Fixpoint add_lanes (r a : list double) : list double :=
  match r, a with
  | x :: r', y :: a' => add x y :: add_lanes r' a'
  | _, _ => r
  end.

Fixpoint unrolled (blocks : nat) (r a : list double)
  : list double * list double :=
  match blocks with
  | O => (r, a)
  | S b =>
      if (8 <=? length a)%nat
      then unrolled b (add_lanes r (firstn 8 a)) (skipn 8 a)
      else (r, a)
  end.

Definition reduce_lanes (r : list double) : double :=
  match r with
  | [r0; r1; r2; r3; r4; r5; r6; r7] =>
      add (add (add r0 r1) (add r2 r3)) (add (add r4 r5) (add r6 r7))
  | _ => NaN
  end.

(** [depth] bounds the number of nested splits; the length of the array is
    always enough. *)
Fixpoint pairwise_sum (depth : nat) (a : list double) : double :=
  let n := length a in
  if (n <? 8)%nat then fold_left add a zero
  else if (n <=? 128)%nat then
    let '(r, rest) := unrolled n (firstn 8 a) (skipn 8 a) in
    fold_left add rest (reduce_lanes r)
  else
    match depth with
    | O => NaN
    | S depth' =>
        let n2 := (n / 2 - (n / 2) mod 8)%nat in
        add (pairwise_sum depth' (firstn n2 a))
            (pairwise_sum depth' (skipn n2 a))
    end.

(** [values.sum()]: the reduction starts from [0.0] and adds the pairwise
    sum of the array. *)
Definition sum (a : list double) : double :=
  add zero (pairwise_sum (length a) a).

(** [s.mean()]: the sum of the column, NaN cells counted as [0.0], over the
    number of non-NaN cells; NaN when there is none. *)
Definition mean (s : Series) : double :=
  match dropna s with
  | [] => NaN
  | l => div (sum (fillna s zero)) (of_Z (Z.of_nat (length l)))
  end.

(** A frame whose columns hold doubles. *)
Record DataFrame : Type := mkDataFrame {
  time : list Z;
  columns : list (string * Series)
}.

Fixpoint lookup (k : string) (cs : list (string * Series)) : option Series :=
  match cs with
  | [] => None
  | (k', s) :: cs' => if String.eqb k k' then Some s else lookup k cs'
  end.

Fixpoint assign (k : string) (s : Series) (cs : list (string * Series))
  : list (string * Series) :=
  match cs with
  | [] => [(k, s)]
  | (k', s') :: cs' =>
      if String.eqb k k' then (k', s) :: cs' else (k', s') :: assign k s cs'
  end.

Inductive exn : Type :=
| KeyError (k : string).

Inductive outcome (A : Type) : Type :=
| Returned (a : A)
| Raised (e : exn).
Arguments Returned {A} a.
Arguments Raised {A} e.

Definition M (A : Type) : Type := DataFrame -> DataFrame * outcome A.

Definition ret {A} (a : A) : M A := fun df => (df, Returned a).

Definition bind {A B} (c : M A) (k : A -> M B) : M B :=
  fun df =>
    match c df with
    | (df', Returned a) => k a df'
    | (df', Raised e) => (df', Raised e)
    end.

(** [df[k]] *)
Definition getitem (k : string) : M Series :=
  fun df =>
    match lookup k (columns df) with
    | Some s => (df, Returned s)
    | None => (df, Raised (KeyError k))
    end.

(** [df[k] = s] *)
Definition setitem (k : string) (s : Series) : M unit :=
  fun df => (mkDataFrame (time df) (assign k s (columns df)), Returned tt).

Declare Scope ieee_scope.
Delimit Scope ieee_scope with ieee.
Notation "x <- c ;; k" := (bind c (fun x => k))
  (at level 61, c at next level, right associativity) : ieee_scope.
Notation "c ;; k" := (bind c (fun _ => k))
  (at level 61, right associativity) : ieee_scope.

(** bitwalk_pressure_ui_chat_20250622_v03.py *)

Module V03.

(** Lines 53-56. *)
Definition compute_bitwalk_index : M double :=
  (p <- getitem "pressure" ;;
   setitem "diff" (abs (diff p)) ;;
   p' <- getitem "pressure" ;;
   setitem "dpdt" (diff p') ;;
   d <- getitem "diff" ;;
   d' <- getitem "diff" ;;
   ret (round (div (add (max d) (mean d')) (of_Z 2)) 2))%ieee.

(** Lines 99-104. *)
Definition tier (index : double) : Tier :=
  if lt index (decimal 5 1) then STABLE
  else if lt index (decimal 15 1) then MODERATE
  else HIGH.

End V03.

(** bitwalk_pressure_ui_chat_20250623_v04.py *)

Module V04.

(** Lines 56-59. *)
Definition compute_bitwalk_index : M double :=
  (p <- getitem "pressure" ;;
   setitem "diff" (abs (diff p)) ;;
   p' <- getitem "pressure" ;;
   setitem "dpdt" (diff p') ;;
   d <- getitem "diff" ;;
   d' <- getitem "diff" ;;
   ret (round (div (add (max d) (mean d')) (of_Z 2)) 2))%ieee.

(** Lines 117-122. *)
Definition tier (index : double) : Tier :=
  if lt index (decimal 5 1) then STABLE
  else if lt index (decimal 15 1) then MODERATE
  else HIGH.

End V04.

Definition frame_of (ts : list Z) (ps : Series) : DataFrame :=
  mkDataFrame ts [("pressure", ps)].

(** The expression returned on line 56 (v03) / 59 (v04), as a function of
    the ['pressure'] column read on the way. *)
Definition index_expr (p : Series) : double :=
  round (div (add (max (abs (diff p))) (mean (abs (diff p)))) (of_Z 2)) 2.

(** The columns of the caller's frame after the two assignments. *)
Definition columns_after (p : Series) (cs : list (string * Series))
  : list (string * Series) :=
  assign "dpdt" (diff p) (assign "diff" (abs (diff p)) cs).

(** *** The specification's vocabulary, on doubles *)

(** [d[i] = |pressure[i] - pressure[i-1]|] for [i = 1..n-1], each
    subtraction rounded to a double. *)
Definition d (pressure : list double) : list double :=
  map (fun i => fabs (sub (nth i pressure NaN) (nth (i - 1) pressure NaN)))
      (seq 1 (length pressure - 1)).

(** [m] is the maximum of [l]: a member that no member exceeds. *)
Definition is_max (m : double) (l : list double) : Prop :=
  In m l /\ forall x, In x l -> lt m x = false.

(** [r] is [x] rounded to a whole number, halves to the even neighbour.  A
    double with a negative exponent is [m / 2^k] for an integer [m]: then [r]
    is the integer [z] with [|z - m / 2^k| <= 1/2], the even one of the two
    when the distance is [1/2] (and a zero [r] has the sign of [x]).  Any
    other double is its own rounding.  Stated with integers only:
    [|z * 2^k - m| <= 2^k / 2]. *)
Definition is_rint (x r : double) : Prop :=
  match x with
  | S754_finite s m (Zneg k) =>
      exists z : Z,
        let err := (2 * Z.abs (z * 2 ^ Zpos k - cond_Zopp s (Zpos m)))%Z in
        (err <= 2 ^ Zpos k)%Z /\
        (err = 2 ^ Zpos k -> Z.even z = true)%Z /\
        r = if (z =? 0)%Z then S754_zero s else of_Z z
  | _ => r = x
  end.

(** [x * 2^j] with nothing rounded: the same digits, the exponent moved by
    [j]. *)
Definition scale2 (j : Z) (x : double) : double :=
  match x with
  | S754_finite s m e => S754_finite s m (e + j)
  | _ => x
  end.

(** *** Doubles away from underflow and overflow *)

(** A positive normal double: a mantissa of 53 digits and an exponent
    from [lo] to [hi]; its value is [m * 2^e]. *)
Definition normal (lo hi : Z) (x : double) : Prop :=
  exists m e, x = S754_finite false m e /\
              Zdigits2 (Zpos m) = 53%Z /\ (lo <= e <= hi)%Z.

(** [+0.0], or a positive normal double in the window. *)
Definition steady (lo hi : Z) (x : double) : Prop :=
  x = zero \/ normal lo hi x.

(** [x] is steady with room for [k] more additions below [top]: each
    addition can raise the exponent by at most two. *)
Definition room (lo top : Z) (k : nat) (x : double) : Prop :=
  steady lo (top - 2 * Z.of_nat k) x.

(** [r] is a zero or a double whose exponent, moved by [j], stays within
    the format. *)
Definition in_range (j : Z) (r : double) : Prop :=
  match r with
  | S754_finite _ _ e => (e + j <= 971)%Z
  | S754_zero _ => True
  | _ => False
  end.


(** A difference that is [+0.0] or a positive normal double from [2^-848]
    up to [2^53]: far from underflow and overflow, as every difference of
    two pressure readings is. *)
Definition moderate (x : double) : bool :=
  match x with
  | S754_zero false => true
  | S754_finite false m e =>
      (Zdigits2 (Zpos m) =? 53)%Z && (-900 <=? e)%Z && (e <=? 0)%Z
  | _ => false
  end.

(** A column of readings given with one decimal, as the weather service
    sends them: [tenths [10003; 10002]] is [[1000.3; 1000.2]]. *)
Definition tenths (l : list Z) : Series := map (fun m => decimal m 1) l.

End IEEE.

(** ** The same pipeline on the machine's doubles

    Used to replay the concrete series with the rounding errors of the real
    arithmetic.  The sum is taken left to right, which is numpy's order for
    fewer than 8 cells, and [rint] is the usual [2^52] shift, exact for
    [0 <= x < 2^52]. *)

Module Binary64.

Import PrimFloat.
#[local] Set Warnings "-inexact-float".

Fixpoint diff_from (prev : float) (s : list float) : list float :=
  match s with
  | [] => []
  | x :: s' => sub x prev :: diff_from x s'
  end.

Definition diff (s : list float) : list float := diff_from nan s.

Definition abs (s : list float) : list float := map PrimFloat.abs s.

Definition dropna (s : list float) : list float :=
  filter (fun x => negb (is_nan x)) s.

Definition max (s : list float) : float :=
  match dropna s with
  | [] => nan
  | x :: l => fold_left (fun a b => if ltb a b then b else a) l x
  end.

Definition mean (s : list float) : float :=
  match dropna s with
  | [] => nan
  | l => div (fold_left add l 0%float)
             (fold_left (fun c _ => add c 1%float) l 0%float)
  end.

Definition rint (x : float) : float :=
  sub (add x 0x1p52%float) 0x1p52%float.

Definition round2 (x : float) : float :=
  div (rint (mul x 100%float)) 100%float.

Definition index_expr (p : list float) : float :=
  round2 (div (add (max (abs (diff p))) (mean (abs (diff p)))) 2%float).

Definition tier (index : float) : Tier :=
  if ltb index 0.5%float then STABLE
  else if ltb index 1.5%float then MODERATE
  else HIGH.

Definition example_pressure : list float :=
  [1000; 1000.2; 999.8; 1001]%float.

End Binary64.

(** ** The specification's vocabulary *)

Module Spec.

(** [d[i] = |pressure[i] - pressure[i-1]|] for [i = 1..n-1]. *)
Definition d (pressure : list Q) : list Q :=
  map (fun i => Qabs (nth i pressure 0 - nth (i - 1) pressure 0))
      (seq 1 (length pressure - 1)).

(** [m] is the maximum of [l]: a member that bounds every member. *)
Definition is_max (m : Q) (l : list Q) : Prop :=
  In m l /\ forall x, In x l -> x <= m.

Definition sum (l : list Q) : Q := fold_right Qplus 0 l.

Definition mean (l : list Q) : Q := sum l / inject_Z (Z.of_nat (length l)).

(** [maxDiff = max(d)], computed. *)
Definition maxDiff (d : list Q) : Q :=
  match d with
  | [] => 0
  | x :: d' => fold_right Qmax x d'
  end.

(** [meanDiff = mean(d)]. *)
Definition meanDiff (d : list Q) : Q := mean d.

(** [(maxDiff + meanDiff) / 2], before rounding. *)
Definition unrounded (pressure : list Q) : Q :=
  (maxDiff (d pressure) + meanDiff (d pressure)) / 2.

(** [index = round((maxDiff + meanDiff) / 2, 2 decimal places)]. *)
Definition index (pressure : list Q) : Q :=
  round_q 2 (unrounded pressure).

(** [x < y] and [x <= y] on indices; neither holds of NaN. *)
Definition lt (x y : float64) : Prop :=
  match x, y with
  | Some a, Some b => a < b
  | _, _ => False
  end.

Definition le (x y : float64) : Prop :=
  match x, y with
  | Some a, Some b => a <= b
  | _, _ => False
  end.

(** Every difference of the second series is [k] times the matching
    difference of the first. *)
Definition scaled (k : Q) (d d' : list Q) : Prop :=
  Forall2 (fun a b => b == k * a) d d'.

(** Timestamps in chronological (non-decreasing) order. *)
Fixpoint nondecreasing (ts : list Z) : bool :=
  match ts with
  | [] => true
  | t :: ts' =>
      match ts' with
      | [] => true
      | t' :: _ => (t <=? t')%Z && nondecreasing ts'
      end
  end.

End Spec.

(** ** Series without missing cells *)

(** [|x - prev|] along a list of numbers, starting after [prev]. *)
Fixpoint deltas_from (prev : Q) (ps : list Q) : list Q :=
  match ps with
  | [] => []
  | x :: ps' => Qabs (x - prev) :: deltas_from x ps'
  end.

Definition deltas (ps : list Q) : list Q :=
  match ps with
  | [] => []
  | x :: ps' => deltas_from x ps'
  end.

(** A call raises when its outcome is an exception. *)
Definition raises {A} (r : DataFrame * outcome A) : Prop :=
  exists e, snd r = Raised e.

(** ** Concrete series *)

Definition hourly (n : nat) : list Z :=
  map (fun i => (3600 * Z.of_nat i)%Z) (seq 0 n).

Definition example_pressure : list Q := [1000; 1000.2; 999.8; 1001.0].

Definition example_frame : DataFrame :=
  frame_of (hourly 4) (map num example_pressure).


Definition unordered_frame : DataFrame :=
  frame_of [7200; 3600; 0]%Z [num 1000; num 1001; num 1000].

Definition quarter_step : list Q := [1000; 1000.25].
Definition sixteenth_step : list Q := [1000; 1000.0625].

Definition constant_pressure : list Q := [1013.2; 1013.2; 1013.2].

(** The same series as columns of doubles. *)
Definition example_doubles : IEEE.Series :=
  IEEE.tenths [10000; 10002; 9998; 10010]%Z.


Definition quarter_step_doubles : IEEE.Series :=
  [IEEE.decimal 1000 0; IEEE.decimal 100025 2].

Definition sixteenth_step_doubles : IEEE.Series :=
  [IEEE.decimal 1000 0; IEEE.decimal 10000625 4].

Definition constant_doubles : IEEE.Series :=
  IEEE.tenths [10132; 10132; 10132]%Z.

Definition single_sample_doubles : IEEE.Series := [IEEE.decimal 1000 0].

(** Series whose half-sum of maximum and mean is, in exact arithmetic,
    halfway between two hundredths: [0.075] for the first two, [0.495] for
    the third (eleven readings, one rise of [0.9]). *)
Definition falling_from_1000_3 : IEEE.Series :=
  IEEE.tenths [10003; 10002; 10002]%Z.

Definition falling_from_1000_1 : IEEE.Series :=
  IEEE.tenths [10001; 10000; 10000]%Z.

Definition one_rise : IEEE.Series :=
  IEEE.tenths [10000; 10009; 10009; 10009; 10009; 10009;
               10009; 10009; 10009; 10009; 10009]%Z.

(** ** More of the script: series helpers *)

(** [s.tail(n)]: the last [n] rows, all of them when there are fewer. *)
Definition tail (n : nat) (s : Series) : Series :=
  skipn (length s - n) s.

(** [s.round(ndigits)]: every cell rounded, NaN cells stay NaN. *)
Definition round_series (s : Series) (ndigits : nat) : Series :=
  map (fun x => round x ndigits) s.

(** [df['pressure'].tail(12).round(1).tolist()], lines 120 (v03) and
    133, 141 (v04). *)
Definition pressure_wave : M (list float64) :=
  (p <- getitem "pressure" ;;
   ret (round_series (tail 12 p) 1))%frame.

(** Every column has as many rows as the ['time'] column. *)
Definition rectangular (df : DataFrame) : Prop :=
  Forall (fun c => length (snd c) = length (time df)) (columns df).

(** A reading is missing between two others. *)
Definition gap_frame : DataFrame :=
  frame_of (hourly 3) [num 1000; NaN; num 1001].

(** Two consecutive rows of the column both hold a number. *)
Definition adjacent_numbers (p : Series) : Prop :=
  exists i a b,
    nth_error p i = Some (num a) /\ nth_error p (S i) = Some (num b).

(** The operand of [round] on the return line: [(max + mean) / 2] of the
    ['diff'] column, before rounding. *)
Definition unrounded_expr (p : Series) : float64 :=
  fdiv (fadd (max (abs (diff p))) (mean (abs (diff p)))) 2.

(** ** The script around the index

    The rest of the two files: [get_coordinates], [fetch_pressure_data],
    [generate_gpt_advice], [post_to_mastodon] (v04) and the top-level script.
    One run of the script is a list of the calls it makes, in order: the
    Streamlit calls and the requests to the outside.  What the outside
    answers ([world]) and what the widgets hold ([session]) are inputs.
    Texts the script shows are kept as the data they are formatted from.
    The decoded replies are typed as the script uses them: a place has the
    strings ['lat'] and ['lon'], a forecast has the hourly times and a
    float64 column of pressures (so at least one reading is a number);
    anything that makes Python raise instead is a reply that [Fails]. *)

Module App.

(** A Python exception, with the text [str(e)] it prints as, or one raised
    while working on the frame. *)
Inductive pyexn : Type :=
| Exception (what : string)
| FrameError (e : exn).

Inductive reply (A : Type) : Type :=
| Ok (a : A)
| Fails (e : pyexn).
Arguments Ok {A} a.
Arguments Fails {A} e.

(** [None] or a float. *)
Inductive pyval : Type :=
| PyNone
| PyFloat (x : float64).

(** Truth value of [None] or a float: [None] and zero are false, NaN is
    true. *)
Definition truthy (v : pyval) : bool :=
  match v with
  | PyNone => false
  | PyFloat None => true
  | PyFloat (Some q) => negb (Qeq_bool q 0)
  end.

Record place : Type := mkPlace { lat : string; lon : string }.

Record response : Type := mkResponse {
  status_code : Z;
  json : reply (list place)
}.

Record query : Type := mkQuery {
  latitude : pyval;
  longitude : pyval;
  start_date : Z;
  end_date : Z
}.

Record forecast : Type := mkForecast {
  hourly_time : list Z;
  hourly_pressure_msl : Series
}.

(** What [generate_gpt_advice] formats into its prompt.  [user_question] is
    [None] where the prompt says there is none. *)
Record prompt : Type := mkPrompt {
  prompt_location : string;
  prompt_date_range : option Z * option Z;
  prompt_pressure_wave : list float64;
  prompt_index : float64;
  prompt_user_question : option string
}.

Record world : Type := mkWorld {
  http_get : string -> reply response;
  parse_float : string -> reply float64;
  open_meteo : query -> reply forecast;
  chat : prompt -> reply string;
  strip : string -> string;
  mastodon_login : reply unit;
  toot : string -> reply unit;
  now : Z
}.

Record session : Type := mkSession {
  location : string;
  show_days : Z;
  user_input : string;
  advice_clicked : bool;
  toot_text : string;
  toot_clicked : bool
}.

(** What [generate_gpt_advice] returns: the stripped answer, or the error
    line made from the exception. *)
Inductive advice : Type :=
| Advice (text : string)
| AdviceError (e : pyexn).

(** What [post_to_mastodon] returns. *)
Inductive posting : Type :=
| Posted
| PostFailed (e : pyexn).

Inductive message : Type :=
| place_line (location : string) (lat lon : pyval)
| geocode_failed
| geocode_exception (e : pyexn)
| stable_text
| moderate_text
| high_text
| not_found
| coming_soon
| gpt_words_heading
| advice_text (a : advice)
| chat_answer (a : advice)
| posting_text (r : posting)
| footer.

Inductive heading : Type := chat_heading | advice_heading | mastodon_heading.

Inductive event : Type :=
| set_page_config
| sidebar_title
| sidebar_text_input
| sidebar_selectbox
| title
| write (m : message)
| error (m : message)
| success (m : message)
| info (m : message)
| warning (m : message)
| markdown (m : message)
| metric (value : float64)
| plotly_chart (df : DataFrame) (days : Z)
| download_button (data : DataFrame) (file_name : string)
| subheader (h : heading)
| text_input_chat
| button_advice
| text_area_toot
| button_toot
| request_nominatim (url : string)
| request_open_meteo (q : query)
| request_chat (p : prompt)
| request_toot (status : string).

(** A piece of the script: the calls it made, and how it ended. *)
Definition Run (A : Type) : Type := list event * reply A.

Definition ret {A} (a : A) : Run A := ([], Ok a).

Definition bind {A B} (c : Run A) (k : A -> Run B) : Run B :=
  match c with
  | (l, Ok a) => let (l', r) := k a in ((l ++ l')%list, r)
  | (l, Fails e) => (l, Fails e)
  end.

Definition emit (e : event) : Run unit := ([e], Ok tt).

Definition raise {A} (e : pyexn) : Run A := ([], Fails e).

Definition lift {A} (r : reply A) : Run A := ([], r).

(** [try: body except Exception as e: handler(e)] *)
Definition try_except {A} (body : Run A) (handler : pyexn -> Run A) : Run A :=
  match body with
  | (l, Ok a) => (l, Ok a)
  | (l, Fails e) => let (l', r) := handler e in ((l ++ l')%list, r)
  end.

(** A call on the frame; the frame it leaves is the one later lines see. *)
Definition on_frame {A} (c : M A) (df : DataFrame) : Run (DataFrame * A) :=
  match c df with
  | (df', Returned a) => ret (df', a)
  | (_, Raised e) => raise (FrameError e)
  end.

End App.

Declare Scope run_scope.
Delimit Scope run_scope with run.
Notation "x <- c ;; k" := (App.bind c (fun x => k))
  (at level 61, c at next level, right associativity) : run_scope.
Notation "c ;; k" := (App.bind c (fun _ => k))
  (at level 61, right associativity) : run_scope.

Module Common.

Import App.

(** [s.replace(' ', '_')] *)
Fixpoint replace_spaces (s : string) : string :=
  match s with
  | EmptyString => EmptyString
  | String c s' =>
      String (if Ascii.eqb c " "%char then "_"%char else c) (replace_spaces s')
  end.

(** [f"bitwalk_{location.replace(' ', '_')}.csv"] *)
Definition csv_file_name (location : string) : string :=
  "bitwalk_" ++ replace_spaces location ++ ".csv".

(** [f"https://nominatim.openstreetmap.org/search?q={place}&format=json"] *)
Definition nominatim_url (place : string) : string :=
  "https://nominatim.openstreetmap.org/search?q=" ++ place ++ "&format=json".

(** v03 lines 23-35, v04 lines 26-38. *)
Definition get_coordinates (w : world) (place : string) : Run (pyval * pyval) :=
  (returned <-
     try_except
       (emit (request_nominatim (nominatim_url place)) ;;
        r <- lift (http_get w (nominatim_url place)) ;;
        found <-
          (if (status_code r =? 200)%Z then
             j <- lift (json r) ;;
             match j with
             | first :: _ =>
                 la <- lift (parse_float w (lat first)) ;;
                 lo <- lift (parse_float w (lon first)) ;;
                 ret (Some (PyFloat la, PyFloat lo))
             | [] => ret None
             end
           else ret None) ;;
        match found with
        | Some coords => ret (Some coords)
        | None => emit (error geocode_failed) ;; ret None
        end)
       (fun e => emit (error (geocode_exception e)) ;; ret None) ;;
   match returned with
   | Some coords => ret coords
   | None => ret (PyNone, PyNone)
   end)%run.

(** The UTC date of a time in seconds, as a day number. *)
Definition date (t : Z) : Z := (t / 86400)%Z.

(** [datetime.timedelta(days=n)] in seconds. *)
Definition days (n : Z) : Z := (86400 * n)%Z.

(** v03 lines 38-50, v04 lines 41-53.  [show_days] is the sidebar choice. *)
Definition fetch_pressure_data (w : world) (show_days : Z) (la lo : pyval)
  : Run DataFrame :=
  (let start := (now w - days show_days)%Z in
   let end_ := (now w + days 3)%Z in
   let q := mkQuery la lo (date start) (date end_) in
   emit (request_open_meteo q) ;;
   j <- lift (open_meteo w q) ;;
   if (length (hourly_time j) =? length (hourly_pressure_msl j))%nat
   then ret (frame_of (hourly_time j) (hourly_pressure_msl j))
   else raise (Exception "All arrays must be of the same length"))%run.

Definition minimum (ts : list Z) : option Z :=
  match ts with
  | [] => None
  | t :: ts' => Some (fold_left Z.min ts' t)
  end.

Definition maximum (ts : list Z) : option Z :=
  match ts with
  | [] => None
  | t :: ts' => Some (fold_left Z.max ts' t)
  end.

(** [f"{df['time'].min().date()} to {df['time'].max().date()}"]; [None] is
    the NaT of an empty column. *)
Definition date_range (df : DataFrame) : option Z * option Z :=
  (option_map date (minimum (time df)), option_map date (maximum (time df))).

(** The banner of lines 99-104 (v03) and 117-122 (v04). *)
Definition banner (t : Tier) : event :=
  match t with
  | STABLE => success stable_text
  | MODERATE => info moderate_text
  | HIGH => warning high_text
  end.

(** Lines 12-20 (v03), 13-23 (v04): page set-up and the sidebar. *)
Definition sidebar : Run unit :=
  (emit set_page_config ;;
   emit sidebar_title ;;
   emit sidebar_text_input ;;
   emit sidebar_selectbox)%run.

End Common.

(** Truth value of a string: false when empty. *)
Definition nonempty (s : string) : bool := negb (String.eqb s "").

(** ** The script of bitwalk_pressure_ui_chat_20250622_v03.py *)

Module App03.

Import App Common.

(** Lines 59-81. *)
Definition generate_gpt_advice (w : world) (location : string)
    (pressure_wave : list float64) (bitwalk_index : float64)
    (date_range : option Z * option Z) : Run advice :=
  (let p := mkPrompt location date_range pressure_wave bitwalk_index None in
   try_except
     (emit (request_chat p) ;;
      content <- lift (chat w p) ;;
      ret (Advice (strip w content)))
     (fun e => ret (AdviceError e)))%run.

(** Lines 12-20 and 84-131: one run of the script. *)
Definition main (w : world) (s : session) : Run unit :=
  (sidebar ;;
   emit title ;;
   c <- get_coordinates w (location s) ;;
   (if truthy (fst c) && truthy (snd c) then
      emit (write (place_line (location s) (fst c) (snd c))) ;;
      df0 <- fetch_pressure_data w (show_days s) (fst c) (snd c) ;;
      r <- on_frame V03.compute_bitwalk_index df0 ;;
      let df := fst r in
      let index := snd r in
      emit (metric index) ;;
      emit (plotly_chart df (show_days s)) ;;
      emit (banner (V03.tier index)) ;;
      emit (download_button df (csv_file_name (location s))) ;;
      emit (subheader chat_heading) ;;
      emit text_input_chat ;;
      (if nonempty (user_input s) then emit (write coming_soon) else ret tt) ;;
      emit (subheader advice_heading) ;;
      emit button_advice ;;
      (if advice_clicked s then
         wave <- on_frame pressure_wave df ;;
         a <- generate_gpt_advice w (location s) (snd wave) index
                (date_range df) ;;
         emit (markdown gpt_words_heading) ;;
         emit (write (advice_text a))
       else ret tt)
    else emit (error not_found)) ;;
   emit (markdown footer))%run.

End App03.

(** ** The script of bitwalk_pressure_ui_chat_20250623_v04.py

    Lines 16-18 build the API client before anything is shown; the run below
    starts after them, with the key configured. *)

Module App04.

Import App Common.

(** Lines 62-85.  An empty or absent question is replaced by a fixed
    text. *)
Definition generate_gpt_advice (w : world) (location : string)
    (pressure_wave : list float64) (bitwalk_index : float64)
    (date_range : option Z * option Z) (user_question : option string)
  : Run advice :=
  (let question :=
     match user_question with
     | Some q => if nonempty q then Some q else None
     | None => None
     end in
   let p := mkPrompt location date_range pressure_wave bitwalk_index question in
   try_except
     (emit (request_chat p) ;;
      content <- lift (chat w p) ;;
      ret (Advice (strip w content)))
     (fun e => ret (AdviceError e)))%run.

(** Lines 89-98. *)
Definition post_to_mastodon (w : world) (message : string) : Run posting :=
  (try_except
     (lift (mastodon_login w) ;;
      emit (request_toot message) ;;
      lift (toot w message) ;;
      ret Posted)
     (fun e => ret (PostFailed e)))%run.

(** Lines 13-23 and 102-160: one run of the script. *)
Definition main (w : world) (s : session) : Run unit :=
  (sidebar ;;
   emit title ;;
   c <- get_coordinates w (location s) ;;
   (if truthy (fst c) && truthy (snd c) then
      emit (write (place_line (location s) (fst c) (snd c))) ;;
      df0 <- fetch_pressure_data w (show_days s) (fst c) (snd c) ;;
      r <- on_frame V04.compute_bitwalk_index df0 ;;
      let df := fst r in
      let index := snd r in
      emit (metric index) ;;
      emit (plotly_chart df (show_days s)) ;;
      emit (banner (V04.tier index)) ;;
      emit (download_button df (csv_file_name (location s))) ;;
      emit (subheader chat_heading) ;;
      emit text_input_chat ;;
      (if nonempty (user_input s) then
         wave <- on_frame pressure_wave df ;;
         a <- generate_gpt_advice w (location s) (snd wave) index
                (date_range df) (Some (user_input s)) ;;
         emit (write (chat_answer a))
       else ret tt) ;;
      emit (subheader advice_heading) ;;
      emit button_advice ;;
      (if advice_clicked s then
         wave <- on_frame pressure_wave df ;;
         a <- generate_gpt_advice w (location s) (snd wave) index
                (date_range df) None ;;
         emit (markdown gpt_words_heading) ;;
         emit (write (advice_text a))
       else ret tt)
    else
      emit (error not_found) ;;
      emit (subheader mastodon_heading)) ;;
   emit text_area_toot ;;
   emit button_toot ;;
   (if toot_clicked s then
      r <- post_to_mastodon w (toot_text s) ;;
      emit (success (posting_text r))
    else ret tt) ;;
   emit (markdown footer))%run.

End App04.

(** How many of the calls of a run satisfy a test. *)
Definition count (f : App.event -> bool) (l : list App.event) : nat :=
  length (filter f l).

Definition is_weather_request (e : App.event) : bool :=
  match e with App.request_open_meteo _ => true | _ => false end.

Definition is_chat_request (e : App.event) : bool :=
  match e with App.request_chat _ => true | _ => false end.

Definition is_toot_request (e : App.event) : bool :=
  match e with App.request_toot _ => true | _ => false end.

Definition is_metric (e : App.event) : bool :=
  match e with App.metric _ => true | _ => false end.

Definition is_banner (e : App.event) : bool :=
  match e with
  | App.success App.stable_text
  | App.info App.moderate_text
  | App.warning App.high_text => true
  | _ => false
  end.

Definition is_error (e : App.event) : bool :=
  match e with App.error _ => true | _ => false end.

Definition is_footer (e : App.event) : bool :=
  match e with App.markdown App.footer => true | _ => false end.

(** ** Vocabulary for the runs *)

(** What every run starts with. *)
Definition preamble : list App.event :=
  [App.set_page_config; App.sidebar_title; App.sidebar_text_input;
   App.sidebar_selectbox; App.title].

(** The weather request a run makes for given coordinates. *)
Definition weather_query (w : App.world) (s : App.session)
    (la lo : App.pyval) : App.query :=
  App.mkQuery la lo
    (Common.date (App.now w - Common.days (App.show_days s)))
    (Common.date (App.now w + Common.days 3)).

(** The frame the run shows and exports for a forecast: the fetched frame
    after [compute_bitwalk_index]. *)
Definition shown_frame (f : App.forecast) : DataFrame :=
  mkDataFrame (App.hourly_time f)
    (columns_after (App.hourly_pressure_msl f)
       [("pressure", App.hourly_pressure_msl f)]).

(** The prompt a run builds for a forecast. *)
Definition prompt_for (s : App.session) (f : App.forecast)
    (question : option string) : App.prompt :=
  App.mkPrompt (App.location s)
    (Common.date_range (shown_frame f))
    (round_series (tail 12 (App.hourly_pressure_msl f)) 1)
    (index_expr (App.hourly_pressure_msl f))
    question.

(** What [generate_gpt_advice] returns for a prompt. *)
Definition answer (w : App.world) (p : App.prompt) : App.advice :=
  match App.chat w p with
  | App.Ok content => App.Advice (App.strip w content)
  | App.Fails e => App.AdviceError e
  end.

(** What [post_to_mastodon] returns and the calls it makes. *)
Definition posting_of (w : App.world) (message : string) : App.posting :=
  match App.mastodon_login w with
  | App.Fails e => App.PostFailed e
  | App.Ok _ =>
      match App.toot w message with
      | App.Ok _ => App.Posted
      | App.Fails e => App.PostFailed e
      end
  end.

(** The calls both scripts make between the coordinates and the chat
    box, once the frame is there. *)
Definition shown_after_fetch (w : App.world) (s : App.session)
    (la lo : App.pyval) (f : App.forecast) : list App.event :=
  [App.write (App.place_line (App.location s) la lo);
   App.request_open_meteo (weather_query w s la lo);
   App.metric (index_expr (App.hourly_pressure_msl f));
   App.plotly_chart (shown_frame f) (App.show_days s);
   Common.banner (V03.tier (index_expr (App.hourly_pressure_msl f)));
   App.download_button (shown_frame f) (Common.csv_file_name (App.location s));
   App.subheader App.chat_heading;
   App.text_input_chat].

(** [None], or a float equal to zero. *)
Definition falsy (v : App.pyval) : Prop :=
  v = App.PyNone \/ exists q, v = App.PyFloat (num q) /\ q == 0.

(** The calls [get_coordinates] can make. *)
Definition geocoding_event (e : App.event) : bool :=
  match e with
  | App.request_nominatim _ | App.error _ => true
  | _ => false
  end.

(** ** Worlds and sessions to run the scripts on *)

(** A geocoder that puts every place at latitude [0.0], longitude [51.5],
    a weather service with three hourly readings, a chat service that is
    down and a Mastodon server that rejects the post. *)
Definition equator_world : App.world :=
  App.mkWorld
    (fun _ => App.Ok (App.mkResponse 200 (App.Ok [App.mkPlace "0.0" "51.5"])))
    (fun t => if String.eqb t "0.0" then App.Ok (num 0)
              else App.Ok (num 51.5))
    (fun _ => App.Ok (App.mkForecast [0; 3600; 7200]%Z
                        [num 1000; num 1001; num 1000]))
    (fun _ => App.Fails (App.Exception "rate limit"))
    (fun t => t)
    (App.Ok tt)
    (fun _ => App.Fails (App.Exception "forbidden"))
    1750000000.

(** The same, with the geocoder answering latitude [34.9], longitude
    [135.8]. *)
Definition uji_world : App.world :=
  App.mkWorld
    (fun _ => App.Ok (App.mkResponse 200 (App.Ok [App.mkPlace "34.9" "135.8"])))
    (fun t => if String.eqb t "34.9" then App.Ok (num 34.9)
              else App.Ok (num 135.8))
    (App.open_meteo equator_world)
    (App.chat equator_world)
    (App.strip equator_world)
    (App.mastodon_login equator_world)
    (App.toot equator_world)
    (App.now equator_world).

(** The same, with a weather service that does not answer. *)
Definition offline_world : App.world :=
  App.mkWorld
    (App.http_get uji_world)
    (App.parse_float uji_world)
    (fun _ => App.Fails (App.Exception "connection refused"))
    (App.chat uji_world)
    (App.strip uji_world)
    (App.mastodon_login uji_world)
    (App.toot uji_world)
    (App.now uji_world).

(** Everything typed and every button pressed. *)
Definition busy_session : App.session :=
  App.mkSession "Uji, Kyoto" 3 "headache?" true "hello #bitwalk" true.

Definition is_mastodon_heading (e : App.event) : bool :=
  match e with App.subheader App.mastodon_heading => true | _ => false end.

Definition is_toot_widget (e : App.event) : bool :=
  match e with App.text_area_toot | App.button_toot => true | _ => false end.

(** ** Frames: reading a column after an assignment *)

Lemma lookup_assign_same k s cs : lookup k (assign k s cs) = Some s.
Proof.
  induction cs as [|[k' s'] cs IH]; simpl.
  - now rewrite String.eqb_refl.
  - destruct (String.eqb k k') eqn:E; simpl; rewrite E; auto.
Qed.

Lemma lookup_assign_other k k' s cs :
  k <> k' -> lookup k (assign k' s cs) = lookup k cs.
Proof.
  intros Hne. induction cs as [|[k0 s0] cs IH]; simpl.
  - apply String.eqb_neq in Hne. now rewrite Hne.
  - destruct (String.eqb k' k0) eqn:E; simpl.
    + apply String.eqb_eq in E. subst k0.
      apply String.eqb_neq in Hne. now rewrite Hne.
    + now rewrite IH.
Qed.

(** ** Running the function *)

Section Run.

Variable df : DataFrame.

Lemma V03_run p :
  lookup "pressure" (columns df) = Some p ->
  V03.compute_bitwalk_index df =
    (mkDataFrame (time df) (columns_after p (columns df)),
     Returned (index_expr p)).
Proof.
  intros Hp.
  unfold V03.compute_bitwalk_index, bind, getitem, setitem, ret; simpl.
  rewrite Hp; simpl.
  rewrite (lookup_assign_other "pressure" "diff") by discriminate.
  rewrite Hp; simpl.
  do 2 (rewrite (lookup_assign_other "diff" "dpdt") by discriminate;
        rewrite lookup_assign_same; simpl).
  reflexivity.
Qed.

Lemma V03_keyerror :
  lookup "pressure" (columns df) = None ->
  V03.compute_bitwalk_index df = (df, Raised (KeyError "pressure")).
Proof.
  intros Hp.
  unfold V03.compute_bitwalk_index, bind, getitem; simpl.
  now rewrite Hp.
Qed.

Lemma V04_same : V04.compute_bitwalk_index df = V03.compute_bitwalk_index df.
Proof. reflexivity. Qed.

End Run.

(** ** Rounding *)

Section Rounding.

Lemma rint_comp x y : x == y -> rint x = rint y.
Proof.
  intros H. unfold rint.
  rewrite (Qfloor_comp x y H).
  assert (E : x - inject_Z (Qfloor y) == y - inject_Z (Qfloor y))
    by (rewrite H; reflexivity).
  now rewrite (Qcompare_comp _ _ E (1 # 2) (1 # 2) (Qeq_refl _)).
Qed.

Lemma round_q_comp n x y : x == y -> round_q n x = round_q n y.
Proof.
  intros H. unfold round_q.
  apply Qred_complete.
  set (s := inject_Z (10 ^ Z.of_nat n)).
  assert (E : rint (x * s) = rint (y * s))
    by (apply rint_comp; rewrite H; reflexivity).
  rewrite E. reflexivity.
Qed.


Lemma rint_nonneg x : 0 <= x -> (0 <= rint x)%Z.
Proof.
  intros H. unfold rint.
  pose proof (Qfloor_resp_le 0 x H) as Hf.
  change (Qfloor 0) with 0%Z in Hf.
  destruct (Qcompare _ _); [destruct (Z.even _)| |]; lia.
Qed.

Lemma round2_value x : round_q 2 x == inject_Z (rint (x * 100)) / 100.
Proof. unfold round_q. apply Qred_correct. Qed.


Lemma round2_nonneg x : 0 <= x -> 0 <= round_q 2 x.
Proof.
  intros H. rewrite round2_value.
  assert (Hr : (0 <= rint (x * 100))%Z) by (apply rint_nonneg; lra).
  set (r := rint (x * 100)) in *.
  assert (E : inject_Z r / 100 == inject_Z r * (1 # 100)) by field.
  rewrite E.
  assert (0 <= inject_Z r) by (change 0 with (inject_Z 0); now rewrite <- Zle_Qle).
  lra.
Qed.

End Rounding.

(** ** Differences of a series without missing cells *)

Section Finite.

Lemma dropna_num l : dropna (map num l) = l.
Proof. induction l; simpl; congruence. Qed.

Lemma abs_diff_from_num prev ps :
  abs (diff_from (num prev) (map num ps)) = map num (deltas_from prev ps).
Proof.
  revert prev. induction ps as [|x ps IH]; intros prev; simpl.
  - reflexivity.
  - f_equal. apply IH.
Qed.

Lemma abs_diff_num x ps :
  abs (diff (map num (x :: ps))) = NaN :: map num (deltas_from x ps).
Proof.
  unfold diff; simpl. f_equal. apply abs_diff_from_num.
Qed.

Lemma dropna_abs_diff ps : dropna (abs (diff (map num ps))) = deltas ps.
Proof.
  destruct ps as [|x ps]; [reflexivity|].
  rewrite abs_diff_num. simpl. apply dropna_num.
Qed.

Lemma deltas_from_length prev ps : length (deltas_from prev ps) = length ps.
Proof. revert prev; induction ps; intros; simpl; auto. Qed.

Lemma deltas_length ps : length (deltas ps) = (length ps - 1)%nat.
Proof.
  destruct ps; simpl; [reflexivity|].
  rewrite deltas_from_length. lia.
Qed.

Lemma spec_d_from x ps :
  map (fun i => Qabs (nth i (x :: ps) 0 - nth (i - 1) (x :: ps) 0))
      (seq 1 (length ps)) = deltas_from x ps.
Proof.
  revert x. induction ps as [|y ps IH]; intros x; [reflexivity|].
  simpl length. simpl seq. simpl map at 1. simpl deltas_from.
  f_equal.
  rewrite <- (IH y), <- seq_shift, map_map.
  apply map_ext_in. intros i Hi. apply in_seq in Hi.
  destruct i as [|i]; [lia|]. simpl. now rewrite Nat.sub_0_r.
Qed.

(** The recursion computes the specification's [d]. *)
Lemma spec_d_deltas ps : Spec.d ps = deltas ps.
Proof.
  destruct ps as [|x ps]; [reflexivity|].
  unfold Spec.d. simpl length.
  replace (S (length ps) - 1)%nat with (length ps) by lia.
  apply spec_d_from.
Qed.

Lemma deltas_from_nonneg prev ps x : In x (deltas_from prev ps) -> 0 <= x.
Proof.
  revert prev. induction ps as [|y ps IH]; intros prev Hin.
  - destruct Hin.
  - cbn [deltas_from In] in Hin. destruct Hin as [E|Hin].
    + subst x. apply Qabs_nonneg.
    + eapply IH, Hin.
Qed.

Lemma deltas_nonneg ps x : In x (deltas ps) -> 0 <= x.
Proof.
  destruct ps; cbn [deltas]; [intros [] | apply deltas_from_nonneg].
Qed.

End Finite.

(** ** Maximum and sum *)

Section Aggregates.

Lemma fold_max_ge_acc l q : q <= fold_left Qmax l q.
Proof.
  revert q. induction l as [|x l IH]; intros q; simpl.
  - apply Qle_refl.
  - eapply Qle_trans; [apply Q.le_max_l | apply IH].
Qed.

Lemma Qmax_pick a b : Qmax a b = a \/ Qmax a b = b.
Proof.
  unfold Qmax, GenericMinMax.gmax. destruct (Qcompare a b); auto.
Qed.

Lemma fold_max_is_max l q : Spec.is_max (fold_left Qmax l q) (q :: l).
Proof.
  revert q. induction l as [|x l IH]; intros q.
  - split; [now left|]. intros y [<-|[]]. apply Qle_refl.
  - cbn [fold_left]. destruct (IH (Qmax q x)) as [Hin Hub]. split.
    + destruct Hin as [E|Hin]; [|right; now right].
      rewrite <- E.
      destruct (Qmax_pick q x) as [-> | ->]; [now left | right; now left].
    + intros y [<-|[<-|Hy]].
      * eapply Qle_trans; [apply Q.le_max_l | apply fold_max_ge_acc].
      * eapply Qle_trans; [apply Q.le_max_r | apply fold_max_ge_acc].
      * apply Hub. now right.
Qed.

(** Two maxima of the same list are equal as numbers. *)
Lemma is_max_unique m m' l : Spec.is_max m l -> Spec.is_max m' l -> m == m'.
Proof.
  intros [Hi Hu] [Hi' Hu']. apply Qle_antisym; auto.
Qed.

Lemma fold_right_max_is_max l q :
  Spec.is_max (fold_right Qmax q l) (q :: l).
Proof.
  induction l as [|x l [Hin Hub]].
  - split; [now left|]. intros y [<-|[]]. apply Qle_refl.
  - cbn [fold_right]. split.
    + destruct (Qmax_pick x (fold_right Qmax q l)) as [-> | ->].
      * right; now left.
      * destruct Hin as [E|Hin]; [now left | right; now right].
    + intros y [<-|[<-|Hy]].
      * eapply Qle_trans; [apply Hub; now left | apply Q.le_max_r].
      * apply Q.le_max_l.
      * eapply Qle_trans; [apply Hub; now right | apply Q.le_max_r].
Qed.

Lemma maxDiff_is_max l : l <> [] -> Spec.is_max (Spec.maxDiff l) l.
Proof.
  destruct l as [|x l]; [congruence|]. intros _.
  apply fold_right_max_is_max.
Qed.

Lemma fold_plus_acc l a : fold_left Qplus l a == a + Spec.sum l.
Proof.
  revert a. induction l as [|x l IH]; intros a; cbn [fold_left Spec.sum fold_right].
  - ring.
  - rewrite IH. unfold Spec.sum. ring.
Qed.

Lemma Qsum_spec l : Qsum l == Spec.sum l.
Proof. unfold Qsum. rewrite fold_plus_acc. ring. Qed.

Lemma sum_nonneg l : (forall x, In x l -> 0 <= x) -> 0 <= Spec.sum l.
Proof.
  induction l as [|x l IH]; intros H; cbn [Spec.sum fold_right].
  - apply Qle_refl.
  - assert (0 <= x) by (apply H; now left).
    assert (0 <= Spec.sum l) by (apply IH; intros; apply H; now right).
    unfold Spec.sum in *. lra.
Qed.

Lemma sum_zero l : (forall x, In x l -> x == 0) -> Spec.sum l == 0.
Proof.
  induction l as [|x l IH]; intros H; cbn [Spec.sum fold_right].
  - reflexivity.
  - assert (x == 0) by (apply H; now left).
    assert (Spec.sum l == 0) by (apply IH; intros; apply H; now right).
    unfold Spec.sum in *. lra.
Qed.

Lemma count_pos (l : list Q) : l <> [] -> 0 < inject_Z (Z.of_nat (length l)).
Proof.
  intros H. destruct l; [congruence|].
  change 0 with (inject_Z 0). rewrite <- Zlt_Qlt. simpl length. lia.
Qed.

End Aggregates.

(** On a column without missing cells and with at least two rows, the
    returned expression is the specification's index. *)
Lemma deltas_nonempty ps : (2 <= length ps)%nat -> deltas ps <> [].
Proof.
  intros Hn E. apply (f_equal (@length Q)) in E.
  rewrite deltas_length in E. simpl in E. lia.
Qed.

Lemma index_expr_num ps :
  (2 <= length ps)%nat -> index_expr (map num ps) = num (Spec.index ps).
Proof.
  intros Hn. pose proof (deltas_nonempty ps Hn) as Hne.
  unfold Spec.index, Spec.unrounded, Spec.meanDiff, index_expr, max, mean.
  rewrite dropna_abs_diff, spec_d_deltas.
  pose proof (maxDiff_is_max _ Hne) as Hm.
  destruct (deltas ps) as [|q l] eqn:E; [congruence|].
  unfold round, fdiv, fadd, lift2, num, option_map. f_equal.
  apply round_q_comp. unfold Spec.mean.
  rewrite Qsum_spec.
  rewrite (is_max_unique _ _ _ (fold_max_is_max l q) Hm).
  reflexivity.
Qed.


Section Bounds.

Variable ps : list Q.
Hypothesis Hn : (2 <= length ps)%nat.

Lemma unrounded_nonneg : 0 <= Spec.unrounded ps.
Proof.
  pose proof (deltas_nonempty ps Hn) as Hne.
  unfold Spec.unrounded, Spec.meanDiff, Spec.mean.
  rewrite spec_d_deltas.
  destruct (maxDiff_is_max _ Hne) as [Hin _].
  apply deltas_nonneg in Hin.
  pose proof (sum_nonneg (deltas ps) (deltas_nonneg ps)) as Hs.
  pose proof (count_pos _ Hne) as Hc.
  set (n := inject_Z (Z.of_nat (length (deltas ps)))) in *.
  assert (0 <= Spec.sum (deltas ps) / n).
  { apply Qle_shift_div_l; [assumption|]. lra. }
  apply Qle_shift_div_l; lra.
Qed.

Lemma unrounded_constant c :
  (forall x, In x ps -> x == c) -> Spec.unrounded ps == 0.
Proof.
  intros Hc.
  pose proof (deltas_nonempty ps Hn) as Hne.
  assert (Hz : forall x, In x (deltas ps) -> x == 0).
  { clear Hn Hne. destruct ps as [|a l]; [intros x []|]. cbn [deltas].
    assert (Ha : a == c) by (apply Hc; now left).
    assert (Hl : forall x, In x l -> x == c) by (intros; apply Hc; now right).
    clear Hc. revert a Ha Hl. induction l as [|b l IH]; intros a Ha Hl x Hx.
    - destruct Hx.
    - cbn [deltas_from In] in Hx. destruct Hx as [<-|Hx].
      + assert (b == c) by (apply Hl; now left).
        assert (E : b - a == 0) by lra. rewrite E. reflexivity.
      + apply (IH b); auto.
        * apply Hl; now left.
        * intros; apply Hl; now right. }
  unfold Spec.unrounded, Spec.meanDiff, Spec.mean.
  rewrite spec_d_deltas.
  destruct (maxDiff_is_max _ Hne) as [Hin _].
  rewrite (Hz _ Hin), (sum_zero _ Hz).
  pose proof (count_pos _ Hne) as Hp.
  field. lra.
Qed.

End Bounds.

(** ** Comparisons and the frame after a call *)

Lemma Qlt_bool_iff a b : Qlt_bool a b = true <-> a < b.
Proof.
  unfold Qlt_bool. rewrite negb_true_iff, <- not_true_iff_false, Qle_bool_iff.
  split; [apply Qnot_le_lt | apply Qlt_not_le].
Qed.

Lemma flt_iff x y : flt x y = true <-> Spec.lt x y.
Proof.
  destruct x as [a|], y as [b|]; simpl;
    try (split; [discriminate | contradiction]).
  apply Qlt_bool_iff.
Qed.

Lemma flt_false_iff a b : flt (num a) (num b) = false <-> b <= a.
Proof.
  rewrite <- not_true_iff_false, flt_iff. simpl.
  split; [apply Qnot_lt_le | apply Qle_not_lt].
Qed.

Lemma assign_present k s cs : lookup k cs = Some s -> assign k s cs = cs.
Proof.
  induction cs as [|[k' s'] cs IH]; simpl; [discriminate|].
  destruct (String.eqb k k') eqn:E.
  - now intros [= ->].
  - intros H. now rewrite IH.
Qed.

Lemma columns_after_diff p cs :
  lookup "diff" (columns_after p cs) = Some (abs (diff p)).
Proof.
  unfold columns_after.
  rewrite lookup_assign_other by discriminate. apply lookup_assign_same.
Qed.

Lemma columns_after_dpdt p cs :
  lookup "dpdt" (columns_after p cs) = Some (diff p).
Proof. apply lookup_assign_same. Qed.

Lemma columns_after_other p cs k :
  k <> "diff" -> k <> "dpdt" -> lookup k (columns_after p cs) = lookup k cs.
Proof.
  intros H1 H2. unfold columns_after.
  now rewrite !lookup_assign_other.
Qed.

Lemma columns_after_again p cs :
  columns_after p (columns_after p cs) = columns_after p cs.
Proof.
  unfold columns_after at 1.
  rewrite (assign_present "diff") by apply columns_after_diff.
  apply assign_present, columns_after_dpdt.
Qed.

(** * Binary64 *)

(** ** The order on doubles *)

Section Order.

Import IEEE.

Ltac cmp_cases :=
  repeat match goal with
  | |- context [Z.compare ?a ?b] =>
      destruct (Z.compare_spec a b)
  | |- context [PosDef.Pos.compare ?a ?b] =>
      change (PosDef.Pos.compare a b) with (Pos.compare a b);
      destruct (Pos.compare_spec a b)
  | |- context [PosDef.Pos.compare_cont Eq ?a ?b] =>
      change (PosDef.Pos.compare_cont Eq a b) with (Pos.compare a b);
      destruct (Pos.compare_spec a b)
  end.

Lemma double_lt_irrefl a : lt a a = false.
Proof.
  unfold lt, SFltb, SFcompare.
  destruct a as [[]|[]| |[] m e]; try reflexivity;
    rewrite Z.compare_refl, Pos.compare_refl; reflexivity.
Qed.

Lemma double_lt_trans a b c :
  lt a b = true -> lt b c = true -> lt a c = true.
Proof.
  unfold lt, SFltb, SFcompare.
  destruct a as [[]|[]| |[] ma ea], b as [[]|[]| |[] mb eb],
           c as [[]|[]| |[] mc ec];
    try (intros; reflexivity); try (intros; discriminate);
    cmp_cases; cbn; intros; try reflexivity; try discriminate; lia.
Qed.

(** Away from NaN the order is total: [a >= b >= c] gives [a >= c]. *)
Lemma double_ge_trans a b c :
  is_nan a = false -> is_nan b = false -> is_nan c = false ->
  lt a b = false -> lt b c = false -> lt a c = false.
Proof.
  unfold lt, SFltb, SFcompare, is_nan.
  destruct a as [[]|[]| |[] ma ea], b as [[]|[]| |[] mb eb],
           c as [[]|[]| |[] mc ec];
    try (intros; reflexivity); try (intros; discriminate);
    cmp_cases; cbn; intros; try reflexivity; try discriminate; lia.
Qed.

End Order.

(** ** Frames of doubles *)

Section DoubleFrames.

Import IEEE.

Lemma double_lookup_assign_same k s cs : lookup k (assign k s cs) = Some s.
Proof.
  induction cs as [|[k' s'] cs IH]; simpl.
  - now rewrite String.eqb_refl.
  - destruct (String.eqb k k') eqn:E; simpl; rewrite E; auto.
Qed.

Lemma double_lookup_assign_other k k' s cs :
  k <> k' -> lookup k (assign k' s cs) = lookup k cs.
Proof.
  intros Hne. induction cs as [|[k0 s0] cs IH]; simpl.
  - apply String.eqb_neq in Hne. now rewrite Hne.
  - destruct (String.eqb k' k0) eqn:E; simpl.
    + apply String.eqb_eq in E. subst k0.
      apply String.eqb_neq in Hne. now rewrite Hne.
    + now rewrite IH.
Qed.

Lemma double_V03_run df p :
  lookup "pressure" (columns df) = Some p ->
  V03.compute_bitwalk_index df =
    (mkDataFrame (time df) (columns_after p (columns df)),
     Returned (index_expr p)).
Proof.
  intros Hp.
  unfold V03.compute_bitwalk_index, bind, getitem, setitem, ret; simpl.
  rewrite Hp; simpl.
  rewrite (double_lookup_assign_other "pressure" "diff") by discriminate.
  rewrite Hp; simpl.
  do 2 (rewrite (double_lookup_assign_other "diff" "dpdt") by discriminate;
        rewrite double_lookup_assign_same; simpl).
  reflexivity.
Qed.

End DoubleFrames.

(** ** No NaN out of finite readings *)

Section Closure.

Import IEEE.

Lemma shr_1_nonneg mrs : (0 <= shr_m mrs)%Z -> (0 <= shr_m (shr_1 mrs))%Z.
Proof.
  destruct mrs as [[|[p|p|]|p] r s]; cbn; lia.
Qed.

Lemma iter_shr_1_nonneg n mrs :
  (0 <= shr_m mrs)%Z -> (0 <= shr_m (iter_pos shr_1 n mrs))%Z.
Proof.
  revert mrs. induction n as [n IH|n IH|]; intros mrs H; cbn [iter_pos].
  - apply IH, IH, shr_1_nonneg, H.
  - apply IH, IH, H.
  - apply shr_1_nonneg, H.
Qed.







Lemma sub_nan_r x : sub x NaN = NaN.
Proof. destruct x as [[]|[]| |[] m e]; reflexivity. Qed.

End Closure.

(** ** Rounding to a whole number *)

Section Rint.

Import IEEE.

Lemma nearest_even_spec (m : Z) (k : positive) :
  let z := nearest_even m k in
  let err := (2 * Z.abs (z * 2 ^ Zpos k - m))%Z in
  (err <= 2 ^ Zpos k)%Z /\ (err = 2 ^ Zpos k -> Z.even z = true)%Z.
Proof.
  unfold nearest_even.
  assert (HP : (0 < 2 ^ Zpos k)%Z) by (apply Z.pow_pos_nonneg; lia).
  set (P := (2 ^ Zpos k)%Z) in *.
  pose proof (Z.div_mod m P ltac:(lia)) as Hdm.
  pose proof (Z.mod_pos_bound m P HP) as Hr.
  set (q := (m / P)%Z) in *. set (r := (m mod P)%Z) in *.
  destruct (Z.compare_spec (2 * r) P) as [E|L|G].
  - destruct (Z.even q) eqn:Hq; cbn zeta.
    + split; [lia|]. intros _. exact Hq.
    + split; [lia|]. intros _.
      rewrite Z.even_add, Hq. reflexivity.
  - cbn zeta. split; lia.
  - cbn zeta. split; lia.
Qed.

(** [rint] does round to the nearest whole number, halves to even. *)
Lemma rint_is_rint x : is_rint x (rint x).
Proof.
  destruct x as [s|s| |s m [|e|k]]; try reflexivity.
  cbn [is_rint rint].
  exists (nearest_even (cond_Zopp s (Zpos m)) k).
  destruct (nearest_even_spec (cond_Zopp s (Zpos m)) k) as [H1 H2].
  split; [exact H1|]. split; [exact H2|].
  destruct (nearest_even _ k); reflexivity.
Qed.

End Rint.

(** ** The differences of a column of doubles *)

Section Differences.

Import IEEE.

Lemma double_d_from x ps :
  map (fun i => fabs (sub (nth i (x :: ps) NaN) (nth (i - 1) (x :: ps) NaN)))
      (seq 1 (length ps)) = abs (diff_from x ps).
Proof.
  revert x. induction ps as [|y ps IH]; intros x; [reflexivity|].
  simpl length. simpl seq. simpl map at 1. simpl diff_from. simpl abs.
  f_equal.
  change (map fabs (diff_from y ps)) with (abs (diff_from y ps)).
  rewrite <- (IH y), <- seq_shift, map_map.
  apply map_ext_in. intros i Hi. apply in_seq in Hi.
  destruct i as [|i]; [lia|]. simpl. now rewrite Nat.sub_0_r.
Qed.

Lemma double_d_cons x ps : d (x :: ps) = abs (diff_from x ps).
Proof.
  unfold d. simpl length.
  replace (S (length ps) - 1)%nat with (length ps) by lia.
  apply double_d_from.
Qed.

(** The ['diff'] column: NaN in row 0, then the differences. *)
Lemma double_abs_diff x ps : abs (diff (x :: ps)) = NaN :: d (x :: ps).
Proof.
  rewrite double_d_cons. unfold diff. cbn [diff_from abs map].
  now rewrite sub_nan_r.
Qed.

Lemma double_d_length ps : length (d ps) = (length ps - 1)%nat.
Proof. unfold d. now rewrite length_map, length_seq. Qed.



Lemma dropna_all l :
  Forall (fun x => is_nan x = false) l -> dropna l = l.
Proof.
  induction 1 as [|x l Hx Hl IH]; [reflexivity|].
  unfold dropna in *. cbn [filter]. rewrite Hx. cbn [negb]. now rewrite IH.
Qed.

Lemma fillna_all l v :
  Forall (fun x => is_nan x = false) l -> fillna l v = l.
Proof.
  induction 1 as [|x l Hx Hl IH]; [reflexivity|].
  unfold fillna in *. cbn [map]. now rewrite Hx, IH.
Qed.

(** What [max] and [mean] see of a ['diff'] column without NaN below its
    first row. *)
Lemma double_diff_column x ps :
  Forall (fun y => is_nan y = false) (d (x :: ps)) ->
  dropna (abs (diff (x :: ps))) = d (x :: ps) /\
  fillna (abs (diff (x :: ps))) zero = zero :: d (x :: ps).
Proof.
  intros Hnan.
  rewrite double_abs_diff. split.
  - unfold dropna. cbn [filter is_nan negb]. now apply dropna_all.
  - unfold fillna. cbn [map is_nan]. f_equal. now apply fillna_all.
Qed.

End Differences.

(** ** Maximum and sum of doubles *)

Section DoubleAggregates.

Import IEEE.

Lemma fold_max_is_max_double l x :
  Forall (fun y => is_nan y = false) (x :: l) ->
  is_max (fold_left (fun a b => if lt a b then b else a) l x) (x :: l).
Proof.
  revert x. induction l as [|b l IH]; intros x H.
  - split; [now left|]. intros y [<-|[]]. apply double_lt_irrefl.
  - inversion H as [|? ? Hx Hbl]; subst.
    inversion Hbl as [|? ? Hb Hl]; subst.
    cbn [fold_left].
    set (a' := if lt x b then b else x).
    assert (Ha' : is_nan a' = false) by (unfold a'; destruct (lt x b); auto).
    destruct (IH a' (Forall_cons _ Ha' Hl)) as [Hin Hub].
    set (m := fold_left _ l a') in *.
    assert (Hm : is_nan m = false).
    { apply (proj1 (Forall_forall _ _) (Forall_cons _ Ha' Hl)), Hin. }
    assert (Hma : lt m a' = false) by (apply Hub; now left).
    assert (Hmx : lt m x = false /\ lt m b = false).
    { unfold a' in Hma. destruct (lt x b) eqn:E.
      - split; [|exact Hma].
        destruct (lt m x) eqn:E'; [|reflexivity].
        rewrite (double_lt_trans _ _ _ E' E) in Hma. discriminate Hma.
      - split; [exact Hma|]. now apply (double_ge_trans m x b). }
    split.
    + destruct Hin as [E|Hin].
      * unfold a' in E. destruct (lt x b); [right; left | left]; exact E.
      * right; right; exact Hin.
    + intros y [<-|[<-|Hy]]; [tauto|tauto|]. apply Hub. now right.
Qed.


End DoubleAggregates.

(** ** Scaling by a power of two *)

Section Scale.

Import IEEE.

Variable j : Z.

Lemma lt_scale2 a b : lt (scale2 j a) (scale2 j b) = lt a b.
Proof.
  unfold lt, SFltb, SFcompare, scale2.
  destruct a as [[]|[]| |[] ma ea], b as [[]|[]| |[] mb eb]; try reflexivity;
    change (IntDef.Z.compare (ea + j) (eb + j))
      with (Z.compare (ea + j) (eb + j));
    rewrite (Z.add_comm ea), (Z.add_comm eb), Z.add_compare_mono_l;
    reflexivity.
Qed.

Lemma is_nan_scale2 a : is_nan (scale2 j a) = is_nan a.
Proof. destruct a; reflexivity. Qed.

Lemma fold_max_scale2 l x :
  fold_left (fun a b => if lt a b then b else a) (map (scale2 j) l)
            (scale2 j x)
  = scale2 j (fold_left (fun a b => if lt a b then b else a) l x).
Proof.
  revert x. induction l as [|b l IH]; intros x; [reflexivity|].
  cbn [map fold_left]. rewrite lt_scale2.
  destruct (lt x b); apply IH.
Qed.

Lemma is_max_scale2 m l :
  is_max m l -> is_max (scale2 j m) (map (scale2 j) l).
Proof.
  intros [Hin Hub]. split.
  - now apply in_map.
  - intros x Hx. apply in_map_iff in Hx. destruct Hx as [y [<- Hy]].
    rewrite lt_scale2. now apply Hub.
Qed.

End Scale.

Lemma scale2_0 x : IEEE.scale2 0 x = x.
Proof. destruct x as [| | |s m e]; cbn; [reflexivity..|]. now rewrite Z.add_0_r. Qed.

(** ** Digits of a mantissa *)

Section Digits.
Import IEEE.

Lemma digits2_size p : digits2_pos p = Pos.size p.
Proof. induction p; cbn; congruence. Qed.

Lemma Zdigits2_log2 p : Zdigits2 (Zpos p) = (Z.log2 (Zpos p) + 1)%Z.
Proof.
  cbn [Zdigits2]. rewrite digits2_size.
  destruct p; cbn; lia.
Qed.

Lemma Zdigits2_pos_bounds (m d : Z) :
  (0 < m)%Z -> (Zdigits2 m = d <-> 2 ^ (d - 1) <= m < 2 ^ d)%Z.
Proof.
  intros Hm. destruct m as [|p|p]; try lia.
  rewrite Zdigits2_log2.
  pose proof (Z.log2_spec (Zpos p) ltac:(lia)) as [H1 H2].
  pose proof (Z.log2_nonneg (Zpos p)) as H0.
  split.
  - intros <-. replace (Z.log2 (Zpos p) + 1 - 1)%Z with (Z.log2 (Zpos p)) by lia.
    replace (Z.log2 (Zpos p) + 1)%Z with (Z.succ (Z.log2 (Zpos p))) by lia.
    split; assumption.
  - intros [Ha Hb].
    assert (Hd : (0 < d)%Z).
    { destruct (Z_lt_le_dec 0 d) as [?|Hle]; [assumption|].
      destruct (Z.eq_dec d 0) as [->|Hne]; [cbn in Hb; lia|].
      rewrite (Z.pow_neg_r 2 d) in Hb by lia. lia. }
    assert (E : Z.log2 (Zpos p) = (d - 1)%Z).
    { apply Z.log2_unique; [lia|]. replace (Z.succ (d - 1)) with d by lia. lia. }
    lia.
Qed.

End Digits.

(** ** Shifting a mantissa right *)

Section Shr.
Import IEEE.

Lemma shr_1_div2 mrs : (0 <= shr_m mrs)%Z -> shr_m (shr_1 mrs) = Z.div2 (shr_m mrs).
Proof.
  destruct mrs as [[|[p|p|]|p] r s]; cbn; try reflexivity; lia.
Qed.

Lemma iter_shr_1_shiftr n mrs :
  (0 <= shr_m mrs)%Z ->
  shr_m (iter_pos shr_1 n mrs) = Z.shiftr (shr_m mrs) (Zpos n).
Proof.
  revert mrs. induction n as [n IH|n IH|]; intros mrs H; cbn [iter_pos].
  - rewrite IH by (apply iter_shr_1_nonneg, shr_1_nonneg, H).
    rewrite IH by (apply shr_1_nonneg, H).
    rewrite shr_1_div2 by exact H.
    rewrite Z.div2_spec, !Z.shiftr_shiftr by lia.
    f_equal. lia.
  - rewrite IH by (apply iter_shr_1_nonneg, H).
    rewrite IH by exact H.
    rewrite Z.shiftr_shiftr by lia. f_equal. lia.
  - rewrite shr_1_div2 by exact H. now rewrite Z.div2_spec.
Qed.

Lemma shiftr_digits m n :
  (0 < m)%Z -> (0 <= n)%Z -> (n < Zdigits2 m)%Z ->
  (0 < Z.shiftr m n)%Z /\ Zdigits2 (Z.shiftr m n) = (Zdigits2 m - n)%Z.
Proof.
  intros Hm Hn Hlt.
  pose proof (proj1 (Zdigits2_pos_bounds m _ Hm) eq_refl) as [Hlo Hhi].
  set (d := Zdigits2 m) in *.
  rewrite Z.shiftr_div_pow2 by exact Hn.
  assert (Hp : (0 < 2 ^ n)%Z) by (apply Z.pow_pos_nonneg; lia).
  assert (Hq : (2 ^ (d - n - 1) <= m / 2 ^ n < 2 ^ (d - n))%Z).
  { split.
    - apply Z.div_le_lower_bound; [exact Hp|].
      rewrite <- Z.pow_add_r by lia.
      replace (n + (d - n - 1))%Z with (d - 1)%Z by lia. exact Hlo.
    - apply Z.div_lt_upper_bound; [exact Hp|].
      rewrite <- Z.pow_add_r by lia.
      replace (n + (d - n))%Z with d by lia. exact Hhi. }
  assert (Hpos : (0 < m / 2 ^ n)%Z).
  { assert (0 < 2 ^ (d - n - 1))%Z by (apply Z.pow_pos_nonneg; lia). lia. }
  split; [exact Hpos|].
  apply Zdigits2_pos_bounds; [exact Hpos|]. exact Hq.
Qed.

End Shr.

(** ** Rounding commutes with a change of exponent *)

Section RoundScale.
Import IEEE.

Lemma shr_nonpos mrs e n : (n <= 0)%Z -> shr mrs e n = (mrs, e).
Proof. destruct n; try reflexivity. lia. Qed.

Lemma shr_pos mrs e n :
  (0 < n)%Z -> shr mrs e n = (fst (shr mrs 0 n), (e + n)%Z).
Proof. destruct n; try lia. reflexivity. Qed.

Lemma shr_fexp_unclamped m e l :
  (-1074 <= Zdigits2 m + e - 53)%Z ->
  shr_fexp prec emax m e l =
    (fst (shr (shr_record_of_loc m l) 0 (Zdigits2 m - 53)),
     (e + Z.max 0 (Zdigits2 m - 53))%Z).
Proof.
  intros H. unfold shr_fexp, fexp.
  change (SpecFloat.emin prec emax) with (-1074)%Z. change prec with 53%Z.
  rewrite Z.max_l by lia.
  replace (Zdigits2 m + e - 53 - e)%Z with (Zdigits2 m - 53)%Z by lia.
  destruct (Z_lt_le_dec 0 (Zdigits2 m - 53)) as [Hp|Hn].
  - rewrite shr_pos by exact Hp. f_equal. lia.
  - rewrite !shr_nonpos by exact Hn. cbn [fst]. f_equal. lia.
Qed.

(** Second pass of the rounding: only a carry shifts. *)
Lemma shr_fexp_second m e :
  (-1074 <= e)%Z ->
  shr_fexp prec emax m e loc_Exact =
    (fst (shr (shr_record_of_loc m loc_Exact) 0 (Zdigits2 m - 53)),
     (e + Z.max 0 (Zdigits2 m - 53))%Z).
Proof.
  intros H. unfold shr_fexp, fexp.
  change (SpecFloat.emin prec emax) with (-1074)%Z. change prec with 53%Z.
  destruct (Z_lt_le_dec 0 (Zdigits2 m - 53)) as [Hp|Hn].
  - rewrite Z.max_l by lia.
    replace (Zdigits2 m + e - 53 - e)%Z with (Zdigits2 m - 53)%Z by lia.
    rewrite shr_pos by exact Hp. f_equal. lia.
  - rewrite (shr_nonpos _ _ (Zdigits2 m - 53)) by exact Hn.
    rewrite shr_nonpos by lia. cbn [fst]. f_equal. lia.
Qed.

(** The rounding of [m * 2^e] away from the subnormal range, with the
    exponent factored out. *)
Lemma binary_round_aux_unclamped s m e l :
  (-1074 <= Zdigits2 m + e - 53)%Z ->
  binary_round_aux prec emax s m e l =
    let mrs' := fst (shr (shr_record_of_loc m l) 0 (Zdigits2 m - 53)) in
    let m2 := round_nearest_even (shr_m mrs') (loc_of_shr_record mrs') in
    let mrs'' := fst (shr (shr_record_of_loc m2 loc_Exact) 0 (Zdigits2 m2 - 53)) in
    let e'' := (e + Z.max 0 (Zdigits2 m - 53) + Z.max 0 (Zdigits2 m2 - 53))%Z in
    match shr_m mrs'' with
    | Z0 => S754_zero s
    | Zpos p => if (e'' <=? 971)%Z then S754_finite s p e'' else S754_infinity s
    | Zneg _ => S754_nan
    end.
Proof.
  intros H. unfold binary_round_aux.
  rewrite shr_fexp_unclamped by exact H.
  rewrite shr_fexp_second by lia.
  reflexivity.
Qed.

Lemma binary_round_aux_scale s m e l j :
  (-1074 <= Zdigits2 m + e - 53)%Z ->
  (-1074 <= Zdigits2 m + e + j - 53)%Z ->
  in_range 0 (binary_round_aux prec emax s m e l) ->
  in_range j (binary_round_aux prec emax s m e l) ->
  binary_round_aux prec emax s m (e + j) l
  = scale2 j (binary_round_aux prec emax s m e l).
Proof.
  intros H Hj.
  rewrite (binary_round_aux_unclamped s m e l H).
  rewrite (binary_round_aux_unclamped s m (e + j) l) by lia.
  cbv zeta.
  destruct (shr_m _) as [|p|p]; [reflexivity| |intros []].
  match goal with |- context [(?a <=? 971)%Z] => set (e2 := a) end.
  replace (e + j + Z.max 0 (Zdigits2 m - 53) + _)%Z with (e2 + j)%Z
    by (unfold e2; lia).
  destruct (Z.leb_spec e2 971) as [L|G]; [|intros []].
  cbn [in_range scale2]. intros _ L'.
  destruct (Z.leb_spec (e2 + j) 971); [reflexivity|lia].
Qed.

End RoundScale.

(** ** Rounding in the normal range *)

Section Normal.
Import IEEE.

Lemma round_nearest_even_bounds m l :
  (m <= round_nearest_even m l <= m + 1)%Z.
Proof.
  unfold round_nearest_even.
  destruct l as [|[]]; try destruct (Z.even m); lia.
Qed.

Lemma shr_record_m m l : shr_m (shr_record_of_loc m l) = m.
Proof. destruct l as [|[]]; reflexivity. Qed.

Lemma shr_first_m m l n :
  (0 < m)%Z -> (0 <= n)%Z ->
  shr_m (fst (shr (shr_record_of_loc m l) 0 n)) = Z.shiftr m n.
Proof.
  intros Hm Hn. destruct n as [|p|p]; try lia; cbn [shr fst].
  - now rewrite shr_record_m.
  - rewrite iter_shr_1_shiftr by (rewrite shr_record_m; lia).
    now rewrite shr_record_m.
Qed.

(** Away from the subnormal range, a mantissa of at least 53 digits is
    rounded to one of exactly 53, and the exponent follows. *)
Lemma binary_round_aux_normal s m e l :
  (0 < m)%Z -> (53 <= Zdigits2 m)%Z ->
  (-1074 <= Zdigits2 m + e - 53)%Z ->
  (Zdigits2 m + e - 52 <= 971)%Z ->
  exists p e',
    binary_round_aux prec emax s m e l = S754_finite s p e' /\
    Zdigits2 (Zpos p) = 53%Z /\
    (Zdigits2 m + e - 53 <= e' <= Zdigits2 m + e - 52)%Z.
Proof.
  intros Hm Hd Hlo Hhi.
  rewrite binary_round_aux_unclamped by exact Hlo. cbv zeta.
  set (d := Zdigits2 m) in *.
  rewrite (shr_first_m m l (d - 53)) by lia.
  destruct (shiftr_digits m (d - 53) Hm ltac:(lia) ltac:(fold d; lia))
    as [Hpos1 Hd1].
  fold d in Hd1. replace (d - (d - 53))%Z with 53%Z in Hd1 by lia.
  set (m1 := Z.shiftr m (d - 53)) in *.
  set (l1 := loc_of_shr_record _).
  pose proof (round_nearest_even_bounds m1 l1) as Hb.
  set (m2 := round_nearest_even m1 l1) in *.
  assert (Hpos2 : (0 < m2)%Z) by lia.
  pose proof (proj1 (Zdigits2_pos_bounds m1 53 Hpos1) Hd1) as [B1 B2].
  assert (Hd2 : Zdigits2 m2 = 53%Z \/ Zdigits2 m2 = 54%Z).
  { destruct (Z_lt_le_dec m2 (2 ^ 53)) as [Hlt|Hge].
    - left. apply Zdigits2_pos_bounds; [exact Hpos2|]. cbn in *. lia.
    - right. apply Zdigits2_pos_bounds; [exact Hpos2|]. cbn in *. lia. }
  rewrite (shr_first_m m2 loc_Exact (Zdigits2 m2 - 53)) by lia.
  destruct (shiftr_digits m2 (Zdigits2 m2 - 53) Hpos2 ltac:(lia) ltac:(lia))
    as [Hpos3 Hd3].
  replace (Zdigits2 m2 - (Zdigits2 m2 - 53))%Z with 53%Z in Hd3 by lia.
  set (m3 := Z.shiftr m2 (Zdigits2 m2 - 53)) in *.
  destruct m3 as [|p|p] eqn:E3; try lia.
  set (e2 := (e + Z.max 0 (d - 53) + Z.max 0 (Zdigits2 m2 - 53))%Z).
  assert (He2 : (d + e - 53 <= e2 <= d + e - 52)%Z) by (unfold e2; lia).
  destruct (Z.leb_spec e2 971) as [L|G]; [|lia].
  exists p, e2. split; [reflexivity|]. split; [exact Hd3|exact He2].
Qed.

Lemma digits_iter_xO m k :
  Zdigits2 (Zpos (Pos.iter xO m k)) = (Zdigits2 (Zpos m) + Zpos k)%Z.
Proof.
  cbn [Zdigits2].
  induction k as [|k IH] using Pos.peano_ind.
  - cbn. lia.
  - rewrite Pos.iter_succ. cbn [digits2_pos]. lia.
Qed.

(** The left shift of [binary_round] keeps digits plus exponent. *)
Lemma shl_align_fexp_unclamped m e :
  (-1074 <= Zdigits2 (Zpos m) + e - 53)%Z ->
  exists mz,
    shl_align m e (fexp prec emax (Zpos (digits2_pos m) + e))
    = (mz, (e + Z.min 0 (Zdigits2 (Zpos m) - 53))%Z) /\
    Zdigits2 (Zpos mz) = Z.max 53 (Zdigits2 (Zpos m)) /\
    (forall j, (-1074 <= Zdigits2 (Zpos m) + e + j - 53)%Z ->
       shl_align m (e + j) (fexp prec emax (Zpos (digits2_pos m) + (e + j)))
       = (mz, (e + j + Z.min 0 (Zdigits2 (Zpos m) - 53))%Z)).
Proof.
  intros H. unfold shl_align, fexp.
  change (SpecFloat.emin prec emax) with (-1074)%Z. change prec with 53%Z.
  change (Zpos (digits2_pos m)) with (Zdigits2 (Zpos m)).
  set (d := Zdigits2 (Zpos m)) in *.
  rewrite Z.max_l by lia.
  replace (d + e - 53 - e)%Z with (d - 53)%Z by lia.
  destruct (d - 53)%Z as [|k|k] eqn:Ek.
  - exists m. split; [f_equal; lia|]. split; [fold d; lia|].
    intros j Hj. rewrite Z.max_l by lia.
    replace (d + (e + j) - 53 - (e + j))%Z with 0%Z by lia.
    f_equal. lia.
  - exists m. split; [f_equal; lia|]. split; [fold d; lia|].
    intros j Hj. rewrite Z.max_l by lia.
    replace (d + (e + j) - 53 - (e + j))%Z with (Zpos k) by lia.
    f_equal. lia.
  - exists (Pos.iter xO m k). split; [f_equal; lia|].
    split; [rewrite digits_iter_xO; fold d; lia|].
    intros j Hj. rewrite Z.max_l by lia.
    replace (d + (e + j) - 53 - (e + j))%Z with (Zneg k) by lia.
    f_equal. lia.
Qed.

Lemma binary_round_normal s m e :
  (-1074 <= Zdigits2 (Zpos m) + e - 53)%Z ->
  (Zdigits2 (Zpos m) + e - 52 <= 971)%Z ->
  exists p e',
    binary_round prec emax s m e = S754_finite s p e' /\
    Zdigits2 (Zpos p) = 53%Z /\
    (Zdigits2 (Zpos m) + e - 53 <= e' <= Zdigits2 (Zpos m) + e - 52)%Z.
Proof.
  intros Hlo Hhi. unfold binary_round.
  destruct (shl_align_fexp_unclamped m e Hlo) as [mz [E [Hd _]]].
  rewrite E.
  destruct (binary_round_aux_normal s (Zpos mz)
              (e + Z.min 0 (Zdigits2 (Zpos m) - 53)) loc_Exact)
    as [p [e' [Er [Hp He']]]]; try lia.
  exists p, e'. split; [exact Er|]. split; [exact Hp|]. lia.
Qed.

Lemma binary_round_scale s m e j :
  (-1074 <= Zdigits2 (Zpos m) + e - 53)%Z ->
  (-1074 <= Zdigits2 (Zpos m) + e + j - 53)%Z ->
  (Zdigits2 (Zpos m) + e - 52 <= 971)%Z ->
  (Zdigits2 (Zpos m) + e + j - 52 <= 971)%Z ->
  binary_round prec emax s m (e + j) = scale2 j (binary_round prec emax s m e).
Proof.
  intros Hlo Hloj Hhi Hhij.
  destruct (binary_round_normal s m e Hlo Hhi) as [p [e' [Er [Hp He']]]].
  revert Er. unfold binary_round.
  destruct (shl_align_fexp_unclamped m e Hlo) as [mz [E [Hd Ej]]].
  rewrite E, (Ej j Hloj). intros Er.
  replace (e + j + Z.min 0 (Zdigits2 (Zpos m) - 53))%Z
    with (e + Z.min 0 (Zdigits2 (Zpos m) - 53) + j)%Z by lia.
  apply binary_round_aux_scale; try lia; rewrite Er; cbn; lia.
Qed.

End Normal.

(** ** Addition, division and a power of two *)

Section AddScale.
Import IEEE.

Lemma Zdigits2_le m d : (0 < m)%Z -> (Zdigits2 m <= d <-> m < 2 ^ d)%Z.
Proof.
  intros Hm. destruct m as [|p|p]; try lia.
  rewrite Zdigits2_log2, (Z.log2_lt_pow2 (Zpos p) d) by lia. lia.
Qed.

Lemma Zdigits2_ge m d : (0 < m)%Z -> (d <= Zdigits2 m <-> 2 ^ (d - 1) <= m)%Z.
Proof.
  intros Hm. destruct m as [|p|p]; try lia.
  rewrite Zdigits2_log2, (Z.log2_le_pow2 (Zpos p) (d - 1)) by lia. lia.
Qed.

Lemma shl_align_fst m e e2 :
  (e2 <= e)%Z ->
  Zdigits2 (Zpos (fst (shl_align m e e2))) = (Zdigits2 (Zpos m) + (e - e2))%Z /\
  forall j, fst (shl_align m (e + j) (e2 + j)) = fst (shl_align m e e2).
Proof.
  intros H. unfold shl_align.
  replace (e2 - e)%Z with (- (e - e2))%Z by lia.
  split.
  - destruct (e - e2)%Z as [|k|k] eqn:E; try lia; cbn [Z.opp fst].
    + lia.
    + rewrite digits_iter_xO. lia.
  - intros j. replace (e2 + j - (e + j))%Z with (- (e - e2))%Z by lia.
    destruct (e - e2)%Z as [|k|k]; reflexivity.
Qed.

Variables lo hi j : Z.
Hypothesis Hlo : (-1074 <= lo)%Z.
Hypothesis Hloj : (-1074 <= lo + j)%Z.
Hypothesis Hhi : (hi + 2 <= 971)%Z.
Hypothesis Hhij : (hi + 2 + j <= 971)%Z.

Lemma add_normal x y :
  normal lo hi x -> normal lo hi y ->
  normal lo (hi + 2) (add x y) /\
  add (scale2 j x) (scale2 j y) = scale2 j (add x y).
Proof.
  intros [mx [ex [-> [Hdx Hex]]]] [my [ey [-> [Hdy Hey]]]].
  unfold add, SFadd, scale2. cbn [cond_Zopp].
  replace (Z.min (ex + j) (ey + j)) with (Z.min ex ey + j)%Z by lia.
  set (ez := Z.min ex ey).
  destruct (shl_align_fst mx ex ez ltac:(unfold ez; lia)) as [Dx Jx].
  destruct (shl_align_fst my ey ez ltac:(unfold ez; lia)) as [Dy Jy].
  rewrite Jx, Jy.
  set (ax := fst (shl_align mx ex ez)) in *.
  set (ay := fst (shl_align my ey ez)) in *.
  change (Zpos ax + Zpos ay)%Z with (Zpos (ax + ay)).
  cbn [binary_normalize].
  assert (HD : (53 + Z.max ex ey - ez <= Zdigits2 (Zpos (ax + ay))
                <= 54 + Z.max ex ey - ez)%Z).
  { split.
    - apply Zdigits2_ge; [lia|].
      assert (Hx : (2 ^ (Zdigits2 (Zpos ax) - 1) <= Zpos ax)%Z)
        by (apply Zdigits2_ge; lia).
      assert (Hy : (2 ^ (Zdigits2 (Zpos ay) - 1) <= Zpos ay)%Z)
        by (apply Zdigits2_ge; lia).
      rewrite Dx, Hdx in Hx. rewrite Dy, Hdy in Hy.
      destruct (Z.max_spec ex ey) as [[_ ->]|[_ ->]].
      + replace (53 + ey - ez - 1)%Z with (53 + (ey - ez) - 1)%Z by lia. lia.
      + replace (53 + ex - ez - 1)%Z with (53 + (ex - ez) - 1)%Z by lia. lia.
    - apply Zdigits2_le; [lia|].
      assert (Hx : (Zpos ax < 2 ^ Zdigits2 (Zpos ax))%Z)
        by (apply Zdigits2_le; lia).
      assert (Hy : (Zpos ay < 2 ^ Zdigits2 (Zpos ay))%Z)
        by (apply Zdigits2_le; lia).
      rewrite Dx, Hdx in Hx. rewrite Dy, Hdy in Hy.
      assert (Hmx : (2 ^ (53 + (ex - ez)) <= 2 ^ (53 + Z.max ex ey - ez))%Z)
        by (apply Z.pow_le_mono_r; unfold ez; lia).
      assert (Hmy : (2 ^ (53 + (ey - ez)) <= 2 ^ (53 + Z.max ex ey - ez))%Z)
        by (apply Z.pow_le_mono_r; unfold ez; lia).
      replace (54 + Z.max ex ey - ez)%Z
        with (Z.succ (53 + Z.max ex ey - ez))%Z by lia.
      rewrite Z.pow_succ_r by (unfold ez; lia).
      change (Zpos (ax + ay)) with (Zpos ax + Zpos ay)%Z. lia. }
  split.
  - destruct (binary_round_normal false (ax + ay) ez)
      as [p [e' [Er [Hp He']]]]; try lia.
    exists p, e'. split; [exact Er|]. split; [exact Hp|]. lia.
  - apply binary_round_scale; lia.
Qed.

End AddScale.

Section DivScale.
Import IEEE.

Variables lo hi ylo yhi j : Z.
Hypothesis Hlo : (-1074 <= lo - yhi - 53)%Z.
Hypothesis Hloj : (-1074 <= lo - yhi - 53 + j)%Z.
Hypothesis Hhi : (hi - ylo - 51 <= 971)%Z.
Hypothesis Hhij : (hi - ylo - 51 + j <= 971)%Z.

Lemma div_core_normal mx ex my ey :
  Zdigits2 (Zpos mx) = 53%Z -> Zdigits2 (Zpos my) = 53%Z ->
  (lo <= ex <= hi)%Z -> (ylo <= ey <= yhi)%Z ->
  exists q l,
    (0 < q)%Z /\ (53 <= Zdigits2 q <= 54)%Z /\
    SFdiv_core_binary prec emax (Zpos mx) ex (Zpos my) ey
      = (q, (ex - ey - 53)%Z, l) /\
    SFdiv_core_binary prec emax (Zpos mx) (ex + j) (Zpos my) ey
      = (q, (ex - ey - 53 + j)%Z, l).
Proof.
  intros Hdx Hdy Hex Hey.
  unfold SFdiv_core_binary. rewrite Hdx, Hdy. unfold fexp.
  change (SpecFloat.emin prec emax) with (-1074)%Z. change prec with 53%Z.
  replace (53 + ex - (53 + ey) - 53)%Z with (ex - ey - 53)%Z by lia.
  replace (53 + (ex + j) - (53 + ey) - 53)%Z with (ex - ey - 53 + j)%Z by lia.
  rewrite !Z.max_l by lia.
  rewrite !Z.min_l by lia.
  replace (ex - ey - (ex - ey - 53))%Z with 53%Z by lia.
  replace (ex + j - ey - (ex - ey - 53 + j))%Z with 53%Z by lia.
  cbv zeta. cbv iota beta.
  pose proof (Z_div_mod (Z.shiftl (Zpos mx) 53) (Zpos my) ltac:(lia)) as Hdm.
  destruct (Z.div_eucl (Z.shiftl (Zpos mx) 53) (Zpos my)) as [q r].
  destruct Hdm as [Eq Hr].
  rewrite Z.shiftl_mul_pow2 in Eq by lia.
  pose proof (proj1 (Zdigits2_pos_bounds (Zpos mx) 53 ltac:(lia)) Hdx) as [X1 X2].
  pose proof (proj1 (Zdigits2_pos_bounds (Zpos my) 53 ltac:(lia)) Hdy) as [Y1 Y2].
  change (2 ^ (53 - 1))%Z with 4503599627370496%Z in X1, Y1.
  change (2 ^ 53)%Z with 9007199254740992%Z in X2, Y2, Eq.
  assert (Hq1 : (4503599627370496 <= q)%Z).
  { destruct (Z_lt_le_dec q 4503599627370496) as [Hlt|Hge]; [|exact Hge].
    exfalso.
    assert (Zpos my * q <= Zpos my * 4503599627370495)%Z
      by (apply Z.mul_le_mono_nonneg_l; lia).
    lia. }
  assert (Hq2 : (q < 18014398509481984)%Z).
  { destruct (Z_lt_le_dec q 18014398509481984) as [Hlt|Hge]; [exact Hlt|].
    exfalso.
    assert (Zpos my * 18014398509481984 <= Zpos my * q)%Z
      by (apply Z.mul_le_mono_nonneg_l; lia).
    lia. }
  exists q, (new_location (Zpos my) r).
  split; [lia|]. split; [|split; reflexivity].
  split.
  - apply Zdigits2_ge; [lia|]. exact Hq1.
  - apply Zdigits2_le; [lia|]. exact Hq2.
Qed.

Lemma div_normal x y :
  normal lo hi x -> normal ylo yhi y ->
  normal (lo - yhi - 53) (hi - ylo - 51) (div x y) /\
  div (scale2 j x) y = scale2 j (div x y).
Proof.
  intros [mx [ex [-> [Hdx Hex]]]] [my [ey [-> [Hdy Hey]]]].
  unfold div, SFdiv, scale2. cbn [xorb].
  destruct (div_core_normal mx ex my ey Hdx Hdy Hex Hey)
    as [q [l [Hq [Hdq [E Ej]]]]].
  rewrite E, Ej.
  split.
  - destruct (binary_round_aux_normal false q (ex - ey - 53) l)
      as [p [e' [Er [Hp He']]]]; try lia.
    exists p, e'. split; [exact Er|]. split; [exact Hp|]. lia.
  - destruct (binary_round_aux_normal false q (ex - ey - 53) l)
      as [p [e' [Er [Hp He']]]]; try lia.
    apply binary_round_aux_scale; try lia; rewrite Er; cbn; lia.
Qed.

End DivScale.

Section Steady.
Import IEEE.

Lemma normal_weaken lo hi lo' hi' x :
  (lo' <= lo)%Z -> (hi <= hi')%Z -> normal lo hi x -> normal lo' hi' x.
Proof.
  intros H1 H2 [m [e [E [Hd He]]]]. exists m, e. repeat split; auto; lia.
Qed.

Lemma steady_weaken lo hi lo' hi' x :
  (lo' <= lo)%Z -> (hi <= hi')%Z -> steady lo hi x -> steady lo' hi' x.
Proof.
  intros H1 H2 [E|N]; [now left | right; eapply normal_weaken; eauto].
Qed.

Lemma add_steady lo hi j x y :
  (-1074 <= lo)%Z -> (-1074 <= lo + j)%Z ->
  (hi + 2 <= 971)%Z -> (hi + 2 + j <= 971)%Z ->
  steady lo hi x -> steady lo hi y ->
  steady lo (hi + 2) (add x y) /\
  add (scale2 j x) (scale2 j y) = scale2 j (add x y).
Proof.
  intros H1 H2 H3 H4 [->|Nx] [->|Ny].
  - split; [now left | reflexivity].
  - destruct Ny as [m [e [-> [Hd He]]]]. split; [|reflexivity].
    right. exists m, e. repeat split; auto; lia.
  - destruct Nx as [m [e [-> [Hd He]]]]. split; [|reflexivity].
    right. exists m, e. repeat split; auto; lia.
  - destruct (add_normal lo hi j H1 H2 H3 H4 x y Nx Ny) as [N E].
    split; [now right | exact E].
Qed.

Lemma div_steady lo hi ylo yhi j x y :
  (-1074 <= lo - yhi - 53)%Z -> (-1074 <= lo - yhi - 53 + j)%Z ->
  (hi - ylo - 51 <= 971)%Z -> (hi - ylo - 51 + j <= 971)%Z ->
  steady lo hi x -> normal ylo yhi y ->
  steady (lo - yhi - 53) (hi - ylo - 51) (div x y) /\
  div (scale2 j x) y = scale2 j (div x y).
Proof.
  intros H1 H2 H3 H4 [->|Nx] Ny.
  - destruct Ny as [m [e [-> _]]]. split; [now left | reflexivity].
  - destruct (div_normal lo hi ylo yhi j H1 H2 H3 H4 x y Nx Ny) as [N E].
    split; [now right | exact E].
Qed.

Lemma of_Z_normal n :
  (0 < n < 2 ^ 53)%Z -> normal (-52) 1 (of_Z n).
Proof.
  intros [H0 H1]. destruct n as [|p|p]; try lia.
  unfold of_Z. cbn [binary_normalize].
  assert (Hd : (1 <= Zdigits2 (Zpos p) <= 53)%Z).
  { split; [apply Zdigits2_ge; cbn; lia | apply Zdigits2_le; lia]. }
  destruct (binary_round_normal false p 0) as [q [e' [Er [Hq He']]]]; try lia.
  exists q, e'. split; [exact Er|]. split; [exact Hq|]. lia.
Qed.

End Steady.

Lemma split_point n :
  (128 < n)%nat -> (1 <= n / 2 - (n / 2) mod 8 <= n - 1)%nat.
Proof.
  intros H.
  pose proof (Nat.mod_upper_bound (n / 2) 8 ltac:(lia)) as H1.
  pose proof (Nat.div_le_lower_bound n 2 64 ltac:(lia) ltac:(lia)) as H2.
  pose proof (Nat.div_lt n 2 ltac:(lia) ltac:(lia)) as H3.
  lia.
Qed.

(** ** numpy's sum and a power of two *)

Section SumScale.
Import IEEE.

Variables lo top j : Z.
Hypothesis Hlo : (-1074 <= lo)%Z.
Hypothesis Hloj : (-1074 <= lo + j)%Z.
Hypothesis Htop : (top <= 971)%Z.
Hypothesis Htopj : (top + j <= 971)%Z.


Lemma room_weaken k k' x : (k' <= k)%nat -> room lo top k x -> room lo top k' x.
Proof. intros H. apply steady_weaken; lia. Qed.

Lemma room_weaken_all k k' l :
  (k' <= k)%nat -> Forall (room lo top k) l -> Forall (room lo top k') l.
Proof. intros H. apply Forall_impl. intros x. now apply room_weaken. Qed.

Lemma room_zero k : room lo top k zero.
Proof. now left. Qed.

Lemma room_add k x y :
  room lo top (S k) x -> room lo top (S k) y ->
  room lo top k (add x y) /\ add (scale2 j x) (scale2 j y) = scale2 j (add x y).
Proof.
  intros Hx Hy.
  destruct (add_steady lo (top - 2 * Z.of_nat (S k)) j x y) as [N E];
    try lia; try assumption.
  split; [|exact E]. eapply steady_weaken; [| |exact N]; lia.
Qed.

Lemma room_fold_add a : forall acc k,
  room lo top (k + length a) acc -> Forall (room lo top (k + length a)) a ->
  room lo top k (fold_left add a acc) /\
  fold_left add (map (scale2 j) a) (scale2 j acc)
  = scale2 j (fold_left add a acc).
Proof.
  induction a as [|x a IH]; intros acc k Hacc Ha.
  - cbn in *. rewrite Nat.add_0_r in Hacc. split; [exact Hacc|reflexivity].
  - inversion Ha as [|? ? Hx Ha']; subst. cbn [length] in *.
    rewrite Nat.add_succ_r in *.
    destruct (room_add _ _ _ Hacc Hx) as [Hs Es].
    cbn [map fold_left]. rewrite Es.
    apply IH; [exact Hs|]. eapply room_weaken_all; [|exact Ha']. lia.
Qed.

Lemma room_add_lanes r : forall a k,
  Forall (room lo top (S k)) r -> Forall (room lo top (S k)) a ->
  Forall (room lo top k) (add_lanes r a) /\
  length (add_lanes r a) = length r /\
  add_lanes (map (scale2 j) r) (map (scale2 j) a)
  = map (scale2 j) (add_lanes r a).
Proof.
  induction r as [|x r IH]; intros a k Hr Ha.
  - split; [constructor|]. split; reflexivity.
  - destruct a as [|y a].
    + split; [eapply room_weaken_all; [|exact Hr]; lia|]. split; reflexivity.
    + inversion Hr as [|? ? Hx Hr']; subst.
      inversion Ha as [|? ? Hy Ha']; subst.
      destruct (room_add _ _ _ Hx Hy) as [Hs Es].
      destruct (IH a k Hr' Ha') as [H1 [H2 H3]].
      cbn [add_lanes map length]. rewrite Es, H3, H2.
      split; [constructor; assumption|]. split; reflexivity.
Qed.

Lemma Forall_firstn_skipn {A} (P : A -> Prop) n l :
  Forall P l -> Forall P (firstn n l) /\ Forall P (skipn n l).
Proof.
  intros H. rewrite <- (firstn_skipn n l) in H.
  now apply Forall_app in H.
Qed.

Lemma room_unrolled b : forall r a k,
  Forall (room lo top (k + length a)) r -> Forall (room lo top (k + length a)) a ->
  Forall (room lo top (k + length (snd (unrolled b r a)))) (fst (unrolled b r a)) /\
  Forall (room lo top (k + length (snd (unrolled b r a)))) (snd (unrolled b r a)) /\
  length (fst (unrolled b r a)) = length r /\
  unrolled b (map (scale2 j) r) (map (scale2 j) a)
  = (map (scale2 j) (fst (unrolled b r a)),
     map (scale2 j) (snd (unrolled b r a))).
Proof.
  induction b as [|b IH]; intros r a k Hr Ha.
  - cbn. repeat split; assumption.
  - cbn [unrolled]. rewrite length_map.
    destruct (8 <=? length a)%nat eqn:E.
    + apply Nat.leb_le in E.
      destruct (Forall_firstn_skipn _ 8 a Ha) as [Ha1 Ha2].
      assert (Hf : Forall (room lo top (S (k + (length a - 8)))) (firstn 8 a))
        by (eapply room_weaken_all; [|exact Ha1]; lia).
      assert (Hr1 : Forall (room lo top (S (k + (length a - 8)))) r)
        by (eapply room_weaken_all; [|exact Hr]; lia).
      destruct (room_add_lanes r (firstn 8 a) _ Hr1 Hf) as [H1 [H2 H3]].
      assert (Hs : Forall (room lo top (k + length (skipn 8 a))) (skipn 8 a))
        by (rewrite length_skipn; eapply room_weaken_all; [|exact Ha2]; lia).
      rewrite <- length_skipn in H1.
      destruct (IH _ _ k H1 Hs) as [I1 [I2 [I3 I4]]].
      rewrite firstn_map, skipn_map, H3.
      split; [exact I1|]. split; [exact I2|]. split; [congruence|exact I4].
    + cbn [fst snd]. repeat split; assumption.
Qed.

Lemma room_reduce_lanes r k :
  length r = 8%nat -> Forall (room lo top (3 + k)) r ->
  room lo top k (reduce_lanes r) /\
  reduce_lanes (map (scale2 j) r) = scale2 j (reduce_lanes r).
Proof.
  intros Hlen Hr.
  destruct r as [|r0 [|r1 [|r2 [|r3 [|r4 [|r5 [|r6 [|r7 [|]]]]]]]]];
    try discriminate Hlen.
  repeat match goal with
         | H : Forall _ (_ :: _) |- _ => inversion H; subst; clear H
         end.
  cbn [reduce_lanes map].
  destruct (room_add (2 + k) r0 r1) as [A01 E01]; try assumption.
  destruct (room_add (2 + k) r2 r3) as [A23 E23]; try assumption.
  destruct (room_add (2 + k) r4 r5) as [A45 E45]; try assumption.
  destruct (room_add (2 + k) r6 r7) as [A67 E67]; try assumption.
  destruct (room_add (1 + k) _ _ A01 A23) as [A03 E03].
  destruct (room_add (1 + k) _ _ A45 A67) as [A47 E47].
  destruct (room_add k _ _ A03 A47) as [A E].
  rewrite E01, E23, E45, E67, E03, E47, E.
  split; [exact A|reflexivity].
Qed.

Lemma pairwise_sum_unfold depth a :
  pairwise_sum depth a =
    if (length a <? 8)%nat then fold_left add a zero
    else if (length a <=? 128)%nat then
      fold_left add (snd (unrolled (length a) (firstn 8 a) (skipn 8 a)))
        (reduce_lanes (fst (unrolled (length a) (firstn 8 a) (skipn 8 a))))
    else
      match depth with
      | O => NaN
      | S depth' =>
          let n2 := (length a / 2 - (length a / 2) mod 8)%nat in
          add (pairwise_sum depth' (firstn n2 a))
              (pairwise_sum depth' (skipn n2 a))
      end.
Proof.
  destruct depth; cbn [pairwise_sum];
    destruct (unrolled (length a) (firstn 8 a) (skipn 8 a)); reflexivity.
Qed.

Lemma room_pairwise_sum depth : forall a k,
  (length a <= 128 + depth)%nat ->
  Forall (room lo top (k + length a)) a ->
  room lo top k (pairwise_sum depth a) /\
  pairwise_sum depth (map (scale2 j) a) = scale2 j (pairwise_sum depth a).
Proof.
  induction depth as [|depth IH]; intros a k Hlen Ha;
    rewrite !pairwise_sum_unfold, length_map.
  - destruct (Nat.ltb_spec (length a) 8) as [L8|G8].
    + apply room_fold_add; [apply room_zero | exact Ha].
    + destruct (Nat.leb_spec (length a) 128) as [L128|G128]; [|lia].
      rewrite firstn_map, skipn_map.
      destruct (Forall_firstn_skipn _ 8 a Ha) as [Ha1 Ha2].
      assert (Hl : length (skipn 8 a) = (length a - 8)%nat)
        by apply length_skipn.
      destruct (room_unrolled (length a) (firstn 8 a) (skipn 8 a) (3 + k))
        as [U1 [U2 [U3 U4]]];
        try (eapply room_weaken_all; [|eassumption]; lia).
      rewrite U4. cbn [fst snd].
      rewrite length_firstn in U3.
      assert (U3' : length (fst (unrolled (length a) (firstn 8 a) (skipn 8 a)))
                    = 8%nat) by lia.
      destruct (room_reduce_lanes _
                  (k + length (snd (unrolled (length a) (firstn 8 a) (skipn 8 a))))
                  U3') as [R1 R2].
      { eapply room_weaken_all; [|exact U1]. lia. }
      rewrite R2. apply room_fold_add; [exact R1|].
      eapply room_weaken_all; [|exact U2]. lia.
  - destruct (Nat.ltb_spec (length a) 8) as [L8|G8].
    + apply room_fold_add; [apply room_zero | exact Ha].
    + destruct (Nat.leb_spec (length a) 128) as [L128|G128].
      * rewrite firstn_map, skipn_map.
        destruct (Forall_firstn_skipn _ 8 a Ha) as [Ha1 Ha2].
        assert (Hl : length (skipn 8 a) = (length a - 8)%nat)
          by apply length_skipn.
        destruct (room_unrolled (length a) (firstn 8 a) (skipn 8 a) (3 + k))
          as [U1 [U2 [U3 U4]]];
          try (eapply room_weaken_all; [|eassumption]; lia).
        rewrite U4. cbn [fst snd].
        rewrite length_firstn in U3.
        assert (U3' : length (fst (unrolled (length a) (firstn 8 a) (skipn 8 a)))
                      = 8%nat) by lia.
        destruct (room_reduce_lanes _
                    (k + length (snd (unrolled (length a) (firstn 8 a) (skipn 8 a))))
                    U3') as [R1 R2].
        { eapply room_weaken_all; [|exact U1]. lia. }
        rewrite R2. apply room_fold_add; [exact R1|].
        eapply room_weaken_all; [|exact U2]. lia.
      * cbv zeta. pose proof (split_point (length a) G128) as Hn2.
        set (n2 := (length a / 2 - (length a / 2) mod 8)%nat) in *.
        rewrite firstn_map, skipn_map.
        destruct (Forall_firstn_skipn _ n2 a Ha) as [Ha1 Ha2].
        assert (L1 : length (firstn n2 a) = n2)
          by (rewrite length_firstn; lia).
        assert (L2 : length (skipn n2 a) = (length a - n2)%nat)
          by apply length_skipn.
        destruct (IH (firstn n2 a) (S k)) as [P1 Q1]; [lia| |].
        { eapply room_weaken_all; [|exact Ha1]. lia. }
        destruct (IH (skipn n2 a) (S k)) as [P2 Q2]; [lia| |].
        { eapply room_weaken_all; [|exact Ha2]. lia. }
        rewrite Q1, Q2. apply room_add; assumption.
Qed.

Lemma room_sum a k :
  Forall (room lo top (S (k + length a))) a ->
  room lo top k (sum a) /\ sum (map (scale2 j) a) = scale2 j (sum a).
Proof.
  intros Ha. unfold sum. rewrite length_map.
  destruct (room_pairwise_sum (length a) a (S k)) as [P Q]; [lia| |].
  { eapply room_weaken_all; [|exact Ha]. lia. }
  rewrite Q.
  change (add zero (scale2 j (pairwise_sum (length a) a)))
    with (add (scale2 j zero) (scale2 j (pairwise_sum (length a) a))).
  apply room_add; [apply room_zero | exact P].
Qed.

End SumScale.

(** ** The value before rounding and a power of two *)

Section HalfSum.
Import IEEE.

Lemma moderate_steady x : moderate x = true -> steady (-900) 0 x.
Proof.
  destruct x as [[]|s| |[] m e]; try discriminate; intros H.
  - now left.
  - unfold moderate in H. apply andb_prop in H. destruct H as [H H3].
    apply andb_prop in H. destruct H as [H1 H2].
    apply Z.eqb_eq in H1. apply Z.leb_le in H2, H3.
    right. exists m, e. split; [reflexivity|]. split; [exact H1|lia].
Qed.

Lemma steady_not_nan lo hi x : steady lo hi x -> is_nan x = false.
Proof. intros [->|[m [e [-> _]]]]; reflexivity. Qed.

Variable j : Z.
Hypothesis Hj : (-64 <= j <= 64)%Z.

Lemma half_sum_scale d maxDiff :
  (1 <= length d < 450)%nat ->
  Forall (fun x => moderate x = true) d ->
  In maxDiff d ->
  let mean l := div (sum (zero :: l)) (of_Z (Z.of_nat (length l))) in
  mean (map (scale2 j) d) = scale2 j (mean d) /\
  div (add (scale2 j maxDiff) (scale2 j (mean d))) (of_Z 2)
  = scale2 j (div (add maxDiff (mean d)) (of_Z 2)).
Proof.
  intros Hn Hd Hin mean.
  set (top := (2 * Z.of_nat (S (S (length d))))%Z).
  assert (Hsteady : Forall (steady (-900) 0) d).
  { eapply Forall_impl; [|exact Hd]. apply moderate_steady. }
  assert (Hleaves : Forall (room (-900) top (S (0 + length (zero :: d))))
                      (zero :: d)).
  { constructor; [now left|].
    eapply Forall_impl; [|exact Hsteady]. intros x Hx.
    unfold room. eapply steady_weaken; [| |exact Hx]; unfold top;
      cbn [length]; lia. }
  destruct (room_sum (-900) top j ltac:(lia) ltac:(lia)
              ltac:(unfold top; lia) ltac:(unfold top; lia) _ 0%nat Hleaves)
    as [Hs Es].
  unfold room in Hs. cbn [Z.of_nat] in Hs.
  replace (top - 2 * 0)%Z with top in Hs by lia.
  assert (Hcount : normal (-52) 1 (of_Z (Z.of_nat (length d)))).
  { apply of_Z_normal. split; [lia|].
    apply (Z.lt_trans _ 450); [lia|reflexivity]. }
  destruct (div_steady (-900) top (-52) 1 j _ _
              ltac:(lia) ltac:(lia) ltac:(unfold top; lia)
              ltac:(unfold top; lia) Hs Hcount) as [Hm Em].
  fold (mean d) in Hm, Em.
  assert (Emean : mean (map (scale2 j) d) = scale2 j (mean d)).
  { unfold mean at 1. rewrite length_map.
    change (zero :: map (scale2 j) d) with (map (scale2 j) (zero :: d)).
    rewrite Es. exact Em. }
  split; [exact Emean|].
  assert (Hmax : steady (-900 - 1 - 53) (top - -52 - 51) maxDiff).
  { eapply steady_weaken;
      [| |apply (proj1 (Forall_forall _ _) Hsteady), Hin];
      unfold top; lia. }
  destruct (add_steady (-900 - 1 - 53) (top - -52 - 51) j _ _
              ltac:(lia) ltac:(lia) ltac:(unfold top; lia)
              ltac:(unfold top; lia) Hmax Hm) as [Ha Ea].
  rewrite Ea.
  assert (Htwo : normal (-52) 1 (of_Z 2))
    by (apply of_Z_normal; split; [lia|reflexivity]).
  apply (div_steady (-900 - 1 - 53) (top - -52 - 51 + 2) (-52) 1 j _ _
           ltac:(lia) ltac:(lia) ltac:(unfold top; lia)
           ltac:(unfold top; lia) Ha Htwo).
Qed.

End HalfSum.

(** ** numpy's sum keeps what addition keeps *)

Section Closed.
Import IEEE.

Variable P : double -> Prop.
Hypothesis Pzero : P zero.
Hypothesis Padd : forall x y, P x -> P y -> P (add x y).

Lemma fold_add_closed a : forall acc,
  P acc -> Forall P a -> P (fold_left add a acc).
Proof.
  induction a as [|x a IH]; intros acc Hacc Ha; [exact Hacc|].
  inversion Ha as [|? ? Hx Ha']; subst. cbn [fold_left]. apply IH; auto.
Qed.

Lemma add_lanes_closed r : forall a,
  Forall P r -> Forall P a ->
  Forall P (add_lanes r a) /\ length (add_lanes r a) = length r.
Proof.
  induction r as [|x r IH]; intros a Hr Ha; [split; [constructor|reflexivity]|].
  destruct a as [|y a]; [split; [exact Hr|reflexivity]|].
  inversion Hr as [|? ? Hx Hr']; subst. inversion Ha as [|? ? Hy Ha']; subst.
  destruct (IH a Hr' Ha') as [I1 I2].
  cbn [add_lanes length]. split; [constructor; auto | congruence].
Qed.

Lemma unrolled_closed b : forall r a,
  Forall P r -> Forall P a ->
  Forall P (fst (unrolled b r a)) /\ Forall P (snd (unrolled b r a)) /\
  length (fst (unrolled b r a)) = length r.
Proof.
  induction b as [|b IH]; intros r a Hr Ha; [cbn; auto|].
  cbn [unrolled]. destruct (8 <=? length a)%nat; [|cbn; auto].
  destruct (Forall_firstn_skipn P 8 a Ha) as [H1 H2].
  destruct (add_lanes_closed r (firstn 8 a) Hr H1) as [L1 L2].
  destruct (IH _ _ L1 H2) as [I1 [I2 I3]].
  split; [exact I1|]. split; [exact I2|congruence].
Qed.

Lemma reduce_lanes_closed r :
  length r = 8%nat -> Forall P r -> P (reduce_lanes r).
Proof.
  intros Hlen Hr.
  destruct r as [|r0 [|r1 [|r2 [|r3 [|r4 [|r5 [|r6 [|r7 [|]]]]]]]]];
    try discriminate Hlen.
  repeat match goal with
         | H : Forall _ (_ :: _) |- _ => inversion H; subst; clear H
         end.
  cbn [reduce_lanes]. repeat apply Padd; assumption.
Qed.

Lemma pairwise_sum_closed depth : forall a,
  (length a <= 128 + depth)%nat -> Forall P a -> P (pairwise_sum depth a).
Proof.
  induction depth as [|depth IH]; intros a Hlen Ha;
    rewrite pairwise_sum_unfold;
    (destruct (Nat.ltb_spec (length a) 8) as [L8|G8];
     [apply fold_add_closed; assumption|]);
    (destruct (Nat.leb_spec (length a) 128) as [L128|G128];
     [destruct (Forall_firstn_skipn P 8 a Ha) as [H1 H2];
      destruct (unrolled_closed (length a) _ _ H1 H2) as [U1 [U2 U3]];
      rewrite length_firstn in U3;
      apply fold_add_closed; [apply reduce_lanes_closed; [lia|exact U1]|exact U2]
     |]); [lia|].
  cbv zeta. pose proof (split_point (length a) G128) as Hn2.
  set (n2 := (length a / 2 - (length a / 2) mod 8)%nat) in *.
  destruct (Forall_firstn_skipn P n2 a Ha) as [H1 H2].
  apply Padd; apply IH; try assumption.
  - rewrite length_firstn. lia.
  - rewrite length_skipn. lia.
Qed.

Lemma sum_closed a : Forall P a -> P (sum a).
Proof.
  intros Ha. unfold sum. apply Padd; [exact Pzero|].
  apply pairwise_sum_closed; [lia|exact Ha].
Qed.

End Closed.

(** ** Operations on doubles that are not negative *)

Section Sign.
Import IEEE.










Lemma sub_self x : is_finite x = true -> sub x x = zero.
Proof.
  destruct x as [[]|[]| |s m e]; try discriminate; try reflexivity.
  intros _. unfold sub, SFsub. rewrite Z.sub_diag. reflexivity.
Qed.

Lemma div_zero_normal lo hi y : normal lo hi y -> div zero y = zero.
Proof. intros [my [ey [-> _]]]. reflexivity. Qed.

End Sign.

(** ** The returned value from the differences *)

Section FloatFacts.
Import IEEE.


Lemma d_constant c l :
  is_finite c = true -> Forall (fun y => y = c) l ->
  Forall (fun x => x = zero) (d (c :: l)).
Proof.
  intros Hc Hl. rewrite double_d_cons.
  induction Hl as [|y l -> Hl IH]; [constructor|].
  cbn [diff_from abs map]. constructor; [|exact IH].
  now rewrite sub_self.
Qed.

(** The returned value, from the differences of a column in which none of
    them is NaN. *)
Lemma index_expr_d x l :
  Forall (fun y => is_nan y = false) (d (x :: l)) ->
  d (x :: l) <> [] ->
  index_expr (x :: l) =
    round (div (add (max (NaN :: d (x :: l)))
                    (div (sum (zero :: d (x :: l)))
                         (of_Z (Z.of_nat (length (d (x :: l)))))))
               (of_Z 2)) 2 /\
  is_max (max (NaN :: d (x :: l))) (d (x :: l)).
Proof.
  intros Hnan Hne.
  destruct (double_diff_column x l Hnan) as [Hdrop Hfill].
  unfold index_expr, mean. rewrite Hdrop, Hfill, double_abs_diff.
  destruct (d (x :: l)) as [|y t] eqn:E; [congruence|].
  split; [reflexivity|].
  unfold max. change (dropna (NaN :: y :: t)) with (dropna (y :: t)).
  rewrite (dropna_all _ Hnan).
  now apply fold_max_is_max_double.
Qed.

End FloatFacts.

(** * The claims *)



(** Series whose half-sum is, in exact arithmetic, halfway between two
    hundredths; the doubles decide.  [1000.3, 1000.2, 1000.2] gives [0.07]
    and [1000.1, 1000.0, 1000.0] gives [0.08], though both fall by a tenth;
    eleven readings with one rise of [0.9] give [0.49], hence STABLE; the
    double nearest to [0.495], just below it, is taken to [0.5] because its
    product with [100] already rounds to [49.5].  The example series gives
    the double [0.9]. *)
Lemma index_near_ties :
  IEEE.index_expr falling_from_1000_3 = IEEE.decimal 7 2 /\
  IEEE.index_expr falling_from_1000_1 = IEEE.decimal 8 2 /\
  IEEE.index_expr one_rise = IEEE.decimal 49 2 /\
  IEEE.V03.tier (IEEE.decimal 49 2) = STABLE /\
  IEEE.index_expr [IEEE.zero; IEEE.decimal 495 3] = IEEE.decimal 5 1 /\
  IEEE.V03.tier (IEEE.decimal 5 1) = MODERATE /\
  IEEE.index_expr example_doubles = IEEE.decimal 9 1 /\
  IEEE.V03.tier (IEEE.decimal 9 1) = MODERATE.
Proof. vm_compute. repeat split. Qed.

(** In exact arithmetic the first two of these series both have the
    half-sum [0.075], which rounds to the even neighbour [0.08]: the exact
    model agrees with the doubles on the second and not on the first.  This
    is why what the function returns is stated over doubles. *)
Lemma exact_arithmetic_at_ties :
  index_expr (map num [1000.3; 1000.2; 1000.2]) = num (2 # 25) /\
  index_expr (map num [1000.1; 1000; 1000]) = num (2 # 25) /\
  IEEE.index_expr falling_from_1000_3 <> IEEE.index_expr falling_from_1000_1.
Proof.
  split; [reflexivity|]. split; [reflexivity|].
  vm_compute. intros H. discriminate H.
Qed.

(** C2.  The tier branch, for every index value: an index below [0.5] is
    STABLE, an index from [0.5] up to but excluding [1.5] is MODERATE, an
    index of [1.5] or more is HIGH; exactly [0.5] is MODERATE and exactly
    [1.5] is HIGH.  The three tiers do not overlap and leave no gap: STABLE
    and MODERATE are shown for nothing else, and HIGH for nothing else but
    NaN.  Both source versions. *)
Theorem tier_thresholds :
  forall index : float64,
    (Spec.lt index (num 0.5) <-> V03.tier index = STABLE) /\
    (Spec.le (num 0.5) index /\ Spec.lt index (num 1.5)
       <-> V03.tier index = MODERATE) /\
    (Spec.le (num 1.5) index \/ index = NaN <-> V03.tier index = HIGH) /\
    V03.tier (num 0.5) = MODERATE /\
    V03.tier (num 1.5) = HIGH /\
    V04.tier index = V03.tier index.
Proof.
  intros index. change (V04.tier index) with (V03.tier index).
  split; [|split; [|split; [|repeat split; reflexivity]]].
  - rewrite <- flt_iff. unfold V03.tier.
    destruct (flt index (num 0.5)); [tauto|].
    destruct (flt index (num 1.5)); split; intros H; discriminate H.
  - unfold V03.tier. destruct index as [q|].
    + destruct (flt (Some q) (num 0.5)) eqn:E1;
        [apply flt_iff in E1 | apply flt_false_iff in E1];
        (destruct (flt (Some q) (num 1.5)) eqn:E2;
         [apply flt_iff in E2 | apply flt_false_iff in E2]);
        cbn [Spec.lt Spec.le num] in *; split; intros H; try discriminate H;
        try destruct H; auto; lra.
    + simpl. split; [tauto | intros H; discriminate H].
  - unfold V03.tier. destruct index as [q|].
    + destruct (flt (Some q) (num 0.5)) eqn:E1;
        [apply flt_iff in E1 | apply flt_false_iff in E1];
        (destruct (flt (Some q) (num 1.5)) eqn:E2;
         [apply flt_iff in E2 | apply flt_false_iff in E2]);
        cbn [Spec.lt Spec.le num] in *; split; intros H; try discriminate H;
        try destruct H as [H | H]; try discriminate H; auto; lra.
    + simpl. split; auto.
Qed.

(** C9.  The series [1000.0, 1000.2, 999.8, 1001.0]: the successive absolute
    differences are [0.2, 0.4, 1.2], their maximum is [1.2], their mean is
    [0.6], the returned index is [0.9] and its tier is MODERATE. *)
Theorem example_hourly_series :
  Forall2 Qeq (Spec.d example_pressure) [0.2; 0.4; 1.2] /\
  Spec.maxDiff (Spec.d example_pressure) == 1.2 /\
  Spec.meanDiff (Spec.d example_pressure) == 0.6 /\
  snd (V03.compute_bitwalk_index example_frame) = Returned (num 0.9) /\
  snd (V04.compute_bitwalk_index example_frame) = Returned (num 0.9) /\
  V03.tier (num 0.9) = MODERATE /\
  V04.tier (num 0.9) = MODERATE.
Proof.
  split; [|repeat split].
  repeat constructor; vm_compute; reflexivity.
Qed.

(** C10.  The two source versions compute the same thing: on every frame
    they leave the same frame behind (the same ['diff'] and ['dpdt'] columns
    added) and have the same outcome, and their tier branches agree. *)
Theorem v03_v04_equivalent :
  forall df : DataFrame,
    V03.compute_bitwalk_index df = V04.compute_bitwalk_index df /\
    forall index : float64, V03.tier index = V04.tier index.
Proof.
  intros df. split.
  - symmetry. apply V04_same.
  - intros index. reflexivity.
Qed.

(** C3, as stated, fails: the call changes the caller's frame.  The
    example frame comes in with the ['pressure'] column only and is left with
    three columns. *)
Lemma compute_mutates_frame :
  fst (V03.compute_bitwalk_index example_frame) <> example_frame /\
  fst (V04.compute_bitwalk_index example_frame) <> example_frame /\
  length (columns example_frame) = 1%nat /\
  length (columns (fst (V03.compute_bitwalk_index example_frame))) = 3%nat.
Proof.
  split; [|split; [|split; reflexivity]];
    intros H; apply (f_equal (fun df => length (columns df))) in H;
    discriminate H.
Qed.

(** C3, amended.  The returned value is a function of the ['pressure']
    column alone, and the call leaves ['time'], ['pressure'] and every column
    other than ['diff'] and ['dpdt'] as they were; its side effect is to
    store [pressure.diff().abs()] in ['diff'] and [pressure.diff()] in
    ['dpdt'] of the caller's frame, and a second call changes nothing more
    and returns the same value. *)
Theorem compute_frame_effect :
  forall (df : DataFrame) (p : Series),
    lookup "pressure" (columns df) = Some p ->
    let df' := fst (V03.compute_bitwalk_index df) in
    snd (V03.compute_bitwalk_index df) = Returned (index_expr p) /\
    time df' = time df /\
    lookup "pressure" (columns df') = Some p /\
    (forall k, k <> "diff" -> k <> "dpdt" ->
               lookup k (columns df') = lookup k (columns df)) /\
    lookup "diff" (columns df') = Some (abs (diff p)) /\
    lookup "dpdt" (columns df') = Some (diff p) /\
    V03.compute_bitwalk_index df' = (df', Returned (index_expr p)) /\
    V04.compute_bitwalk_index df = V03.compute_bitwalk_index df.
Proof.
  intros df p Hp df'. unfold df'.
  change (V04.compute_bitwalk_index df) with (V03.compute_bitwalk_index df).
  rewrite (V03_run df p Hp). cbn [fst snd].
  assert (Hp' : lookup "pressure" (columns_after p (columns df)) = Some p).
  { rewrite columns_after_other by discriminate. exact Hp. }
  repeat split.
  - exact Hp'.
  - intros k H1 H2. now apply columns_after_other.
  - apply columns_after_diff.
  - apply columns_after_dpdt.
  - rewrite (V03_run _ p) by exact Hp'. cbn [time columns].
    now rewrite columns_after_again.
Qed.

(** The example frame has a ['pressure'] column, and gets its ['dpdt']. *)
Lemma compute_frame_effect_witness :
  lookup "pressure" (columns example_frame) = Some (map num example_pressure) /\
  lookup "dpdt" (columns (fst (V03.compute_bitwalk_index example_frame))) =
    Some (diff (map num example_pressure)).
Proof.
  assert (H : lookup "pressure" (columns example_frame)
              = Some (map num example_pressure)) by reflexivity.
  split; [exact H|].
  exact (proj1 (proj2 (proj2 (proj2 (proj2 (proj2
    (compute_frame_effect example_frame _ H))))))).
Defined.




(** C5, as stated, fails: a series whose timestamps run backwards raises
    nothing and gets an index like any other. *)
Lemma unordered_series_does_not_raise :
  Spec.nondecreasing (time unordered_frame) = false /\
  ~ raises (V03.compute_bitwalk_index unordered_frame) /\
  ~ raises (V04.compute_bitwalk_index unordered_frame) /\
  snd (V03.compute_bitwalk_index unordered_frame) = Returned (num 1).
Proof.
  split; [reflexivity|].
  split; [intros [e He]; discriminate He|].
  split; [intros [e He]; discriminate He|].
  reflexivity.
Qed.

(** C5, amended.  The call never looks at the timestamps: whatever the
    ['time'] column holds, in order or not, the outcome (the index returned,
    or the exception raised) and the columns left behind are the same, and
    the ['time'] column is untouched.  So no outcome depends on the order of
    the timestamps.  Both source versions. *)
Theorem compute_ignores_time :
  forall (ts ts' : list Z) (cs : list (string * Series)),
    let r := V03.compute_bitwalk_index (mkDataFrame ts cs) in
    let r' := V03.compute_bitwalk_index (mkDataFrame ts' cs) in
    snd r = snd r' /\
    columns (fst r) = columns (fst r') /\
    time (fst r) = ts /\
    V04.compute_bitwalk_index (mkDataFrame ts cs) = r.
Proof.
  intros ts ts' cs r r'. unfold r, r'.
  change (V04.compute_bitwalk_index (mkDataFrame ts cs))
    with (V03.compute_bitwalk_index (mkDataFrame ts cs)).
  destruct (lookup "pressure" cs) as [p|] eqn:Hp.
  - rewrite (V03_run (mkDataFrame ts cs) p), (V03_run (mkDataFrame ts' cs) p)
      by exact Hp.
    cbn [fst snd time columns].
    split; [reflexivity|]. split; [reflexivity|]. split; reflexivity.
  - rewrite (V03_keyerror (mkDataFrame ts cs)),
            (V03_keyerror (mkDataFrame ts' cs)) by exact Hp.
    cbn [fst snd time columns].
    split; [reflexivity|]. split; [reflexivity|]. split; reflexivity.
Qed.

(** C6, as stated, fails: the differences of [1000, 1000.0625] are a quarter
    of those of [1000, 1000.25], yet the indices are [0.06] and [0.25], and
    [0.06] is not a quarter of [0.25] (which is [0.0625], more than two
    decimals). *)
Lemma scaling_is_not_exact :
  0 < 1 # 4 /\
  Spec.scaled (1 # 4) (Spec.d quarter_step) (Spec.d sixteenth_step) /\
  snd (V03.compute_bitwalk_index (frame_of (hourly 2) (map num quarter_step)))
    = Returned (num (1 # 4)) /\
  snd (V03.compute_bitwalk_index (frame_of (hourly 2) (map num sixteenth_step)))
    = Returned (num (3 # 50)) /\
  ~ 3 # 50 == (1 # 4) * (1 # 4).
Proof.
  split; [reflexivity|].
  split; [repeat constructor; vm_compute; reflexivity|].
  split; [reflexivity|]. split; [reflexivity|].
  intros H. vm_compute in H. discriminate H.
Qed.

(** C6, amended.  In binary64, for a series of 2 to 450 readings whose
    successive differences are moderate (each [+0.0] or a normal double from
    [2^-848] up to [2^53]) and for [k = 2^j] with [-64 <= j <= 64]:
    when every successive difference of a second series is [k] times the
    matching difference of the first, then [maxDiff], [meanDiff] and the
    value before rounding, [(maxDiff + meanDiff) / 2], of the second series
    are exactly [k] times those of the first, with no rounding error.  The
    index returned for each series is its own value before rounding, rounded
    to 2 decimals; so the second index is [round(k * u, 2)], not
    [k * round(u, 2)]: equal for [k = 1], different in general.  Both source
    versions. *)
Theorem scaling_up_to_rounding :
  forall (j : Z) (df df' : IEEE.DataFrame) (ps ps' : list IEEE.double),
    IEEE.lookup "pressure" (IEEE.columns df) = Some ps ->
    IEEE.lookup "pressure" (IEEE.columns df') = Some ps' ->
    (2 <= length ps <= 450)%nat ->
    (-64 <= j <= 64)%Z ->
    Forall (fun x => IEEE.moderate x = true) (IEEE.d ps) ->
    IEEE.d ps' = map (IEEE.scale2 j) (IEEE.d ps) ->
    exists maxDiff meanDiff u r r' : IEEE.double,
      IEEE.is_max maxDiff (IEEE.d ps) /\
      IEEE.is_max (IEEE.scale2 j maxDiff) (IEEE.d ps') /\
      meanDiff = IEEE.div (IEEE.sum (IEEE.zero :: IEEE.d ps))
                          (IEEE.of_Z (Z.of_nat (length (IEEE.d ps)))) /\
      IEEE.scale2 j meanDiff
        = IEEE.div (IEEE.sum (IEEE.zero :: IEEE.d ps'))
                   (IEEE.of_Z (Z.of_nat (length (IEEE.d ps')))) /\
      u = IEEE.div (IEEE.add maxDiff meanDiff) (IEEE.of_Z 2) /\
      IEEE.scale2 j u
        = IEEE.div (IEEE.add (IEEE.scale2 j maxDiff) (IEEE.scale2 j meanDiff))
                   (IEEE.of_Z 2) /\
      IEEE.is_rint (IEEE.mul u (IEEE.of_Z 100)) r /\
      IEEE.is_rint (IEEE.mul (IEEE.scale2 j u) (IEEE.of_Z 100)) r' /\
      snd (IEEE.V03.compute_bitwalk_index df)
        = IEEE.Returned (IEEE.div r (IEEE.of_Z 100)) /\
      snd (IEEE.V03.compute_bitwalk_index df')
        = IEEE.Returned (IEEE.div r' (IEEE.of_Z 100)) /\
      snd (IEEE.V04.compute_bitwalk_index df)
        = IEEE.Returned (IEEE.div r (IEEE.of_Z 100)) /\
      snd (IEEE.V04.compute_bitwalk_index df')
        = IEEE.Returned (IEEE.div r' (IEEE.of_Z 100)) /\
      (j = 0%Z -> r' = r).
Proof.
  intros j df df' ps ps' Hp Hp' Hn Hj Hmod Hd.
  assert (Hnan : Forall (fun x => IEEE.is_nan x = false) (IEEE.d ps)).
  { eapply Forall_impl; [|exact Hmod]. intros x Hx.
    eapply steady_not_nan, moderate_steady, Hx. }
  pose proof (double_d_length ps) as Hlen.
  pose proof (double_d_length ps') as Hlen'.
  assert (Hnan' : Forall (fun x => IEEE.is_nan x = false) (IEEE.d ps')).
  { rewrite Hd. apply Forall_map.
    eapply Forall_impl; [|exact Hnan].
    intros x Hx. now rewrite is_nan_scale2. }
  destruct ps as [|x l]; [simpl in Hn; lia|].
  destruct ps' as [|x' l'].
  { apply (f_equal (@length _)) in Hd. rewrite length_map, Hlen in Hd.
    cbn in Hd, Hn. lia. }
  destruct (double_diff_column x l Hnan) as [Hdrop Hfill].
  destruct (double_diff_column x' l' Hnan') as [Hdrop' Hfill'].
  assert (Hne : IEEE.d (x :: l) <> []).
  { intros E. rewrite E in Hlen. cbn in Hlen, Hn. lia. }
  assert (Hne' : IEEE.d (x' :: l') <> []).
  { rewrite Hd. intros E. apply map_eq_nil in E. contradiction. }
  assert (Hmax : IEEE.max (IEEE.abs (IEEE.diff (x' :: l')))
                 = IEEE.scale2 j (IEEE.max (IEEE.abs (IEEE.diff (x :: l))))).
  { unfold IEEE.max. rewrite Hdrop, Hdrop', Hd.
    destruct (IEEE.d (x :: l)) as [|y t]; [reflexivity|].
    apply fold_max_scale2. }
  assert (Hm : IEEE.is_max (IEEE.max (IEEE.abs (IEEE.diff (x :: l))))
                 (IEEE.d (x :: l))).
  { unfold IEEE.max. rewrite Hdrop.
    destruct (IEEE.d (x :: l)) as [|y t]; [congruence|].
    now apply fold_max_is_max_double. }
  assert (Emean : IEEE.mean (IEEE.abs (IEEE.diff (x :: l)))
                  = IEEE.div (IEEE.sum (IEEE.zero :: IEEE.d (x :: l)))
                      (IEEE.of_Z (Z.of_nat (length (IEEE.d (x :: l)))))).
  { unfold IEEE.mean. rewrite Hdrop, Hfill.
    destruct (IEEE.d (x :: l)) as [|y t]; [congruence|]. reflexivity. }
  assert (Emean' : IEEE.mean (IEEE.abs (IEEE.diff (x' :: l')))
                   = IEEE.div (IEEE.sum (IEEE.zero :: IEEE.d (x' :: l')))
                       (IEEE.of_Z (Z.of_nat (length (IEEE.d (x' :: l')))))).
  { unfold IEEE.mean. rewrite Hdrop', Hfill'.
    destruct (IEEE.d (x' :: l')) as [|y t]; [congruence|]. reflexivity. }
  destruct (half_sum_scale j Hj (IEEE.d (x :: l))
              (IEEE.max (IEEE.abs (IEEE.diff (x :: l)))))
    as [S1 S2]; [cbn [length] in Hlen, Hn; lia | exact Hmod | apply Hm |].
  cbv zeta in S1, S2. rewrite <- Hd in S1. rewrite <- Emean in S1, S2.
  exists (IEEE.max (IEEE.abs (IEEE.diff (x :: l)))),
         (IEEE.mean (IEEE.abs (IEEE.diff (x :: l)))).
  eexists. eexists. eexists.
  split; [exact Hm|].
  split; [rewrite Hd; apply is_max_scale2, Hm|].
  split; [exact Emean|].
  split; [symmetry; exact S1|].
  split; [reflexivity|].
  split; [symmetry; exact S2|].
  split; [apply rint_is_rint|].
  split; [apply rint_is_rint|].
  change (IEEE.V04.compute_bitwalk_index df)
    with (IEEE.V03.compute_bitwalk_index df).
  change (IEEE.V04.compute_bitwalk_index df')
    with (IEEE.V03.compute_bitwalk_index df').
  rewrite (double_V03_run df _ Hp), (double_V03_run df' _ Hp').
  cbn [snd]. unfold IEEE.index_expr, IEEE.round.
  rewrite Hmax, Emean', S1, S2. change (10 ^ Z.of_nat 2)%Z with 100%Z.
  do 4 (split; [reflexivity|]).
  intros ->. now rewrite scale2_0.
Qed.

(** The two series of the counterexample, as doubles: the difference
    [0.0625] is [2^-2] times the difference [0.25], digit for digit, and so
    is the value before rounding. *)
Lemma scaling_up_to_rounding_witness :
  IEEE.lookup "pressure"
    (IEEE.columns (IEEE.frame_of (hourly 2) quarter_step_doubles))
    = Some quarter_step_doubles /\
  IEEE.lookup "pressure"
    (IEEE.columns (IEEE.frame_of (hourly 2) sixteenth_step_doubles))
    = Some sixteenth_step_doubles /\
  (2 <= length quarter_step_doubles <= 450)%nat /\
  (-64 <= -2 <= 64)%Z /\
  Forall (fun x => IEEE.moderate x = true) (IEEE.d quarter_step_doubles) /\
  IEEE.d sixteenth_step_doubles
    = map (IEEE.scale2 (-2)) (IEEE.d quarter_step_doubles) /\
  exists maxDiff meanDiff u : IEEE.double,
    IEEE.is_max maxDiff (IEEE.d quarter_step_doubles) /\
    IEEE.is_max (IEEE.scale2 (-2) maxDiff) (IEEE.d sixteenth_step_doubles) /\
    u = IEEE.div (IEEE.add maxDiff meanDiff) (IEEE.of_Z 2) /\
    IEEE.scale2 (-2) u
      = IEEE.div (IEEE.add (IEEE.scale2 (-2) maxDiff)
                           (IEEE.scale2 (-2) meanDiff))
                 (IEEE.of_Z 2).
Proof.
  assert (H1 : IEEE.lookup "pressure"
                 (IEEE.columns (IEEE.frame_of (hourly 2) quarter_step_doubles))
               = Some quarter_step_doubles) by reflexivity.
  assert (H2 : IEEE.lookup "pressure"
                 (IEEE.columns (IEEE.frame_of (hourly 2) sixteenth_step_doubles))
               = Some sixteenth_step_doubles) by reflexivity.
  assert (H3 : (2 <= length quarter_step_doubles <= 450)%nat) by (simpl; lia).
  assert (H4 : (-64 <= -2 <= 64)%Z) by lia.
  assert (H5 : Forall (fun x => IEEE.moderate x = true)
                 (IEEE.d quarter_step_doubles))
    by (repeat constructor).
  assert (H6 : IEEE.d sixteenth_step_doubles
               = map (IEEE.scale2 (-2)) (IEEE.d quarter_step_doubles))
    by (vm_compute; reflexivity).
  split; [exact H1|]. split; [exact H2|]. split; [exact H3|].
  split; [exact H4|]. split; [exact H5|]. split; [exact H6|].
  destruct (scaling_up_to_rounding (-2) _ _ _ _ H1 H2 H3 H4 H5 H6)
    as [maxDiff [meanDiff [u [r [r' [Ha [Hb [_ [_ [Hc [Hd _]]]]]]]]]]].
  exists maxDiff, meanDiff, u.
  split; [exact Ha|]. split; [exact Hb|]. split; [exact Hc|exact Hd].
Defined.

(** The counterexample on doubles: the two indices are the doubles [0.25]
    and [0.06], and [0.06] is not the double [0.0625]. *)
Lemma quarter_scaling_in_binary64 :
  IEEE.index_expr quarter_step_doubles = IEEE.decimal 25 2 /\
  IEEE.index_expr sixteenth_step_doubles = IEEE.decimal 6 2 /\
  IEEE.scale2 (-2) (IEEE.decimal 25 2) = IEEE.decimal 625 4 /\
  IEEE.decimal 6 2 <> IEEE.decimal 625 4.
Proof.
  vm_compute. repeat split. intros H. discriminate H.
Qed.

(** C7.  For every series of length [>= 2] whose pressures are all equal,
    the returned index is [0.0] and its tier is STABLE. *)
Theorem constant_pressure_is_stable :
  forall (df : DataFrame) (ps : list Q) (c : Q),
    lookup "pressure" (columns df) = Some (map num ps) ->
    (2 <= length ps)%nat ->
    (forall x, In x ps -> x == c) ->
    snd (V03.compute_bitwalk_index df) = Returned (num 0) /\
    snd (V04.compute_bitwalk_index df) = Returned (num 0) /\
    V03.tier (num 0) = STABLE /\
    V04.tier (num 0) = STABLE.
Proof.
  intros df ps c Hp Hn Hc.
  change (V04.compute_bitwalk_index df) with (V03.compute_bitwalk_index df).
  rewrite (V03_run df _ Hp). cbn [snd].
  rewrite (index_expr_num ps Hn). unfold Spec.index.
  rewrite (round_q_comp 2 _ 0 (unrounded_constant ps Hn c Hc)).
  repeat split.
Qed.

(** Three hours at [1013.2] hPa. *)
Lemma constant_pressure_is_stable_witness :
  lookup "pressure" (columns (frame_of (hourly 3) (map num constant_pressure)))
    = Some (map num constant_pressure) /\
  (2 <= length constant_pressure)%nat /\
  (forall x, In x constant_pressure -> x == 1013.2) /\
  snd (V03.compute_bitwalk_index
         (frame_of (hourly 3) (map num constant_pressure))) = Returned (num 0).
Proof.
  assert (Hn : (2 <= length constant_pressure)%nat) by (simpl; lia).
  assert (Hc : forall x, In x constant_pressure -> x == 1013.2).
  { intros x [<-|[<-|[<-|[]]]]; reflexivity. }
  split; [reflexivity|]. split; [exact Hn|]. split; [exact Hc|].
  exact (proj1 (constant_pressure_is_stable
    (frame_of (hourly 3) (map num constant_pressure))
    constant_pressure 1013.2 eq_refl Hn Hc)).
Defined.

(** C8.  For every series of length [>= 2] the returned index is a number
    and is non-negative. *)
Theorem index_nonneg :
  forall (df : DataFrame) (ps : list Q),
    lookup "pressure" (columns df) = Some (map num ps) ->
    (2 <= length ps)%nat ->
    exists index : Q,
      snd (V03.compute_bitwalk_index df) = Returned (num index) /\
      snd (V04.compute_bitwalk_index df) = Returned (num index) /\
      0 <= index.
Proof.
  intros df ps Hp Hn. exists (Spec.index ps).
  change (V04.compute_bitwalk_index df) with (V03.compute_bitwalk_index df).
  rewrite (V03_run df _ Hp). cbn [snd].
  rewrite (index_expr_num ps Hn).
  split; [reflexivity|]. split; [reflexivity|].
  apply round2_nonneg, unrounded_nonneg, Hn.
Qed.

(** The example frame has an index, and it is not negative. *)
Lemma index_nonneg_witness :
  lookup "pressure" (columns example_frame) = Some (map num example_pressure) /\
  (2 <= length example_pressure)%nat /\
  exists index : Q,
    snd (V03.compute_bitwalk_index example_frame) = Returned (num index) /\
    snd (V04.compute_bitwalk_index example_frame) = Returned (num index) /\
    0 <= index.
Proof.
  assert (Hn : (2 <= length example_pressure)%nat) by (simpl; lia).
  split; [reflexivity|]. split; [exact Hn|].
  exact (index_nonneg example_frame example_pressure eq_refl Hn).
Defined.

(** ** The concrete series in binary64 *)

Section Replay.

Import PrimFloat.
#[local] Set Warnings "-inexact-float".

(** In IEEE double arithmetic the differences of the specification's example
    are [0.2, 0.4, 1.2] only to within [1e-12], while the returned index is
    the double [0.9] itself and its tier is MODERATE.  The other concrete
    series give the same indices as in exact arithmetic: [1.0] for the
    unordered series, [0.25] and [0.06] for the two scaled ones, [0.0] for the
    constant one and NaN for the single sample. *)
Lemma binary64_replay :
  let near x y := PrimFloat.ltb (PrimFloat.abs (PrimFloat.sub x y)) 1e-12%float in
  forallb (fun xy => near (fst xy) (snd xy))
    (combine (Binary64.dropna (Binary64.abs (Binary64.diff Binary64.example_pressure)))
             [0.2; 0.4; 1.2]%float) = true /\
  PrimFloat.eqb (nth 1 (Binary64.abs (Binary64.diff Binary64.example_pressure)) 0%float)
    0.2%float = false /\
  Binary64.index_expr Binary64.example_pressure = 0.9%float /\
  Binary64.tier 0.9%float = MODERATE /\
  Binary64.index_expr [1000; 1001; 1000]%float = 1%float /\
  Binary64.index_expr [1000; 1000.25]%float = 0.25%float /\
  Binary64.index_expr [1000; 1000.0625]%float = 0.06%float /\
  PrimFloat.eqb 0.06%float (PrimFloat.mul 0.25 0.25)%float = false /\
  Binary64.index_expr [1013.2; 1013.2; 1013.2]%float = 0%float /\
  PrimFloat.is_nan (Binary64.index_expr [1000]%float) = true /\
  Binary64.tier (Binary64.index_expr [1000]%float) = HIGH.
Proof. vm_compute. repeat split. Qed.

End Replay.

(** * Further properties of [compute_bitwalk_index] *)

Section Columns.

Lemma diff_from_length prev s : length (diff_from prev s) = length s.
Proof. revert prev; induction s; intros; simpl; auto. Qed.

Lemma diff_length s : length (diff s) = length s.
Proof. apply diff_from_length. Qed.

Lemma abs_length s : length (abs s) = length s.
Proof. apply length_map. Qed.

Lemma diff_from_nth prev s i :
  (i < length s)%nat ->
  nth i (diff_from prev s) NaN =
    fsub (nth i s NaN) (match i with O => prev | S j => nth j s NaN end).
Proof.
  revert prev i. induction s as [|x s IH]; intros prev i Hi; simpl in Hi.
  - lia.
  - destruct i as [|i]; [reflexivity|].
    cbn [diff_from nth]. rewrite IH by lia.
    destruct i; reflexivity.
Qed.

Lemma fsub_nan x : fsub x NaN = NaN.
Proof. destruct x; reflexivity. Qed.

Lemma abs_nth s i : nth i (abs s) NaN = fabs (nth i s NaN).
Proof. unfold abs. change NaN with (fabs NaN) at 1. apply map_nth. Qed.

End Columns.

(** X1.  The derived columns, row by row: ['dpdt'] and ['diff'] have as many
    rows as ['pressure']; row [0] of both is NaN; row [i > 0] of ['dpdt'] is
    [pressure[i] - pressure[i-1]] (NaN when either is missing); and every row
    of ['diff'] is the absolute value of the same row of ['dpdt']. *)
Theorem derived_columns_row_by_row :
  forall (df : DataFrame) (p : Series),
    lookup "pressure" (columns df) = Some p ->
    exists dcol tcol : Series,
      lookup "diff" (columns (fst (V03.compute_bitwalk_index df))) = Some dcol /\
      lookup "dpdt" (columns (fst (V03.compute_bitwalk_index df))) = Some tcol /\
      lookup "diff" (columns (fst (V04.compute_bitwalk_index df))) = Some dcol /\
      lookup "dpdt" (columns (fst (V04.compute_bitwalk_index df))) = Some tcol /\
      length dcol = length p /\
      length tcol = length p /\
      (p <> [] -> nth 0 tcol (num 0) = NaN /\ nth 0 dcol (num 0) = NaN) /\
      (forall i, (0 < i < length p)%nat ->
         nth i tcol NaN = fsub (nth i p NaN) (nth (i - 1) p NaN)) /\
      (forall i, nth i dcol NaN = fabs (nth i tcol NaN)).
Proof.
  intros df p Hp. exists (abs (diff p)), (diff p).
  change (V04.compute_bitwalk_index df) with (V03.compute_bitwalk_index df).
  rewrite (V03_run df p Hp). cbn [fst columns].
  rewrite columns_after_diff, columns_after_dpdt.
  repeat split; trivial.
  - now rewrite abs_length, diff_length.
  - apply diff_length.
  - destruct p as [|x p]; [congruence|]. cbn. apply fsub_nan.
  - destruct p as [|x p]; [congruence|]. cbn. now rewrite fsub_nan.
  - intros i [Hi Hn]. unfold diff. rewrite diff_from_nth by exact Hn.
    destruct i as [|i]; [lia|]. cbn [Nat.sub]. now rewrite Nat.sub_0_r.
  - intros i. apply abs_nth.
Qed.

Lemma derived_columns_row_by_row_witness :
  lookup "pressure" (columns example_frame) = Some (map num example_pressure) /\
  exists dcol tcol : Series,
    lookup "diff" (columns (fst (V03.compute_bitwalk_index example_frame)))
      = Some dcol /\
    lookup "dpdt" (columns (fst (V03.compute_bitwalk_index example_frame)))
      = Some tcol /\
    length dcol = 4%nat /\ length tcol = 4%nat.
Proof.
  split; [reflexivity|].
  destruct (derived_columns_row_by_row example_frame _ eq_refl)
    as [dcol [tcol [H1 [H2 [_ [_ [H5 [H6 _]]]]]]]].
  exists dcol, tcol. repeat split; assumption.
Defined.

Section Missing.

(** The value returned for any ['pressure'] column, in terms of the numbers
    left in its ['diff'] column. *)
Lemma index_expr_dropna p :
  index_expr p =
    match dropna (abs (diff p)) with
    | [] => NaN
    | l => num (round_q 2 ((Spec.maxDiff l + Spec.mean l) / 2))
    end.
Proof.
  unfold index_expr, max, mean.
  destruct (dropna (abs (diff p))) as [|q l] eqn:E; [reflexivity|].
  unfold round, fdiv, fadd, lift2, num, option_map. f_equal.
  apply round_q_comp. unfold Spec.mean.
  rewrite Qsum_spec.
  assert (Hne : q :: l <> []) by discriminate.
  rewrite (is_max_unique _ _ _ (fold_max_is_max l q) (maxDiff_is_max _ Hne)).
  reflexivity.
Qed.

Lemma dropna_abs_diff_from_nonneg prev s x :
  In x (dropna (abs (diff_from prev s))) -> 0 <= x.
Proof.
  revert prev. induction s as [|y s IH]; intros prev Hin; [destruct Hin|].
  cbn [diff_from abs map] in Hin.
  destruct (fsub y prev) as [v|] eqn:E; cbn [fabs option_map dropna] in Hin.
  - destruct Hin as [<-|Hin]; [apply Qabs_nonneg | eapply IH, Hin].
  - eapply IH, Hin.
Qed.

Lemma maxDiff_mean_nonneg l :
  l <> [] -> (forall x, In x l -> 0 <= x) ->
  0 <= (Spec.maxDiff l + Spec.mean l) / 2.
Proof.
  intros Hne Hpos.
  destruct (maxDiff_is_max _ Hne) as [Hin _]. apply Hpos in Hin.
  pose proof (sum_nonneg l Hpos) as Hs.
  pose proof (count_pos _ Hne) as Hc.
  unfold Spec.mean.
  set (n := inject_Z (Z.of_nat (length l))) in *.
  assert (0 <= Spec.sum l / n).
  { apply Qle_shift_div_l; [assumption|]. lra. }
  apply Qle_shift_div_l; lra.
Qed.

Lemma dropna_diff_from_nil prev s :
  dropna (abs (diff_from prev s)) = [] <->
  ~ exists i a b,
      nth_error (prev :: s) i = Some (num a) /\
      nth_error (prev :: s) (S i) = Some (num b).
Proof.
  revert prev. induction s as [|y s IH]; intros prev.
  - split; [|reflexivity]. intros _ [i [a [b [_ H]]]].
    destruct i; discriminate H.
  - cbn [diff_from abs map]. split.
    + intros H [i [a [b [Ha Hb]]]].
      destruct i as [|i].
      * cbn in Ha, Hb. injection Ha as ->. injection Hb as ->.
        discriminate H.
      * destruct (fsub y prev); [discriminate H|].
        cbn [fabs option_map dropna] in H.
        apply (proj1 (IH y) H). exists i, a, b. split; assumption.
    + intros H.
      destruct y as [b|], prev as [a|]; cbn [fsub lift2 fabs option_map dropna].
      * exfalso. apply H. exists 0%nat, a, b. split; reflexivity.
      * apply IH. intros [i [a' [b' [Ha Hb]]]]. apply H.
        exists (S i), a', b'. split; assumption.
      * apply IH. intros [i [a' [b' [Ha Hb]]]]. apply H.
        exists (S i), a', b'. split; assumption.
      * apply IH. intros [i [a' [b' [Ha Hb]]]]. apply H.
        exists (S i), a', b'. split; assumption.
Qed.

Lemma dropna_diff_nil p :
  dropna (abs (diff p)) = [] <-> ~ adjacent_numbers p.
Proof.
  unfold diff. rewrite dropna_diff_from_nil. unfold adjacent_numbers.
  split; intros H [i [a [b [Ha Hb]]]]; apply H.
  - exists (S i), a, b. split; assumption.
  - destruct i as [|i]; [discriminate Ha|].
    exists i, a, b. split; assumption.
Qed.

End Missing.

(** X2.  Missing readings.  On a ['pressure'] column in which at least one
    reading is a number (so that pandas holds it as float64, the missing ones
    as NaN), the call returns; the index is NaN exactly when no two
    consecutive rows both hold a number, and otherwise it is a non-negative
    number. *)
Theorem index_with_missing_readings :
  forall (df : DataFrame) (p : Series),
    lookup "pressure" (columns df) = Some p ->
    (exists q, In (num q) p) ->
    exists index : float64,
      snd (V03.compute_bitwalk_index df) = Returned index /\
      snd (V04.compute_bitwalk_index df) = Returned index /\
      (index = NaN <-> ~ adjacent_numbers p) /\
      (forall q, index = num q -> 0 <= q).
Proof.
  intros df p Hp _. exists (index_expr p).
  change (V04.compute_bitwalk_index df) with (V03.compute_bitwalk_index df).
  rewrite (V03_run df p Hp). cbn [snd].
  split; [reflexivity|]. split; [reflexivity|].
  rewrite index_expr_dropna, <- dropna_diff_nil.
  destruct (dropna (abs (diff p))) as [|x l] eqn:E.
  - split; [tauto|]. intros q H; discriminate H.
  - split; [split; intros H; discriminate H|].
    intros q [= <-].
    apply round2_nonneg, (maxDiff_mean_nonneg (x :: l)); [discriminate|].
    intros y Hy. rewrite <- E in Hy.
    eapply dropna_abs_diff_from_nonneg, Hy.
Qed.

Lemma index_with_missing_readings_witness :
  lookup "pressure" (columns gap_frame) = Some [num 1000; NaN; num 1001] /\
  (exists q, In (num q) [num 1000; NaN; num 1001]) /\
  exists index : float64,
    snd (V03.compute_bitwalk_index gap_frame) = Returned index /\
    snd (V04.compute_bitwalk_index gap_frame) = Returned index /\
    (index = NaN <-> ~ adjacent_numbers [num 1000; NaN; num 1001]) /\
    (forall q, index = num q -> 0 <= q).
Proof.
  assert (H : exists q, In (num q) [num 1000; NaN; num 1001])
    by (exists 1000; now left).
  split; [reflexivity|]. split; [exact H|].
  exact (index_with_missing_readings gap_frame _ eq_refl H).
Defined.

Section Thresholds.

Lemma rint_ge_even (z : Z) (x : Q) :
  Z.even z = true ->
  ((z <= rint x)%Z <-> inject_Z z - (1 # 2) <= x).
Proof.
  intros Hz. unfold rint.
  pose proof (Qfloor_le x) as Hlo.
  pose proof (Qlt_floor x) as Hhi.
  rewrite inject_Z_plus in Hhi. change (inject_Z 1) with 1 in Hhi.
  set (f := Qfloor x) in *.
  assert (Hcmp : forall a b : Z, (a <= b)%Z <-> inject_Z a <= inject_Z b)
    by (intros; rewrite Zle_Qle; tauto).
  assert (Hstep : forall a b : Z, (a < b)%Z -> inject_Z a + 1 <= inject_Z b).
  { intros a b Hab. change 1 with (inject_Z 1). rewrite <- inject_Z_plus.
    rewrite <- Zle_Qle. lia. }
  destruct (Qcompare_spec (x - inject_Z f) (1 # 2)) as [E|L|G].
  - destruct (Z.even f) eqn:Hf.
    + split; intros H.
      * apply Hcmp in H. lra.
      * destruct (Z_le_gt_dec z f) as [Hle|Hgt]; [exact Hle|].
        assert (Hzf : z = (f + 1)%Z).
        { destruct (Z_lt_le_dec (f + 1) z) as [Hlt|Hge]; [|lia].
          apply Hstep in Hlt. rewrite inject_Z_plus in Hlt.
          change (inject_Z 1) with 1 in Hlt. lra. }
        subst z. rewrite Z.even_add in Hz. rewrite Hf in Hz. discriminate Hz.
    + split; intros H.
      * apply Hcmp in H. rewrite inject_Z_plus in H.
        change (inject_Z 1) with 1 in H. lra.
      * destruct (Z_le_gt_dec z (f + 1)) as [Hle|Hgt]; [exact Hle|].
        assert (Hlt : (f + 1 < z)%Z) by lia.
        apply Hstep in Hlt. rewrite inject_Z_plus in Hlt.
        change (inject_Z 1) with 1 in Hlt. lra.
  - split; intros H.
    + apply Hcmp in H. lra.
    + destruct (Z_le_gt_dec z f) as [Hle|Hgt]; [exact Hle|].
      assert (Hlt : (f < z)%Z) by lia. apply Hstep in Hlt. lra.
  - split; intros H.
    + apply Hcmp in H. rewrite inject_Z_plus in H.
      change (inject_Z 1) with 1 in H. lra.
    + destruct (Z_le_gt_dec z (f + 1)) as [Hle|Hgt]; [exact Hle|].
      assert (Hlt : (f + 1 < z)%Z) by lia.
      apply Hstep in Hlt. rewrite inject_Z_plus in Hlt.
      change (inject_Z 1) with 1 in Hlt. lra.
Qed.

(** Rounding to two decimals reaches an even number of hundredths [z/100]
    exactly from [z/100 - 0.005] on. *)
Lemma round2_ge_even (z : Z) (u : Q) :
  Z.even z = true ->
  (inject_Z z / 100 <= round_q 2 u <-> (inject_Z z - (1 # 2)) / 100 <= u).
Proof.
  intros Hz. rewrite round2_value.
  assert (E1 : forall a, a / 100 == a * (1 # 100)) by (intros; field).
  rewrite !E1.
  destruct (rint_ge_even z (u * 100) Hz) as [F B].
  rewrite Zle_Qle in F, B.
  split; intros H.
  - assert (H' : inject_Z z <= inject_Z (rint (u * 100))) by lra.
    apply F in H'. lra.
  - assert (H' : inject_Z z - (1 # 2) <= u * 100) by lra.
    apply B in H'. lra.
Qed.

Lemma round2_thresholds u :
  (round_q 2 u < 0.5 <-> u < 0.495) /\
  (0.5 <= round_q 2 u <-> 0.495 <= u) /\
  (round_q 2 u < 1.5 <-> u < 1.495) /\
  (1.5 <= round_q 2 u <-> 1.495 <= u).
Proof.
  pose proof (round2_ge_even 50 u eq_refl) as H50.
  pose proof (round2_ge_even 150 u eq_refl) as H150.
  assert (A : inject_Z 50 / 100 == 0.5) by reflexivity.
  assert (B : (inject_Z 50 - (1 # 2)) / 100 == 0.495) by reflexivity.
  assert (C : inject_Z 150 / 100 == 1.5) by reflexivity.
  assert (D : (inject_Z 150 - (1 # 2)) / 100 == 1.495) by reflexivity.
  rewrite A, B in H50. rewrite C, D in H150.
  repeat split; intros H;
    try tauto;
    try (apply Qnot_le_lt; intros H'; apply H50 in H'; lra);
    try (apply Qnot_le_lt; intros H'; apply H50 in H'; lra);
    try (apply Qnot_le_lt; intros H'; apply H150 in H'; lra).
Qed.

End Thresholds.

Section Tiers.

Lemma tier_of_num q :
  (q < 0.5 -> V03.tier (num q) = STABLE) /\
  (0.5 <= q -> q < 1.5 -> V03.tier (num q) = MODERATE) /\
  (1.5 <= q -> V03.tier (num q) = HIGH).
Proof.
  unfold V03.tier.
  destruct (flt (num q) (num 0.5)) eqn:E1;
    [apply flt_iff in E1 | apply flt_false_iff in E1];
    (destruct (flt (num q) (num 1.5)) eqn:E2;
     [apply flt_iff in E2 | apply flt_false_iff in E2]);
    cbn [Spec.lt num] in *; repeat split; intros; try reflexivity; lra.
Qed.






Lemma tier_round2 u :
  (V03.tier (num (round_q 2 u)) = STABLE <-> u < 0.495) /\
  (V03.tier (num (round_q 2 u)) = MODERATE <-> 0.495 <= u /\ u < 1.495) /\
  (V03.tier (num (round_q 2 u)) = HIGH <-> 1.495 <= u).
Proof.
  destruct (round2_thresholds u) as [T1 [T2 [T3 T4]]].
  destruct (tier_of_num (round_q 2 u)) as [S1 [S2 S3]].
  destruct (Qlt_le_dec u 0.495) as [L1|G1];
    [rewrite (S1 (proj2 T1 L1))
    |destruct (Qlt_le_dec u 1.495) as [L2|G2];
     [rewrite (S2 (proj2 T2 G1) (proj2 T3 L2))
     |rewrite (S3 (proj2 T4 G2))]];
    repeat split;
    try (intros HH; discriminate HH);
    try (intros; reflexivity);
    try (intros [? ?]; lra);
    try (intros; split; lra);
    try congruence;
    intros; lra.
Qed.


End Tiers.



(** X4.  Rounding moves the tier boundaries from [0.5] and [1.5] to about
    [0.495] and [1.495] of the value before rounding: the banner is STABLE
    when that value is at most [0.4949], MODERATE when it lies between
    [0.4951] and [1.4949], and HIGH when it is at least [1.4951].  Within
    [0.0001] of [0.495] and of [1.495] the last bits of the binary64
    arithmetic decide, and nothing is stated. *)
Theorem tier_boundaries_before_rounding :
  forall (df : DataFrame) (p : Series) (u : Q),
    lookup "pressure" (columns df) = Some p ->
    unrounded_expr p = num u ->
    exists index : float64,
      snd (V03.compute_bitwalk_index df) = Returned index /\
      snd (V04.compute_bitwalk_index df) = Returned index /\
      (u <= 0.4949 -> V03.tier index = STABLE) /\
      (0.4951 <= u -> u <= 1.4949 -> V03.tier index = MODERATE) /\
      (1.4951 <= u -> V03.tier index = HIGH) /\
      V04.tier index = V03.tier index.
Proof.
  intros df p u Hp Hu. exists (num (round_q 2 u)).
  change (V04.compute_bitwalk_index df) with (V03.compute_bitwalk_index df).
  rewrite (V03_run df p Hp). cbn [snd].
  change (index_expr p) with (round (unrounded_expr p) 2). rewrite Hu.
  split; [reflexivity|]. split; [reflexivity|].
  destruct (tier_round2 u) as [T1 [T2 T3]].
  split; [intros H; apply T1; lra|].
  split; [intros H1 H2; apply T2; split; lra|].
  split; [intros H; apply T3; lra|]. reflexivity.
Qed.

Lemma tier_boundaries_before_rounding_witness :
  exists u : Q,
    lookup "pressure" (columns example_frame) = Some (map num example_pressure) /\
    unrounded_expr (map num example_pressure) = num u /\
    exists index : float64,
      snd (V03.compute_bitwalk_index example_frame) = Returned index /\
      snd (V04.compute_bitwalk_index example_frame) = Returned index /\
      (u <= 0.4949 -> V03.tier index = STABLE) /\
      (0.4951 <= u -> u <= 1.4949 -> V03.tier index = MODERATE) /\
      (1.4951 <= u -> V03.tier index = HIGH) /\
      V04.tier index = V03.tier index.
Proof.
  eexists. split; [reflexivity|]. split; [vm_compute; reflexivity|].
  exact (tier_boundaries_before_rounding example_frame _ _ eq_refl eq_refl).
Defined.



Section NetChange.




End NetChange.



Section Rectangular.

Lemma lookup_In k s cs : lookup k cs = Some s -> exists k', In (k', s) cs.
Proof.
  induction cs as [|[k0 s0] cs IH]; cbn [lookup]; [discriminate|].
  destruct (String.eqb k k0).
  - intros [= ->]. exists k0. now left.
  - intros H. destruct (IH H) as [k' Hin]. exists k'. now right.
Qed.

Lemma assign_Forall (P : string * Series -> Prop) k s cs :
  (forall k', P (k', s)) -> Forall P cs -> Forall P (assign k s cs).
Proof.
  intros Hs. induction 1 as [|[k0 s0] cs H0 H IH]; cbn [assign].
  - constructor; [apply Hs | constructor].
  - destruct (String.eqb k k0); constructor; auto.
Qed.

End Rectangular.

(** X8.  A frame in which every column has as many rows as ['time'] is
    still such a frame after the call, whether the call returns or raises. *)
Theorem compute_keeps_frame_rectangular :
  forall df : DataFrame,
    rectangular df ->
    rectangular (fst (V03.compute_bitwalk_index df)) /\
    rectangular (fst (V04.compute_bitwalk_index df)).
Proof.
  intros df Hrect.
  change (V04.compute_bitwalk_index df) with (V03.compute_bitwalk_index df).
  assert (H : rectangular (fst (V03.compute_bitwalk_index df))); [|now split].
  destruct (lookup "pressure" (columns df)) as [p|] eqn:Hp.
  - rewrite (V03_run df p Hp). cbn [fst]. unfold rectangular in *.
    cbn [time columns].
    destruct (lookup_In _ _ _ Hp) as [k' Hin].
    pose proof (proj1 (Forall_forall _ _) Hrect _ Hin) as Hlen.
    cbn [snd] in Hlen.
    unfold columns_after. apply assign_Forall.
    + intros k0. cbn [snd]. now rewrite diff_length.
    + apply assign_Forall; [|exact Hrect].
      intros k0. cbn [snd]. now rewrite abs_length, diff_length.
  - now rewrite (V03_keyerror df Hp).
Qed.

Lemma compute_keeps_frame_rectangular_witness :
  rectangular example_frame /\
  rectangular (fst (V03.compute_bitwalk_index example_frame)).
Proof.
  assert (H : rectangular example_frame) by (repeat constructor).
  split; [exact H|].
  exact (proj1 (compute_keeps_frame_rectangular example_frame H)).
Defined.

Section Wave.



Lemma tail_length n (s : Series) : length (tail n s) = Nat.min n (length s).
Proof. unfold tail. rewrite length_skipn. lia. Qed.



Lemma pressure_wave_run df p :
  lookup "pressure" (columns df) = Some p ->
  pressure_wave df = (df, Returned (round_series (tail 12 p) 1)).
Proof.
  intros Hp. unfold pressure_wave, bind, getitem, ret. now rewrite Hp.
Qed.

End Wave.



(** * The script around the index *)

Section Geocoding.

Import App Common.

Lemma truthy_false_iff v : truthy v = false <-> falsy v.
Proof.
  unfold falsy. destruct v as [|[q|]]; cbn [truthy].
  - split; auto.
  - rewrite negb_false_iff, Qeq_bool_iff. split.
    + intros H. right. exists q. split; [reflexivity | exact H].
    + intros [H|[q' [[= ->] H]]]; [discriminate H | exact H].
  - split; [discriminate|]. intros [H|[q' [H _]]]; discriminate H.
Qed.

End Geocoding.

Section Runs.

Import App Common.

Variable w : world.
Variable s : session.
Variables (shown : list event) (la lo : pyval).
Hypothesis Hcoords :
  get_coordinates w (location s) = (shown, Ok (la, lo)).

(** The run of either script when a coordinate is [None] or zero. *)
Lemma main03_not_found :
  truthy la && truthy lo = false ->
  App03.main w s =
    ((preamble ++ shown ++ [error not_found; markdown footer])%list, Ok tt).
Proof.
  intros Ht. unfold App03.main, sidebar.
  cbn [bind emit ret app]. rewrite Hcoords. cbn [bind fst snd].
  rewrite Ht. reflexivity.
Qed.

Lemma main04_not_found :
  truthy la && truthy lo = false ->
  App04.main w s =
    ((preamble ++ shown ++
      [error not_found; subheader mastodon_heading;
       text_area_toot; button_toot] ++
      (if toot_clicked s then
         match mastodon_login w with
         | Ok _ => [request_toot (toot_text s)]
         | Fails _ => []
         end ++ [success (posting_text (posting_of w (toot_text s)))]
       else []) ++
      [markdown footer])%list, Ok tt).
Proof.
  intros Ht. unfold App04.main, sidebar.
  cbn [bind emit ret app]. rewrite Hcoords. cbn [bind fst snd].
  rewrite Ht. unfold App04.post_to_mastodon, posting_of.
  destruct (toot_clicked s); [|reflexivity].
  destruct (mastodon_login w) as [u|e]; [|reflexivity].
  destruct (toot w (toot_text s)) as [u'|e]; reflexivity.
Qed.

(** The run of either script when the weather request fails. *)
Lemma fetch_fails e :
  open_meteo w (weather_query w s la lo) = Fails e ->
  fetch_pressure_data w (show_days s) la lo =
    ([request_open_meteo (weather_query w s la lo)], Fails e).
Proof.
  intros H. unfold fetch_pressure_data. fold (weather_query w s la lo).
  cbn [bind emit lift]. rewrite H. reflexivity.
Qed.

Lemma fetch_returns f :
  open_meteo w (weather_query w s la lo) = Ok f ->
  length (hourly_time f) = length (hourly_pressure_msl f) ->
  fetch_pressure_data w (show_days s) la lo =
    ([request_open_meteo (weather_query w s la lo)],
     Ok (frame_of (hourly_time f) (hourly_pressure_msl f))).
Proof.
  intros H Hlen. unfold fetch_pressure_data. fold (weather_query w s la lo).
  cbn [bind emit lift]. rewrite H. cbn [bind].
  apply Nat.eqb_eq in Hlen. rewrite Hlen. reflexivity.
Qed.

Lemma fetch_ragged f :
  open_meteo w (weather_query w s la lo) = Ok f ->
  length (hourly_time f) <> length (hourly_pressure_msl f) ->
  fetch_pressure_data w (show_days s) la lo =
    ([request_open_meteo (weather_query w s la lo)],
     Fails (Exception "All arrays must be of the same length")).
Proof.
  intros H Hlen. unfold fetch_pressure_data. fold (weather_query w s la lo).
  cbn [bind emit lift]. rewrite H. cbn [bind].
  apply Nat.eqb_neq in Hlen. rewrite Hlen. reflexivity.
Qed.

Lemma main_fetch_raises e :
  truthy la && truthy lo = true ->
  fetch_pressure_data w (show_days s) la lo =
    ([request_open_meteo (weather_query w s la lo)], Fails e) ->
  App03.main w s =
    ((preamble ++ shown ++
      [write (place_line (location s) la lo);
       request_open_meteo (weather_query w s la lo)])%list, Fails e) /\
  App04.main w s = App03.main w s.
Proof.
  intros Ht Hf. unfold App03.main, App04.main, sidebar.
  cbn [bind emit ret app]. rewrite Hcoords. cbn [bind fst snd].
  rewrite Ht. cbn [bind emit ret app]. rewrite Hf. split; reflexivity.
Qed.

Variable f : forecast.
Hypothesis Hfound : truthy la && truthy lo = true.
Hypothesis Hmeteo : open_meteo w (weather_query w s la lo) = Ok f.
Hypothesis Hlen : length (hourly_time f) = length (hourly_pressure_msl f).

Lemma on_frame_compute :
  on_frame V03.compute_bitwalk_index
    (frame_of (hourly_time f) (hourly_pressure_msl f)) =
  ([], Ok (shown_frame f, index_expr (hourly_pressure_msl f))).
Proof.
  unfold on_frame.
  rewrite (V03_run _ (hourly_pressure_msl f)) by reflexivity. reflexivity.
Qed.

Lemma on_frame_wave :
  on_frame pressure_wave (shown_frame f) =
  ([], Ok (shown_frame f, round_series (tail 12 (hourly_pressure_msl f)) 1)).
Proof.
  unfold on_frame.
  rewrite (pressure_wave_run _ (hourly_pressure_msl f)); [reflexivity|].
  unfold shown_frame. cbn [columns].
  rewrite columns_after_other by discriminate. reflexivity.
Qed.

Lemma advice03_run p :
  App03.generate_gpt_advice w (prompt_location p) (prompt_pressure_wave p)
    (prompt_index p) (prompt_date_range p) =
  ([request_chat (mkPrompt (prompt_location p) (prompt_date_range p)
                    (prompt_pressure_wave p) (prompt_index p) None)],
   Ok (answer w (mkPrompt (prompt_location p) (prompt_date_range p)
                   (prompt_pressure_wave p) (prompt_index p) None))).
Proof.
  unfold App03.generate_gpt_advice, answer. cbn [bind emit lift try_except].
  destruct (chat w _); reflexivity.
Qed.

Lemma advice04_run p :
  App04.generate_gpt_advice w (prompt_location p) (prompt_pressure_wave p)
    (prompt_index p) (prompt_date_range p) (prompt_user_question p) =
  let q := match prompt_user_question p with
           | Some t => if nonempty t then Some t else None
           | None => None
           end in
  ([request_chat (mkPrompt (prompt_location p) (prompt_date_range p)
                    (prompt_pressure_wave p) (prompt_index p) q)],
   Ok (answer w (mkPrompt (prompt_location p) (prompt_date_range p)
                   (prompt_pressure_wave p) (prompt_index p) q))).
Proof.
  unfold App04.generate_gpt_advice, answer. cbn [bind emit lift try_except].
  destruct (chat w _); reflexivity.
Qed.

Lemma main03_found :
  App03.main w s =
    ((preamble ++ shown ++ shown_after_fetch w s la lo f ++
      (if nonempty (user_input s) then [write coming_soon] else []) ++
      [subheader advice_heading; button_advice] ++
      (if advice_clicked s then
         [request_chat (prompt_for s f None);
          markdown gpt_words_heading;
          write (advice_text (answer w (prompt_for s f None)))]
       else []) ++
      [markdown footer])%list, Ok tt).
Proof.
  unfold App03.main, sidebar.
  cbn [bind emit ret app]. rewrite Hcoords. cbn [bind fst snd].
  rewrite Hfound. cbn [bind emit ret app].
  rewrite (fetch_returns f Hmeteo Hlen). cbn [bind emit ret app].
  rewrite on_frame_compute. cbn [bind emit ret app fst snd].
  pose proof (advice03_run (prompt_for s f None)) as Hadv.
  cbn [prompt_for prompt_location prompt_date_range prompt_pressure_wave
       prompt_index prompt_user_question] in Hadv.
  destruct (nonempty (user_input s)); cbn [bind emit ret app];
    (destruct (advice_clicked s); cbn [bind emit ret app]; [|reflexivity]);
    rewrite on_frame_wave; cbn [bind emit ret app fst snd];
    rewrite Hadv; reflexivity.
Qed.

Lemma main04_found :
  App04.main w s =
    ((preamble ++ shown ++ shown_after_fetch w s la lo f ++
      (if nonempty (user_input s) then
         [request_chat (prompt_for s f (Some (user_input s)));
          write (chat_answer
                   (answer w (prompt_for s f (Some (user_input s)))))]
       else []) ++
      [subheader advice_heading; button_advice] ++
      (if advice_clicked s then
         [request_chat (prompt_for s f None);
          markdown gpt_words_heading;
          write (advice_text (answer w (prompt_for s f None)))]
       else []) ++
      [text_area_toot; button_toot] ++
      (if toot_clicked s then
         match mastodon_login w with
         | Ok _ => [request_toot (toot_text s)]
         | Fails _ => []
         end ++ [success (posting_text (posting_of w (toot_text s)))]
       else []) ++
      [markdown footer])%list, Ok tt).
Proof.
  unfold App04.main, sidebar.
  cbn [bind emit ret app]. rewrite Hcoords. cbn [bind fst snd].
  rewrite Hfound. cbn [bind emit ret app].
  rewrite (fetch_returns f Hmeteo Hlen). cbn [bind emit ret app].
  change V04.compute_bitwalk_index with V03.compute_bitwalk_index.
  rewrite on_frame_compute. cbn [bind emit ret app fst snd].
  change (V04.tier (index_expr (hourly_pressure_msl f)))
    with (V03.tier (index_expr (hourly_pressure_msl f))).
  pose proof (advice04_run (prompt_for s f (Some (user_input s)))) as Hchat.
  pose proof (advice04_run (prompt_for s f None)) as Hadv.
  cbn [prompt_for prompt_location prompt_date_range prompt_pressure_wave
       prompt_index prompt_user_question] in Hchat, Hadv.
  unfold App04.post_to_mastodon, posting_of.
  destruct (nonempty (user_input s)) eqn:Hu;
    destruct (advice_clicked s); destruct (toot_clicked s);
    cbn [bind emit ret app lift try_except fst snd];
    rewrite ?on_frame_wave; cbn [bind emit ret app lift try_except fst snd];
    rewrite ?Hchat; cbn [bind emit ret app lift try_except fst snd];
    rewrite ?on_frame_wave; cbn [bind emit ret app lift try_except fst snd];
    rewrite ?Hadv; cbn [bind emit ret app lift try_except fst snd];
    try reflexivity;
    (destruct (mastodon_login w) as [u|e];
     cbn [bind emit ret app lift try_except fst snd]; [|reflexivity];
     destruct (toot w (toot_text s)) as [u'|e]; reflexivity).
Qed.

End Runs.

Section Counting.

Import App Common.

Lemma count_app f l l' : count f (l ++ l') = (count f l + count f l')%nat.
Proof. unfold count. now rewrite filter_app, length_app. Qed.

Lemma count_none f l :
  (forall e, In e l -> f e = false) -> count f l = 0%nat.
Proof.
  intros H. unfold count. induction l as [|e l IH]; [reflexivity|].
  cbn [filter]. rewrite (H e) by now left.
  apply IH. intros e' He'. apply H. now right.
Qed.

Lemma get_coordinates_events w place shown c :
  get_coordinates w place = (shown, Ok c) ->
  forall e, In e shown -> geocoding_event e = true.
Proof.
  unfold get_coordinates.
  destruct (http_get w (nominatim_url place)) as [r|e0]; cbn;
    [destruct (status_code r =? 200)%Z; cbn;
     [destruct (json r) as [[|first rest]|e0]; cbn;
      [| destruct (parse_float w (lat first)) as [x|e0]; cbn;
         [destruct (parse_float w (lon first)) as [y|e0]; cbn|] |] |] |];
    intros [= <- _] e He; cbn [In] in He;
    repeat (destruct He as [<-|He]; [reflexivity|]); destruct He.
Qed.

Lemma count_geocoding f w place shown c :
  get_coordinates w place = (shown, Ok c) ->
  (forall e, geocoding_event e = true -> f e = false) ->
  count f shown = 0%nat.
Proof.
  intros H Hf. apply count_none. intros e He.
  apply Hf. eapply get_coordinates_events; eassumption.
Qed.

End Counting.

(** X10.  [get_coordinates] never raises, whatever the geocoding service
    does.  Either the request succeeded with status 200, the reply lists at
    least one place and both coordinates of the first parse as floats: then
    it returns them and shows nothing.  Or it returns [(None, None)] and has
    shown exactly one error message. *)
Theorem get_coordinates_outcome :
  forall (w : App.world) (place : string),
    let url := Common.nominatim_url place in
    exists (la lo : App.pyval) (shown : list App.event),
      Common.get_coordinates w place =
        ((App.request_nominatim url :: shown)%list, App.Ok (la, lo)) /\
      ((exists r first rest x y,
          App.http_get w url = App.Ok r /\
          App.status_code r = 200%Z /\
          App.json r = App.Ok (first :: rest)%list /\
          App.parse_float w (App.lat first) = App.Ok x /\
          App.parse_float w (App.lon first) = App.Ok y /\
          la = App.PyFloat x /\ lo = App.PyFloat y /\ shown = [])
       \/
       (la = App.PyNone /\ lo = App.PyNone /\
        exists m, shown = [App.error m])).
Proof.
  intros w place url.
  unfold Common.get_coordinates. fold url.
  destruct (App.http_get w url) as [r|e] eqn:Hget; cbn.
  2:{ exists App.PyNone, App.PyNone, [App.error (App.geocode_exception e)].
      split; [reflexivity|]. right. eauto. }
  destruct (App.status_code r =? 200)%Z eqn:Hs; cbn.
  2:{ exists App.PyNone, App.PyNone, [App.error App.geocode_failed].
      split; [reflexivity|]. right. eauto. }
  apply Z.eqb_eq in Hs.
  destruct (App.json r) as [[|first rest]|e] eqn:Hj; cbn.
  - exists App.PyNone, App.PyNone, [App.error App.geocode_failed].
    split; [reflexivity|]. right. eauto.
  - destruct (App.parse_float w (App.lat first)) as [x|e] eqn:Hx; cbn.
    2:{ exists App.PyNone, App.PyNone, [App.error (App.geocode_exception e)].
        split; [reflexivity|]. right. eauto. }
    destruct (App.parse_float w (App.lon first)) as [y|e] eqn:Hy; cbn.
    2:{ exists App.PyNone, App.PyNone, [App.error (App.geocode_exception e)].
        split; [reflexivity|]. right. eauto. }
    exists (App.PyFloat x), (App.PyFloat y), [].
    split; [reflexivity|]. left.
    exists r, first, rest, x, y. repeat split; assumption.
  - exists App.PyNone, App.PyNone, [App.error (App.geocode_exception e)].
    split; [reflexivity|]. right. eauto.
Qed.

(** X11.  The script takes a coordinate that is [None] or zero for a
    failed lookup: a place on the equator or on the Greenwich meridian is
    reported as not found although it was geocoded.  The v03 run then shows
    the error and the footer and nothing else; neither script asks for the
    weather or shows an index, and neither raises. *)
Theorem zero_coordinate_is_not_found :
  forall (w : App.world) (s : App.session)
         (shown : list App.event) (la lo : App.pyval),
    Common.get_coordinates w (App.location s) = (shown, App.Ok (la, lo)) ->
    falsy la \/ falsy lo ->
    App03.main w s =
      ((preamble ++ shown ++
        [App.error App.not_found; App.markdown App.footer])%list,
       App.Ok tt) /\
    snd (App04.main w s) = App.Ok tt /\
    In (App.error App.not_found) (fst (App04.main w s)) /\
    count is_weather_request (fst (App03.main w s)) = 0%nat /\
    count is_weather_request (fst (App04.main w s)) = 0%nat /\
    count is_metric (fst (App03.main w s)) = 0%nat /\
    count is_metric (fst (App04.main w s)) = 0%nat.
Proof.
  intros w s shown la lo Hc Hfalsy.
  assert (Ht : App.truthy la && App.truthy lo = false).
  { apply andb_false_iff.
    destruct Hfalsy as [H|H]; [left|right]; now apply truthy_false_iff. }
  rewrite (main03_not_found w s shown la lo Hc Ht).
  rewrite (main04_not_found w s shown la lo Hc Ht).
  cbn [fst snd].
  assert (Hw : count is_weather_request shown = 0%nat).
  { eapply count_geocoding; [exact Hc|]. intros [] H; try discriminate H; reflexivity. }
  assert (Hm : count is_metric shown = 0%nat).
  { eapply count_geocoding; [exact Hc|]. intros [] H; try discriminate H; reflexivity. }
  split; [reflexivity|]. split; [reflexivity|].
  split.
  { apply in_or_app. right. apply in_or_app. right. now left. }
  rewrite !count_app, Hw, Hm.
  destruct (App.toot_clicked s); [destruct (App.mastodon_login w)|];
    repeat split; reflexivity.
Qed.

Lemma zero_coordinate_is_not_found_witness :
  Common.get_coordinates equator_world (App.location busy_session) =
    ([App.request_nominatim (Common.nominatim_url "Uji, Kyoto")],
     App.Ok (App.PyFloat (num 0), App.PyFloat (num 51.5))) /\
  (falsy (App.PyFloat (num 0)) \/ falsy (App.PyFloat (num 51.5))) /\
  App03.main equator_world busy_session =
    ((preamble ++
      [App.request_nominatim (Common.nominatim_url "Uji, Kyoto")] ++
      [App.error App.not_found; App.markdown App.footer])%list,
     App.Ok tt).
Proof.
  assert (H1 : Common.get_coordinates equator_world (App.location busy_session) =
    ([App.request_nominatim (Common.nominatim_url "Uji, Kyoto")],
     App.Ok (App.PyFloat (num 0), App.PyFloat (num 51.5)))) by reflexivity.
  assert (H2 : falsy (App.PyFloat (num 0)) \/ falsy (App.PyFloat (num 51.5))).
  { left. right. exists 0. split; reflexivity. }
  split; [exact H1|]. split; [exact H2|].
  exact (proj1 (zero_coordinate_is_not_found equator_world busy_session
                  _ _ _ H1 H2)).
Defined.

(** X12.  A weather request that fails is not handled: when the
    coordinates are accepted and the request raises, or the reply has more
    times than pressures or fewer, the run stops right after the request with
    that exception; no index, banner or footer is shown.  Both scripts. *)
Theorem weather_failure_stops_the_run :
  forall (w : App.world) (s : App.session)
         (shown : list App.event) (la lo : App.pyval) (e : App.pyexn),
    Common.get_coordinates w (App.location s) = (shown, App.Ok (la, lo)) ->
    App.truthy la && App.truthy lo = true ->
    App.open_meteo w (weather_query w s la lo) = App.Fails e \/
    (exists f,
       App.open_meteo w (weather_query w s la lo) = App.Ok f /\
       length (App.hourly_time f) <> length (App.hourly_pressure_msl f) /\
       e = App.Exception "All arrays must be of the same length") ->
    App03.main w s =
      ((preamble ++ shown ++
        [App.write (App.place_line (App.location s) la lo);
         App.request_open_meteo (weather_query w s la lo)])%list,
       App.Fails e) /\
    App04.main w s = App03.main w s.
Proof.
  intros w s shown la lo e Hc Ht Hfail.
  apply (main_fetch_raises w s shown la lo Hc e Ht).
  destruct Hfail as [H|[f [H [Hlen ->]]]].
  - now apply fetch_fails.
  - now apply (fetch_ragged w s la lo f).
Qed.

Lemma weather_failure_stops_the_run_witness :
  Common.get_coordinates offline_world (App.location busy_session) =
    ([App.request_nominatim (Common.nominatim_url "Uji, Kyoto")],
     App.Ok (App.PyFloat (num 34.9), App.PyFloat (num 135.8))) /\
  App.truthy (App.PyFloat (num 34.9)) && App.truthy (App.PyFloat (num 135.8))
    = true /\
  snd (App03.main offline_world busy_session) =
    App.Fails (App.Exception "connection refused").
Proof.
  assert (H1 : Common.get_coordinates offline_world (App.location busy_session) =
    ([App.request_nominatim (Common.nominatim_url "Uji, Kyoto")],
     App.Ok (App.PyFloat (num 34.9), App.PyFloat (num 135.8)))) by reflexivity.
  assert (H2 : App.truthy (App.PyFloat (num 34.9))
               && App.truthy (App.PyFloat (num 135.8)) = true) by reflexivity.
  split; [exact H1|]. split; [exact H2|].
  rewrite (proj1 (weather_failure_stops_the_run offline_world busy_session
                    _ _ _ (App.Exception "connection refused")
                    H1 H2 (or_introl eq_refl))).
  reflexivity.
Defined.

Section Shown.

Import App Common.

Variables (w : world) (s : session) (la lo : pyval) (f : forecast).

Lemma shown_after_fetch_counts :
  count is_weather_request (shown_after_fetch w s la lo f) = 1%nat /\
  count is_metric (shown_after_fetch w s la lo f) = 1%nat /\
  count is_banner (shown_after_fetch w s la lo f) = 1%nat /\
  count is_chat_request (shown_after_fetch w s la lo f) = 0%nat /\
  count is_toot_request (shown_after_fetch w s la lo f) = 0%nat.
Proof.
  unfold shown_after_fetch, count.
  destruct (V03.tier (index_expr (hourly_pressure_msl f)));
    repeat split; reflexivity.
Qed.

Lemma shown_frame_columns :
  map fst (columns (shown_frame f)) = ["pressure"; "diff"; "dpdt"].
Proof. reflexivity. Qed.

Lemma shown_frame_rectangular :
  length (hourly_time f) = length (hourly_pressure_msl f) ->
  rectangular (shown_frame f).
Proof.
  intros Hlen. unfold rectangular, shown_frame, columns_after.
  cbn [time columns assign String.eqb Ascii.eqb Bool.eqb].
  repeat constructor; cbn [snd];
    rewrite ?abs_length, ?diff_length; auto.
Qed.

End Shown.

(** X13.  A run that gets coordinates and a forecast with at least one
    reading (without one, pandas does not type the column as float64) shows
    what
    [compute_bitwalk_index] makes of the fetched frame: exactly one metric,
    holding the returned index; exactly one banner, the one of that index;
    the chart and the CSV download are given the frame as the call left it,
    with the columns ['pressure'], ['diff'], ['dpdt'] in this order, each as
    long as ['time'].  The run asks for the weather once and does not raise,
    even when the chat service or the Mastodon server fail.  Both scripts. *)
Theorem successful_run_shows_computed_index :
  forall (w : App.world) (s : App.session)
         (shown : list App.event) (la lo : App.pyval) (f : App.forecast),
    Common.get_coordinates w (App.location s) = (shown, App.Ok (la, lo)) ->
    App.truthy la && App.truthy lo = true ->
    App.open_meteo w (weather_query w s la lo) = App.Ok f ->
    length (App.hourly_time f) = length (App.hourly_pressure_msl f) ->
    (exists q, In (num q) (App.hourly_pressure_msl f)) ->
    exists (df : DataFrame) (index : float64),
      V03.compute_bitwalk_index
        (frame_of (App.hourly_time f) (App.hourly_pressure_msl f))
        = (df, Returned index) /\
      V04.compute_bitwalk_index
        (frame_of (App.hourly_time f) (App.hourly_pressure_msl f))
        = (df, Returned index) /\
      map fst (columns df) = ["pressure"; "diff"; "dpdt"] /\
      rectangular df /\
      forall run : App.Run unit,
        run = App03.main w s \/ run = App04.main w s ->
        snd run = App.Ok tt /\
        count is_weather_request (fst run) = 1%nat /\
        count is_metric (fst run) = 1%nat /\
        In (App.metric index) (fst run) /\
        count is_banner (fst run) = 1%nat /\
        In (Common.banner (V03.tier index)) (fst run) /\
        In (App.plotly_chart df (App.show_days s)) (fst run) /\
        In (App.download_button df (Common.csv_file_name (App.location s)))
           (fst run).
Proof.
  intros w s shown la lo f Hc Ht Hm Hlen _.
  exists (shown_frame f), (index_expr (App.hourly_pressure_msl f)).
  change V04.compute_bitwalk_index with V03.compute_bitwalk_index.
  rewrite (V03_run _ (App.hourly_pressure_msl f)) by reflexivity.
  split; [reflexivity|]. split; [reflexivity|].
  split; [apply shown_frame_columns|].
  split; [now apply shown_frame_rectangular|].
  destruct (shown_after_fetch_counts w s la lo f) as [C1 [C2 [C3 _]]].
  assert (Hw : count is_weather_request shown = 0%nat).
  { eapply count_geocoding; [exact Hc|].
    intros [] H; try discriminate H; reflexivity. }
  assert (Hme : count is_metric shown = 0%nat).
  { eapply count_geocoding; [exact Hc|].
    intros [] H; try discriminate H; reflexivity. }
  assert (Hb : count is_banner shown = 0%nat).
  { eapply count_geocoding; [exact Hc|].
    intros [] H; try discriminate H; reflexivity. }
  assert (Hin : forall e rest,
            In e (shown_after_fetch w s la lo f) ->
            In e (preamble ++ shown ++ shown_after_fetch w s la lo f ++ rest)%list).
  { intros e rest He. apply in_or_app. right. apply in_or_app. right.
    apply in_or_app. now left. }
  intros run [-> | ->].
  - rewrite (main03_found w s shown la lo Hc f Ht Hm Hlen). cbn [fst snd].
    split; [reflexivity|].
    rewrite !count_app, Hw, Hme, Hb, C1, C2, C3.
    repeat split;
      try (destruct (nonempty (App.user_input s)), (App.advice_clicked s);
           reflexivity);
      apply Hin; unfold shown_after_fetch; cbn [In]; tauto.
  - rewrite (main04_found w s shown la lo Hc f Ht Hm Hlen). cbn [fst snd].
    split; [reflexivity|].
    rewrite !count_app, Hw, Hme, Hb, C1, C2, C3.
    repeat split;
      try (destruct (nonempty (App.user_input s)), (App.advice_clicked s),
             (App.toot_clicked s), (App.mastodon_login w);
           reflexivity);
      apply Hin; unfold shown_after_fetch; cbn [In]; tauto.
Qed.

Lemma successful_run_shows_computed_index_witness :
  exists (df : DataFrame) (index : float64),
    V03.compute_bitwalk_index
      (frame_of [0; 3600; 7200]%Z [num 1000; num 1001; num 1000])
      = (df, Returned index) /\
    In (App.metric index) (fst (App03.main uji_world busy_session)) /\
    In (App.metric index) (fst (App04.main uji_world busy_session)).
Proof.
  destruct (successful_run_shows_computed_index uji_world busy_session
              [App.request_nominatim (Common.nominatim_url "Uji, Kyoto")]
              (App.PyFloat (num 34.9)) (App.PyFloat (num 135.8))
              (App.mkForecast [0; 3600; 7200]%Z [num 1000; num 1001; num 1000])
              eq_refl eq_refl eq_refl eq_refl
              (ex_intro _ 1000 (or_introl eq_refl)))
    as [df [index [H1 [_ [_ [_ Hrun]]]]]].
  exists df, index. split; [exact H1|]. split.
  - exact (proj1 (proj2 (proj2 (proj2 (Hrun _ (or_introl eq_refl)))))).
  - exact (proj1 (proj2 (proj2 (proj2 (Hrun _ (or_intror eq_refl)))))).
Defined.

Section Requests.

Import App Common.

Lemma filter_geocoding (g : event -> bool) w place shown c :
  get_coordinates w place = (shown, Ok c) ->
  (forall e, geocoding_event e = true -> g e = false) ->
  filter g shown = [].
Proof.
  intros H Hg. pose proof (count_geocoding g w place shown c H Hg) as Hc.
  unfold count in Hc. now apply length_zero_iff_nil.
Qed.

End Requests.

(** X14.  The chat requests of a run that has its forecast (with at least
    one reading), in order.  The
    v03 script asks the chat service only when the advice button is pressed
    (text typed in the chat box only gets the placeholder line); the v04
    script asks once for a non-empty chat text, with that text as the
    question, and once for the button, with no question.  Every request
    carries the index shown in the metric and the last twelve pressures
    rounded to one decimal. *)
Theorem chat_requests_of_a_run :
  forall (w : App.world) (s : App.session)
         (shown : list App.event) (la lo : App.pyval) (f : App.forecast),
    Common.get_coordinates w (App.location s) = (shown, App.Ok (la, lo)) ->
    App.truthy la && App.truthy lo = true ->
    App.open_meteo w (weather_query w s la lo) = App.Ok f ->
    length (App.hourly_time f) = length (App.hourly_pressure_msl f) ->
    (exists q, In (num q) (App.hourly_pressure_msl f)) ->
    let button := App.request_chat (prompt_for s f None) in
    let typed := App.request_chat (prompt_for s f (Some (App.user_input s))) in
    filter is_chat_request (fst (App03.main w s)) =
      (if App.advice_clicked s then [button] else []) /\
    filter is_chat_request (fst (App04.main w s)) =
      ((if nonempty (App.user_input s) then [typed] else []) ++
       (if App.advice_clicked s then [button] else []))%list /\
    (nonempty (App.user_input s) = true ->
       In (App.write App.coming_soon) (fst (App03.main w s))) /\
    (forall q,
       App.prompt_index (prompt_for s f q) =
         index_expr (App.hourly_pressure_msl f) /\
       In (App.metric (App.prompt_index (prompt_for s f q)))
          (fst (App03.main w s)) /\
       App.prompt_pressure_wave (prompt_for s f q) =
         round_series (tail 12 (App.hourly_pressure_msl f)) 1 /\
       length (App.prompt_pressure_wave (prompt_for s f q)) =
         Nat.min 12 (length (App.hourly_pressure_msl f))).
Proof.
  intros w s shown la lo f Hc Ht Hm Hlen _ button typed.
  rewrite (main03_found w s shown la lo Hc f Ht Hm Hlen).
  rewrite (main04_found w s shown la lo Hc f Ht Hm Hlen).
  cbn [fst].
  assert (Hs : filter is_chat_request shown = []).
  { eapply filter_geocoding; [exact Hc|].
    intros [] H; try discriminate H; reflexivity. }
  assert (Hf : filter is_chat_request (shown_after_fetch w s la lo f) = []).
  { unfold shown_after_fetch.
    destruct (V03.tier (index_expr (App.hourly_pressure_msl f))); reflexivity. }
  rewrite !filter_app, Hs, Hf.
  split; [|split; [|split]].
  - destruct (nonempty (App.user_input s)), (App.advice_clicked s); reflexivity.
  - destruct (nonempty (App.user_input s)), (App.advice_clicked s),
      (App.toot_clicked s), (App.mastodon_login w); reflexivity.
  - intros Hu. rewrite Hu.
    apply in_or_app. right. apply in_or_app. right.
    apply in_or_app. right. apply in_or_app. left. now left.
  - intros q. split; [reflexivity|]. split; [|split; [reflexivity|]].
    + apply in_or_app. right. apply in_or_app. right.
      apply in_or_app. left. unfold shown_after_fetch. cbn [In]. tauto.
    + cbn [prompt_for App.prompt_pressure_wave]. unfold round_series.
      rewrite length_map. apply tail_length.
Qed.

Lemma chat_requests_of_a_run_witness :
  filter is_chat_request (fst (App04.main uji_world busy_session)) =
    [App.request_chat
       (prompt_for busy_session
          (App.mkForecast [0; 3600; 7200]%Z [num 1000; num 1001; num 1000])
          (Some "headache?"));
     App.request_chat
       (prompt_for busy_session
          (App.mkForecast [0; 3600; 7200]%Z [num 1000; num 1001; num 1000])
          None)].
Proof.
  exact (proj1 (proj2 (chat_requests_of_a_run uji_world busy_session
              [App.request_nominatim (Common.nominatim_url "Uji, Kyoto")]
              (App.PyFloat (num 34.9)) (App.PyFloat (num 135.8))
              (App.mkForecast [0; 3600; 7200]%Z [num 1000; num 1001; num 1000])
              eq_refl eq_refl eq_refl eq_refl
              (ex_intro _ 1000 (or_introl eq_refl))))).
Defined.

(** X15.  The Mastodon part of the v04 script sits outside the
    coordinates test: in every run that is not stopped by a weather failure
    (the place is not found, or the forecast came with at least one reading)
    the text area and the post button are shown, found or not, while the
    Mastodon heading is shown only when the place was not found.  A post is
    attempted only when the button is pressed and the client could be built,
    and its outcome, failure included, is shown with [st.success]: it adds no
    [st.error]. *)
Theorem mastodon_part_of_a_run :
  forall (w : App.world) (s : App.session)
         (shown : list App.event) (la lo : App.pyval),
    Common.get_coordinates w (App.location s) = (shown, App.Ok (la, lo)) ->
    App.truthy la && App.truthy lo = false \/
    (App.truthy la && App.truthy lo = true /\
     exists f,
       App.open_meteo w (weather_query w s la lo) = App.Ok f /\
       length (App.hourly_time f) = length (App.hourly_pressure_msl f) /\
       exists q, In (num q) (App.hourly_pressure_msl f)) ->
    let run := fst (App04.main w s) in
    filter is_toot_widget run = [App.text_area_toot; App.button_toot] /\
    count is_mastodon_heading run =
      (if App.truthy la && App.truthy lo then 0 else 1)%nat /\
    filter is_toot_request run =
      (if App.toot_clicked s then
         match App.mastodon_login w with
         | App.Ok _ => [App.request_toot (App.toot_text s)]
         | App.Fails _ => []
         end
       else []) /\
    (App.toot_clicked s = true ->
       In (App.success (App.posting_text (posting_of w (App.toot_text s)))) run) /\
    count is_error run =
      (count is_error shown +
       (if App.truthy la && App.truthy lo then 0 else 1))%nat.
Proof.
  intros w s shown la lo Hc Hcase run. unfold run.
  assert (G1 : filter is_toot_widget shown = []).
  { eapply filter_geocoding; [exact Hc|].
    intros [] H; try discriminate H; reflexivity. }
  assert (G2 : count is_mastodon_heading shown = 0%nat).
  { eapply count_geocoding; [exact Hc|].
    intros [] H; try discriminate H; reflexivity. }
  assert (G3 : filter is_toot_request shown = []).
  { eapply filter_geocoding; [exact Hc|].
    intros [] H; try discriminate H; reflexivity. }
  destruct Hcase as [Ht | [Ht [f [Hm [Hlen _]]]]].
  - rewrite (main04_not_found w s shown la lo Hc Ht), Ht. cbn [fst].
    rewrite !filter_app, !count_app, G1, G2, G3.
    split; [|split; [|split; [|split]]].
    + destruct (App.toot_clicked s), (App.mastodon_login w); reflexivity.
    + destruct (App.toot_clicked s), (App.mastodon_login w); reflexivity.
    + destruct (App.toot_clicked s), (App.mastodon_login w); reflexivity.
    + intros Hclick. rewrite Hclick.
      apply in_or_app. right. apply in_or_app. right.
      apply in_or_app. right. apply in_or_app. left.
      apply in_or_app. right. now left.
    + destruct (App.toot_clicked s), (App.mastodon_login w);
        cbn; lia.
  - rewrite (main04_found w s shown la lo Hc f Ht Hm Hlen), Ht. cbn [fst].
    rewrite !filter_app, !count_app, G1, G2, G3.
    assert (F1 : filter is_toot_widget (shown_after_fetch w s la lo f) = []
              /\ count is_mastodon_heading (shown_after_fetch w s la lo f) = 0%nat
              /\ filter is_toot_request (shown_after_fetch w s la lo f) = []
              /\ count is_error (shown_after_fetch w s la lo f) = 0%nat).
    { unfold shown_after_fetch, count.
      destruct (V03.tier (index_expr (App.hourly_pressure_msl f)));
        repeat split; reflexivity. }
    destruct F1 as [F1 [F2 [F3 F4]]]. rewrite F1, F2, F3, F4.
    split; [|split; [|split; [|split]]].
    + destruct (nonempty (App.user_input s)), (App.advice_clicked s),
        (App.toot_clicked s), (App.mastodon_login w); reflexivity.
    + destruct (nonempty (App.user_input s)), (App.advice_clicked s),
        (App.toot_clicked s), (App.mastodon_login w); reflexivity.
    + destruct (nonempty (App.user_input s)), (App.advice_clicked s),
        (App.toot_clicked s), (App.mastodon_login w); reflexivity.
    + intros Hclick. rewrite Hclick.
      apply in_or_app. right. apply in_or_app. right.
      apply in_or_app. right. apply in_or_app. right.
      apply in_or_app. right. apply in_or_app. right.
      apply in_or_app. right. apply in_or_app. left.
      apply in_or_app. right. now left.
    + destruct (nonempty (App.user_input s)), (App.advice_clicked s),
        (App.toot_clicked s), (App.mastodon_login w); cbn; lia.
Qed.

Lemma mastodon_part_of_a_run_witness :
  filter is_toot_widget (fst (App04.main equator_world busy_session)) =
    [App.text_area_toot; App.button_toot] /\
  In (App.success
        (App.posting_text (App.PostFailed (App.Exception "forbidden"))))
     (fst (App04.main equator_world busy_session)).
Proof.
  pose proof (mastodon_part_of_a_run equator_world busy_session
                [App.request_nominatim (Common.nominatim_url "Uji, Kyoto")]
                (App.PyFloat (num 0)) (App.PyFloat (num 51.5))
                eq_refl (or_introl eq_refl)) as H.
  cbv zeta in H.
  split; [exact (proj1 H)|].
  exact (proj1 (proj2 (proj2 (proj2 H))) eq_refl).
Defined.

Section Window.

Import Common.

Lemma date_minus_days t n : date (t - days n) = (date t - n)%Z.
Proof.
  unfold date, days.
  replace (t - 86400 * n)%Z with (t + (- n) * 86400)%Z by ring.
  rewrite Z.div_add by discriminate. ring.
Qed.

Lemma date_plus_days t n : date (t + days n) = (date t + n)%Z.
Proof.
  unfold date, days.
  replace (t + 86400 * n)%Z with (t + n * 86400)%Z by ring.
  now rewrite Z.div_add by discriminate.
Qed.

End Window.

(** X16.  [fetch_pressure_data] makes exactly one request, for the
    coordinates it was given and for the dates from [show_days] days before
    today to 3 days after today (UTC), whatever the time of day: the window
    always has [show_days + 4] dates, 3 of them in the future.  It returns a
    frame only when the reply has as many times as pressures, and that frame
    holds them unchanged. *)
Theorem weather_request_window :
  forall (w : App.world) (show_days : Z) (la lo : App.pyval),
    exists (q : App.query) (r : App.reply DataFrame),
      Common.fetch_pressure_data w show_days la lo =
        ([App.request_open_meteo q], r) /\
      App.latitude q = la /\
      App.longitude q = lo /\
      App.start_date q = (Common.date (App.now w) - show_days)%Z /\
      App.end_date q = (Common.date (App.now w) + 3)%Z /\
      (App.end_date q - App.start_date q + 1 = show_days + 4)%Z /\
      (forall df, r = App.Ok df ->
         exists f,
           App.open_meteo w q = App.Ok f /\
           length (App.hourly_time f) = length (App.hourly_pressure_msl f) /\
           time df = App.hourly_time f /\
           columns df = [("pressure", App.hourly_pressure_msl f)]).
Proof.
  intros w show_days la lo.
  unfold Common.fetch_pressure_data.
  set (q := App.mkQuery la lo _ _).
  assert (Hq : App.latitude q = la /\ App.longitude q = lo /\
               App.start_date q = (Common.date (App.now w) - show_days)%Z /\
               App.end_date q = (Common.date (App.now w) + 3)%Z /\
               (App.end_date q - App.start_date q + 1 = show_days + 4)%Z).
  { unfold q. cbn [App.latitude App.longitude App.start_date App.end_date].
    rewrite date_minus_days, date_plus_days. repeat split; lia. }
  destruct Hq as [Q1 [Q2 [Q3 [Q4 Q5]]]].
  destruct (App.open_meteo w q) as [f|e] eqn:Hq;
    cbn [App.bind App.emit App.lift app].
  - destruct (length (App.hourly_time f) =? length (App.hourly_pressure_msl f))%nat
      eqn:Hlen; cbn [App.ret App.raise app].
    + exists q, (App.Ok (frame_of (App.hourly_time f) (App.hourly_pressure_msl f))).
      do 6 (split; [first [reflexivity | assumption]|]).
      intros df [= <-]. exists f. apply Nat.eqb_eq in Hlen.
      repeat split; try assumption; reflexivity.
    + exists q, (App.Fails (App.Exception "All arrays must be of the same length")).
      do 6 (split; [first [reflexivity | assumption]|]).
      intros df H; discriminate H.
  - exists q, (App.Fails e).
    do 6 (split; [first [reflexivity | assumption]|]).
    intros df H; discriminate H.
Qed.

(** X17.  The name of the CSV download never holds a space, whatever the
    place typed: it is [bitwalk_], the place with every space turned into
    an underscore and nothing else changed, and [.csv]. *)
Theorem csv_file_name_has_no_space :
  forall location_ : string,
    (forall c, In c (list_ascii_of_string (Common.csv_file_name location_)) ->
               c <> " "%char) /\
    String.length (Common.csv_file_name location_) =
      (String.length location_ + 12)%nat /\
    (forall i c,
       String.get i location_ = Some c ->
       String.get (8 + i) (Common.csv_file_name location_) =
         Some (if Ascii.eqb c " "%char then "_"%char else c)).
Proof.
  intros loc. unfold Common.csv_file_name.
  assert (Hlen : String.length (Common.replace_spaces loc) = String.length loc).
  { induction loc as [|c l IH]; cbn; congruence. }
  assert (Hin : forall c, In c (list_ascii_of_string (Common.replace_spaces loc))
                          -> c <> " "%char).
  { induction loc as [|a l IH]; cbn [Common.replace_spaces list_ascii_of_string In].
    - intros c [].
    - intros c [<-|H].
      + destruct (Ascii.eqb a " ") eqn:E; [discriminate|].
        now apply Ascii.eqb_neq.
      + apply IH; [|exact H].
        clear - Hlen. cbn in Hlen. congruence. }
  assert (Hget : forall i c, String.get i loc = Some c ->
            String.get i (Common.replace_spaces loc ++ ".csv") =
            Some (if Ascii.eqb c " "%char then "_"%char else c)).
  { clear. induction loc as [|a l IH]; intros i c H.
    - destruct i; discriminate H.
    - destruct i as [|i]; cbn in *.
      + now injection H as ->.
      + now apply IH. }
  split; [|split].
  - intros c Hc.
    change ("bitwalk_" ++ Common.replace_spaces loc ++ ".csv")
      with (String "b" (String "i" (String "t" (String "w" (String "a"
             (String "l" (String "k" (String "_"
                (Common.replace_spaces loc ++ ".csv"))))))))) in Hc.
    cbn [list_ascii_of_string In] in Hc.
    repeat (destruct Hc as [<-|Hc]; [discriminate|]).
    revert Hc Hin. generalize (Common.replace_spaces loc). clear.
    induction s as [|a s IH]; cbn [String.append list_ascii_of_string In];
      intros Hc Hin.
    + repeat (destruct Hc as [<-|Hc]; [discriminate|]). destruct Hc.
    + destruct Hc as [<-|Hc]; [apply Hin; now left|].
      apply IH; [exact Hc|]. intros c' Hc'. apply Hin. now right.
  - assert (Happ : forall a b : string,
              String.length (a ++ b) = (String.length a + String.length b)%nat).
    { induction a as [|x a IH]; intros b; cbn; [reflexivity | now rewrite IH]. }
    rewrite !Happ, Hlen. cbn. lia.
  - intros i c H. cbn. now apply Hget.
Qed.

(** * The index over doubles: sign, constant series, short series *)



(** X19.  In binary64, a series of 2 or more readings that are all the
    same finite double gets the index [+0.0] exactly, and the STABLE banner.
    Both source versions. *)
Theorem constant_pressure_in_binary64 :
  forall (df : IEEE.DataFrame) (ps : list IEEE.double) (c : IEEE.double),
    IEEE.lookup "pressure" (IEEE.columns df) = Some ps ->
    (2 <= length ps)%nat ->
    (Z.of_nat (length ps) <= 2 ^ 53)%Z ->
    IEEE.is_finite c = true ->
    Forall (fun y => y = c) ps ->
    snd (IEEE.V03.compute_bitwalk_index df) = IEEE.Returned IEEE.zero /\
    snd (IEEE.V04.compute_bitwalk_index df) = IEEE.Returned IEEE.zero /\
    IEEE.V03.tier IEEE.zero = STABLE /\
    IEEE.V04.tier IEEE.zero = STABLE.
Proof.
  intros df ps c Hp Hn Hbig Hc Hall.
  change (IEEE.V04.compute_bitwalk_index df)
    with (IEEE.V03.compute_bitwalk_index df).
  rewrite (double_V03_run df _ Hp). cbn [snd].
  assert (E : IEEE.index_expr ps = IEEE.zero);
    [|rewrite E; repeat split; reflexivity].
  pose proof (double_d_length ps) as Hlen.
  destruct ps as [|x l]; [simpl in Hn; lia|].
  assert (Hx : x = c) by (now inversion Hall).
  assert (Hl : Forall (fun y => y = c) l) by (now inversion Hall).
  subst x.
  pose proof (d_constant c l Hc Hl) as Hz.
  assert (Hnan : Forall (fun y => IEEE.is_nan y = false) (IEEE.d (c :: l))).
  { eapply Forall_impl; [|exact Hz]. now intros y ->. }
  assert (Hne : IEEE.d (c :: l) <> []).
  { intros E. rewrite E in Hlen. cbn in Hlen, Hn. lia. }
  destruct (index_expr_d c l Hnan Hne) as [E [Hin _]]. rewrite E.
  rewrite (proj1 (Forall_forall _ _) Hz _ Hin).
  assert (Hsum : IEEE.sum (IEEE.zero :: IEEE.d (c :: l)) = IEEE.zero).
  { apply (sum_closed (fun y => y = IEEE.zero));
      [reflexivity | now intros ? ? -> -> | constructor; [reflexivity|exact Hz]]. }
  rewrite Hsum.
  rewrite (div_zero_normal (-52) 1).
  - reflexivity.
  - apply of_Z_normal. rewrite Hlen. cbn [length] in *. lia.
Qed.

Lemma constant_pressure_in_binary64_witness :
  IEEE.lookup "pressure"
    (IEEE.columns (IEEE.frame_of (hourly 3) constant_doubles))
    = Some constant_doubles /\
  (2 <= length constant_doubles)%nat /\
  (Z.of_nat (length constant_doubles) <= 2 ^ 53)%Z /\
  IEEE.is_finite (IEEE.decimal 10132 1) = true /\
  Forall (fun y => y = IEEE.decimal 10132 1) constant_doubles /\
  snd (IEEE.V03.compute_bitwalk_index
         (IEEE.frame_of (hourly 3) constant_doubles))
    = IEEE.Returned IEEE.zero.
Proof.
  assert (H1 : IEEE.lookup "pressure"
                 (IEEE.columns (IEEE.frame_of (hourly 3) constant_doubles))
               = Some constant_doubles) by reflexivity.
  assert (H2 : (2 <= length constant_doubles)%nat) by (simpl; lia).
  assert (H3 : (Z.of_nat (length constant_doubles) <= 2 ^ 53)%Z)
    by (vm_compute; intros H; discriminate H).
  assert (H4 : IEEE.is_finite (IEEE.decimal 10132 1) = true) by reflexivity.
  assert (H5 : Forall (fun y => y = IEEE.decimal 10132 1) constant_doubles)
    by (repeat constructor).
  split; [exact H1|]. split; [exact H2|]. split; [exact H3|].
  split; [exact H4|]. split; [exact H5|].
  exact (proj1 (constant_pressure_in_binary64
                  (IEEE.frame_of (hourly 3) constant_doubles)
                  constant_doubles (IEEE.decimal 10132 1) H1 H2 H3 H4 H5)).
Defined.

(** X20.  In binary64, a series with fewer than 2 readings gets NaN as its
    index, and the banner for NaN is HIGH.  Both source versions. *)
Theorem short_series_in_binary64 :
  forall (df : IEEE.DataFrame) (p : IEEE.Series),
    IEEE.lookup "pressure" (IEEE.columns df) = Some p ->
    (length p < 2)%nat ->
    snd (IEEE.V03.compute_bitwalk_index df) = IEEE.Returned IEEE.NaN /\
    snd (IEEE.V04.compute_bitwalk_index df) = IEEE.Returned IEEE.NaN /\
    IEEE.V03.tier IEEE.NaN = HIGH /\
    IEEE.V04.tier IEEE.NaN = HIGH.
Proof.
  intros df p Hp Hn.
  change (IEEE.V04.compute_bitwalk_index df)
    with (IEEE.V03.compute_bitwalk_index df).
  rewrite (double_V03_run df _ Hp). cbn [snd].
  assert (E : IEEE.index_expr p = IEEE.NaN);
    [|rewrite E; repeat split; reflexivity].
  destruct p as [|x [|y p]]; [reflexivity| |simpl in Hn; lia].
  unfold IEEE.index_expr, IEEE.diff. cbn [IEEE.diff_from].
  rewrite sub_nan_r. reflexivity.
Qed.

Lemma short_series_in_binary64_witness :
  IEEE.lookup "pressure"
    (IEEE.columns (IEEE.frame_of (hourly 1) single_sample_doubles))
    = Some single_sample_doubles /\
  (length single_sample_doubles < 2)%nat /\
  snd (IEEE.V03.compute_bitwalk_index
         (IEEE.frame_of (hourly 1) single_sample_doubles))
    = IEEE.Returned IEEE.NaN.
Proof.
  assert (H1 : IEEE.lookup "pressure"
                 (IEEE.columns (IEEE.frame_of (hourly 1) single_sample_doubles))
               = Some single_sample_doubles) by reflexivity.
  assert (H2 : (length single_sample_doubles < 2)%nat) by (simpl; lia).
  split; [exact H1|]. split; [exact H2|].
  exact (proj1 (short_series_in_binary64
                  (IEEE.frame_of (hourly 1) single_sample_doubles)
                  single_sample_doubles H1 H2)).
Defined.
